(** * worklog: daily work notes, their markdown codec and the start-of-day
      reconciliation

    A shallow embedding of the Go packages [notes] (note model, parser),
    [summarizer] (chat-session client) and of the [start] command, with the
    properties of the written specification stated over it.

    Go strings are byte strings: they are modelled by [string], whose
    characters ([ascii]) are bytes.  Go [int] values are modelled by [Z]. *)

From Stdlib Require Import String Ascii List ZArith NArith Lia Bool.
From Stdlib Require Import Sorting.Sorted Sorting.Permutation.
Import ListNotations.

Open Scope string_scope.

(* ================================================================= *)
(** ** The functions of Go's [strings] package used by the program *)

Module GoStrings.

(** [cutPrefix p s] is [Some r] when [s = p ++ r]. *)
Fixpoint cutPrefix (p s : string) : option string :=
  match p with
  | EmptyString => Some s
  | String a p' =>
      match s with
      | EmptyString => None
      | String b s' => if Ascii.eqb a b then cutPrefix p' s' else None
      end
  end.

(** [strings.HasPrefix(s, prefix)] *)
Definition HasPrefix (s prefix : string) : bool :=
  match cutPrefix prefix s with Some _ => true | None => false end.

(** [strings.TrimPrefix(s, prefix)]: [s] without the leading [prefix], or
    [s] itself when it does not start with [prefix]. *)
Definition TrimPrefix (s prefix : string) : string :=
  match cutPrefix prefix s with Some r => r | None => s end.

(** [strings.HasSuffix(s, suffix)]:
    [len(s) >= len(suffix) && s[len(s)-len(suffix):] == suffix]. *)
Definition HasSuffix (s suffix : string) : bool :=
  (String.length suffix <=? String.length s)%nat &&
  String.eqb (substring (String.length s - String.length suffix) (String.length suffix) s) suffix.

Definition code (a : ascii) : N := N_of_ascii a.

(** White space as [unicode.IsSpace] defines it, on the UTF-8 encoding:
    the six ASCII bytes tab, LF, VT, FF, CR, space ... *)
Definition isSpace1 (a : ascii) : bool :=
  match code a with
  | 9 | 10 | 11 | 12 | 13 | 32 => true
  | _ => false
  end%N.

(** ... U+0085 (C2 85) and U+00A0 (C2 A0) ... *)
Definition isSpace2 (a b : ascii) : bool :=
  ((code a =? 194) && ((code b =? 133) || (code b =? 160)))%N.

(** ... and U+1680 (E1 9A 80), U+2000..U+200A (E2 80 80..8A), U+2028,
    U+2029, U+202F (E2 80 A8, A9, AF), U+205F (E2 81 9F), U+3000
    (E3 80 80). *)
Definition isSpace3 (a b c : ascii) : bool :=
  (((code a =? 225) && (code b =? 154) && (code c =? 128))
   || ((code a =? 226) && (code b =? 128) &&
       (((128 <=? code c) && (code c <=? 138))
        || (code c =? 168) || (code c =? 169) || (code c =? 175)))
   || ((code a =? 226) && (code b =? 129) && (code c =? 159))
   || ((code a =? 227) && (code b =? 128) && (code c =? 128)))%N.

(** [s] is the encoding of exactly one white-space rune. *)
Definition isSpaceRune (s : string) : bool :=
  match s with
  | String a EmptyString => isSpace1 a
  | String a (String b EmptyString) => isSpace2 a b
  | String a (String b (String c EmptyString)) => isSpace3 a b c
  | _ => false
  end.

(** [strings.TrimLeftFunc(s, unicode.IsSpace)]: drop leading white-space
    runes. *)
Fixpoint trimLeft (s : string) : string :=
  match s with
  | EmptyString => EmptyString
  | String a r =>
      if isSpace1 a then trimLeft r
      else
        match r with
        | EmptyString => s
        | String b r' =>
            if isSpace2 a b then trimLeft r'
            else
              match r' with
              | EmptyString => s
              | String c r'' => if isSpace3 a b c then trimLeft r'' else s
              end
        end
  end.

(** [strings.TrimRightFunc(s, unicode.IsSpace)]: drop trailing white-space
    runes.  The last rune is decoded backwards from the end of the string,
    so a suffix that encodes a white-space rune is dropped whatever
    precedes it; no encoding of a white-space rune is a proper suffix of
    another one, so the trailing runes are found from the right, one byte
    of context at a time. *)
Fixpoint trimRight (s : string) : string :=
  match s with
  | EmptyString => EmptyString
  | String a r =>
      let t := trimRight r in
      if isSpaceRune (String a t) then EmptyString else String a t
  end.

(** [strings.TrimSpace(s)] *)
Definition TrimSpace (s : string) : string := trimRight (trimLeft s).

(** The note package's own [ToLowerCase]: bytes 'A'..'Z' are moved by 32,
    every other byte is kept. *)
Definition lowerByte (a : ascii) : ascii :=
  if ((65 <=? code a) && (code a <=? 90))%N
  then ascii_of_N (code a + 32) else a.

Fixpoint ToLowerCase (s : string) : string :=
  match s with
  | EmptyString => EmptyString
  | String a r => String (lowerByte a) (ToLowerCase r)
  end.

(** A line break byte occurs in [s]. *)
Fixpoint hasByte (x : ascii) (s : string) : bool :=
  match s with
  | EmptyString => false
  | String a r => Ascii.eqb a x || hasByte x r
  end.

Definition LF : ascii := ascii_of_N 10.
Definition CR : ascii := ascii_of_N 13.

End GoStrings.
Import GoStrings.

(* ================================================================= *)
(** ** Calendar dates: the part of Go's [time] package the program uses

    Every [time.Time] the program handles is a midnight of UTC, obtained
    from [time.Parse("2006-01-02", _)] or from truncating the clock to a
    day, so a time is modelled by a calendar date.  [Before] and [After]
    compare instants: their arguments are the dates of the instants in
    UTC.  [Format] shows an instant in its location: the formatting
    functions, and with them [generateID] and [GenerateFilename], take
    the date as that location shows it, which for a parsed time is the
    date in UTC and for the day of a command the date that [shownDate]
    below gives. *)

Module GoTime.

Record Time : Type := mkTime { year : Z; month : Z; day : Z }.

(** The zero [time.Time]: January 1, year 1. *)
Definition zeroTime : Time := mkTime 1 1 1.

(** [t.Before(u)] *)
Definition Before (t u : Time) : bool :=
  ((year t <? year u)
   || ((year t =? year u)
       && ((month t <? month u)
           || ((month t =? month u) && (day t <? day u)))))%Z.

(** [t.After(u)] *)
Definition After (t u : Time) : bool := Before u t.

Definition isLeap (y : Z) : bool :=
  ((y mod 4 =? 0) && (negb (y mod 100 =? 0) || (y mod 400 =? 0)))%Z.

Definition daysIn (m y : Z) : Z :=
  (if m =? 2 then (if isLeap y then 29 else 28)
   else if (m =? 4) || (m =? 6) || (m =? 9) || (m =? 11) then 30
   else 31)%Z.

(** The dates a [time.Time] can hold whose year prints on four digits. *)
Definition validDate (t : Time) : bool :=
  ((0 <=? year t) && (year t <=? 9999)
   && (1 <=? month t) && (month t <=? 12)
   && (1 <=? day t) && (day t <=? daysIn (month t) (year t)))%Z.

Definition digitChar (d : Z) : ascii := ascii_of_N (48 + Z.to_N d).

Definition digitVal (a : ascii) : option Z :=
  let c := code a in
  if ((48 <=? c) && (c <=? 57))%N then Some (Z.of_N (c - 48)) else None.

(** Two and four decimal digits, zero padded. *)
Definition fmt2 (n : Z) (k : string) : string :=
  String (digitChar (n / 10 mod 10)) (String (digitChar (n mod 10)) k).

Definition fmt4 (n : Z) (k : string) : string :=
  String (digitChar (n / 1000 mod 10))
    (String (digitChar (n / 100 mod 10)) (fmt2 n k)).

(** [t.Format("2006-01-02")], for a year of four digits. *)
Definition FormatISO (t : Time) : string :=
  fmt4 (year t) (String "-" (fmt2 (month t) (String "-" (fmt2 (day t) "")))).

Definition num2 (a b : ascii) : option Z :=
  match digitVal a, digitVal b with
  | Some x, Some y => Some (10 * x + y)%Z
  | _, _ => None
  end.

Definition num4 (a b c d : ascii) : option Z :=
  match num2 a b, num2 c d with
  | Some x, Some y => Some (100 * x + y)%Z
  | _, _ => None
  end.

(** [time.Parse("2006-01-02", s)]: exactly four digits, a dash, two digits,
    a dash, two digits and nothing else; the month must be in 1..12 and the
    day in 1..[daysIn].  [None] stands for the parse error. *)
Definition ParseISO (s : string) : option Time :=
  match s with
  | String y1 (String y2 (String y3 (String y4 (String "-"
      (String m1 (String m2 (String "-"
        (String d1 (String d2 EmptyString))))))))) =>
      match num4 y1 y2 y3 y4, num2 m1 m2, num2 d1 d2 with
      | Some y, Some m, Some d =>
          if ((1 <=? m) && (m <=? 12) && (1 <=? d) && (d <=? daysIn m y))%Z
          then Some (mkTime y m d) else None
      | _, _, _ => None
      end
  | _ => None
  end.

Definition monthAbbrev (m : Z) : string :=
  match m with
  | 1 => "Jan" | 2 => "Feb" | 3 => "Mar" | 4 => "Apr" | 5 => "May"
  | 6 => "Jun" | 7 => "Jul" | 8 => "Aug" | 9 => "Sep" | 10 => "Oct"
  | 11 => "Nov" | _ => "Dec"
  end%Z.

(** The day of the month without padding, as layout element "2" prints. *)
Definition fmtDay (d : Z) : string :=
  if (d <? 10)%Z then String (digitChar d) "" else fmt2 d "".

(** [t.Format("2-Jan-2006")] *)
Definition FormatDMonY (t : Time) : string :=
  fmtDay (day t) ++ "-" ++ monthAbbrev (month t) ++ "-" ++ fmt4 (year t) "".

End GoTime.
Import GoTime.

(* ================================================================= *)
(** ** The note model (package [notes]) *)

Record WorkItem : Type := mkWorkItem { Text : string; Completed : bool }.

Record Note : Type := mkNote {
  ID : string;
  Aliases : list string;
  Tags : list string;
  Date : Time;
  Title : string;
  Summary : string;
  YesterdaySummary : string;
  PendingWork : list WorkItem;
  CompletedWork : list WorkItem;
  FilePath : string
}.

Definition setPendingWork (n : Note) (l : list WorkItem) : Note :=
  mkNote (ID n) (Aliases n) (Tags n) (Date n) (Title n) (Summary n)
         (YesterdaySummary n) l (CompletedWork n) (FilePath n).

Definition setCompletedWork (n : Note) (l : list WorkItem) : Note :=
  mkNote (ID n) (Aliases n) (Tags n) (Date n) (Title n) (Summary n)
         (YesterdaySummary n) (PendingWork n) l (FilePath n).

Definition setID (n : Note) (s : string) : Note :=
  mkNote s (Aliases n) (Tags n) (Date n) (Title n) (Summary n)
         (YesterdaySummary n) (PendingWork n) (CompletedWork n) (FilePath n).

Definition setTags (n : Note) (l : list string) : Note :=
  mkNote (ID n) (Aliases n) l (Date n) (Title n) (Summary n)
         (YesterdaySummary n) (PendingWork n) (CompletedWork n) (FilePath n).

Definition setDate (n : Note) (t : Time) : Note :=
  mkNote (ID n) (Aliases n) (Tags n) t (Title n) (Summary n)
         (YesterdaySummary n) (PendingWork n) (CompletedWork n) (FilePath n).

Definition setTitle (n : Note) (s : string) : Note :=
  mkNote (ID n) (Aliases n) (Tags n) (Date n) s (Summary n)
         (YesterdaySummary n) (PendingWork n) (CompletedWork n) (FilePath n).

Definition setSummary (n : Note) (s : string) : Note :=
  mkNote (ID n) (Aliases n) (Tags n) (Date n) (Title n) s
         (YesterdaySummary n) (PendingWork n) (CompletedWork n) (FilePath n).

Definition setYesterdaySummary (n : Note) (s : string) : Note :=
  mkNote (ID n) (Aliases n) (Tags n) (Date n) (Title n) (Summary n)
         s (PendingWork n) (CompletedWork n) (FilePath n).

Definition setFilePath (n : Note) (s : string) : Note :=
  mkNote (ID n) (Aliases n) (Tags n) (Date n) (Title n) (Summary n)
         (YesterdaySummary n) (PendingWork n) (CompletedWork n) s.

(** [generateID]: WorkplaceName-D-Mon-YYYY, with the date as [Format]
    shows it. *)
Definition generateID (date : Time) (workplaceName : string) : string :=
  workplaceName ++ "-" ++ FormatDMonY date.

(** [NewNote]; the file path is the zero value, the empty string. *)
Definition NewNote (date : Time) (workplaceName : string) : Note :=
  mkNote (generateID date workplaceName) []
         [ToLowerCase workplaceName; "job"] date (FormatISO date)
         "" "" [] [] "".

(** [GenerateFilename]: YYYY-MM-DD-WorkplaceName.md, with the date as
    [Format] shows it. *)
Definition GenerateFilename (date : Time) (workplaceName : string) : string :=
  FormatISO date ++ "-" ++ workplaceName ++ ".md".

Definition HasPendingWork (n : Note) : bool :=
  (0 <? length (PendingWork n))%nat.

Definition HasCompletedWork (n : Note) : bool :=
  (0 <? length (CompletedWork n))%nat.

Definition AddPendingItem (n : Note) (text : string) : Note :=
  setPendingWork n (PendingWork n ++ [mkWorkItem text false]).

Definition AddCompletedItem (n : Note) (text : string) : Note :=
  setCompletedWork n (CompletedWork n ++ [mkWorkItem text true]).

(** [inBounds index l]: [index >= 0 && index < len(l)] *)
Definition inBounds {A} (index : Z) (l : list A) : bool :=
  ((0 <=? index) && (index <? Z.of_nat (length l)))%Z.

(** [append(l[:index], l[index+1:]...)] *)
Definition removeAt {A} (index : Z) (l : list A) : list A :=
  firstn (Z.to_nat index) l ++ skipn (Z.to_nat (index + 1)) l.

(** [MarkItemCompleted]: the item at [index] gets [Completed = true], is
    appended to the completed work and removed from the pending work.
    Nothing happens when the index is out of bounds. *)
Definition MarkItemCompleted (n : Note) (index : Z) : Note :=
  if inBounds index (PendingWork n) then
    match nth_error (PendingWork n) (Z.to_nat index) with
    | Some item =>
        let item' := mkWorkItem (Text item) true in
        let n1 := setCompletedWork n (CompletedWork n ++ [item']) in
        setPendingWork n1 (removeAt index (PendingWork n1))
    | None => n
    end
  else n.

Definition RemovePendingItem (n : Note) (index : Z) : Note :=
  if inBounds index (PendingWork n)
  then setPendingWork n (removeAt index (PendingWork n)) else n.

Definition RemoveCompletedItem (n : Note) (index : Z) : Note :=
  if inBounds index (CompletedWork n)
  then setCompletedWork n (removeAt index (CompletedWork n)) else n.

(* ================================================================= *)
(** ** Reading a file line by line ([bufio.Scanner] with [ScanLines]) *)

Inductive error : Type :=
| ErrOpen      (* [os.Open] failed *)
| ErrRead      (* a read of the open file failed *)
| ErrTooLong   (* [bufio.ErrTooLong]: a line does not fit the scanner's buffer *)
| ErrBadPattern. (* [filepath.ErrBadPattern]: a malformed glob pattern *)

(** What the file system answers for a path: the file cannot be opened,
    it is read to its end, or a read fails after some bytes were
    delivered. *)
Inductive File : Type :=
| OpenFails
| Readable (data : string)
| ReadFails (data : string).

(** [bufio.MaxScanTokenSize] *)
Definition MaxScanTokenSize : nat := 64 * 1024.

(** The lines of [s] as [ScanLines] cuts them: each ends at a line feed,
    which is dropped; a last line without line feed counts when it is not
    empty. *)
Fixpoint rawLines (s : string) : list string :=
  match s with
  | EmptyString => []
  | String a r =>
      if Ascii.eqb a LF then EmptyString :: rawLines r
      else
        match rawLines r with
        | [] => [String a EmptyString]
        | l :: ls => String a l :: ls
        end
  end.

(** [dropCR]: one trailing carriage return is dropped. *)
Fixpoint dropCR (s : string) : string :=
  match s with
  | EmptyString => EmptyString
  | String a EmptyString => if Ascii.eqb a CR then EmptyString else s
  | String a r => String a (dropCR r)
  end.

(** The tokens [scanner.Scan] delivers and what [scanner.Err] returns
    afterwards.  The scanner's buffer grows up to [MaxScanTokenSize] bytes;
    a line whose bytes before the line feed fill it stops the scan with
    [ErrTooLong]. *)
Fixpoint scanTokens (ls : list string) : list string * option error :=
  match ls with
  | [] => ([], None)
  | l :: ls' =>
      if (MaxScanTokenSize <=? String.length l)%nat then ([], Some ErrTooLong)
      else let (ts, e) := scanTokens ls' in (dropCR l :: ts, e)
  end.

(* ================================================================= *)
(** ** The parser (package [notes], type [Parser]) *)

(** [parseFrontmatterLine] *)
Definition parseFrontmatterLine (line : string) (note : Note) : Note :=
  if HasPrefix line "id:" then
    setID note (TrimSpace (TrimPrefix line "id:"))
  else if HasPrefix line "date:" then
    let dateStr := TrimSpace (TrimPrefix line "date:") in
    match ParseISO dateStr with
    | Some t => setDate note t
    | None => note
    end
  else if HasPrefix line "  - " then
    let tag := TrimSpace (TrimPrefix line "  - ") in
    setTags note (Tags note ++ [tag])%list
  else note.

(** [parseWorkItem]; [None] is the nil pointer. *)
Definition parseWorkItem (line0 : string) : option WorkItem :=
  let line := TrimSpace line0 in
  if HasPrefix line "- [ ] " then
    Some (mkWorkItem (TrimPrefix line "- [ ] ") false)
  else if HasPrefix line "- [x] " || HasPrefix line "- [X] " then
    let text := TrimPrefix line "- [x] " in
    let text := TrimPrefix text "- [X] " in
    Some (mkWorkItem text true)
  else None.

(** The variables of the loop of [ParseFile]. *)
Record ParseState : Type := mkParseState {
  note : Note;
  inFrontmatter : bool;
  inPendingSection : bool;
  inCompletedSection : bool
}.

(** One iteration of the loop of [ParseFile], on the line [line]. *)
Definition parseLine (st : ParseState) (line : string) : ParseState :=
  let n := note st in
  let fm := inFrontmatter st in
  let ip := inPendingSection st in
  let ic := inCompletedSection st in
  if String.eqb line "---" then mkParseState n (negb fm) ip ic
  else if fm then mkParseState (parseFrontmatterLine line n) fm ip ic
  else if HasPrefix line "# " then
    mkParseState (setTitle n (TrimPrefix line "# ")) fm ip ic
  else if HasPrefix line "summary::" then
    mkParseState (setSummary n (TrimSpace (TrimPrefix line "summary::")))
                 fm ip ic
  else if HasPrefix line "yesterday's summary::" then
    mkParseState
      (setYesterdaySummary n
         (TrimSpace (TrimPrefix line "yesterday's summary::")))
      fm ip ic
  else if HasPrefix line "## Pending Work" then mkParseState n fm true false
  else if HasPrefix line "## Work Completed" then mkParseState n fm false true
  else
    let n1 :=
      if ip then
        match parseWorkItem line with
        | Some item => setPendingWork n (PendingWork n ++ [item])%list
        | None => n
        end
      else n in
    let n2 :=
      if ic then
        match parseWorkItem line with
        | Some item => setCompletedWork n1 (CompletedWork n1 ++ [item])%list
        | None => n1
        end
      else n1 in
    mkParseState n2 fm ip ic.

(** The note and the flags before the first line is read. *)
Definition initialState (filePath : string) : ParseState :=
  mkParseState (mkNote "" [] [] zeroTime "" "" "" [] [] filePath)
               false false false.

Definition parseLines (filePath : string) (lines : list string) : ParseState :=
  fold_left parseLine lines (initialState filePath).

(** [ParseFile]: the Go function returns a note pointer and an error; the
    pointer is nil exactly when the file cannot be opened. *)
Definition ParseFile (filePath : string) (f : File)
  : option Note * option error :=
  match f with
  | OpenFails => (None, Some ErrOpen)
  | Readable data =>
      let (toks, e) := scanTokens (rawLines data) in
      (Some (note (parseLines filePath toks)), e)
  | ReadFails data =>
      let (toks, e) := scanTokens (rawLines data) in
      (Some (note (parseLines filePath toks)),
       Some match e with Some e' => e' | None => ErrRead end)
  end.

Definition nl : string := String LF EmptyString.

(** The content of a file written line by line, each line ended by a
    line feed. *)
Fixpoint joinLines (ls : list string) : string :=
  match ls with
  | [] => EmptyString
  | l :: ls' => l ++ nl ++ joinLines ls'
  end.

(* ----------------------------------------------------------------- *)
(** *** Finding the most recent earlier note *)

Record Parser : Type := mkParser { notesDir : string; workplaceName : string }.

(** What [filepath.Glob] returns: the paths that match the pattern, or
    [ErrBadPattern] for a malformed pattern, the only error it returns. *)
Inductive GlobResult : Type :=
| Matches (files : list string)
| BadPattern.

(** The file system as the parser sees it: what
    [filepath.Glob(filepath.Join(dir, pattern))] returns, and what
    opening a path gives. *)
Record FileSystem : Type := mkFS {
  glob : string -> string -> GlobResult;
  openPath : string -> File
}.

(** [fmt.Sprintf("*-%s.md", p.workplaceName)] *)
Definition notePattern (p : Parser) : string :=
  "*-" ++ workplaceName p ++ ".md".

(** [path] without the slashes at its end. *)
Fixpoint stripSlashes (path : string) : string :=
  match path with
  | EmptyString => EmptyString
  | String c rest =>
      match stripSlashes rest with
      | EmptyString =>
          if Ascii.eqb c "/" then EmptyString else String c EmptyString
      | r => String c r
      end
  end.

(** What follows the last slash of [path]. *)
Fixpoint lastElement (path : string) : string :=
  match path with
  | EmptyString => EmptyString
  | String c rest =>
      if Ascii.eqb c "/" || hasByte "/" rest then lastElement rest
      else path
  end.

(** [filepath.Base(path)], with the slash as separator. *)
Definition Base (path : string) : string :=
  if String.eqb path "" then "."
  else
    let element := lastElement (stripSlashes path) in
    if String.eqb element "" then "/" else element.

Definition isDigit (a : ascii) : bool :=
  ((48 <=? code a) && (code a <=? 57))%N.

Definition isDash (a : ascii) : bool := Ascii.eqb a "-".

(** The first group of the regular expression
    [^(\d{4}-\d{2}-\d{2})-.*\.md$] on [basename], or [None] when it does
    not match: ten bytes of digits and dashes, a dash, then any bytes but
    line feeds, ending with ".md". *)
Definition dateRegexSubmatch (basename : string) : option string :=
  match basename with
  | String y1 (String y2 (String y3 (String y4 (String s1
      (String m1 (String m2 (String s2
        (String d1 (String d2 (String s3 rest)))))))))) =>
      if isDigit y1 && isDigit y2 && isDigit y3 && isDigit y4 && isDash s1
         && isDigit m1 && isDigit m2 && isDash s2
         && isDigit d1 && isDigit d2 && isDash s3
         && negb (hasByte LF rest) && HasSuffix rest ".md"
      then Some (String y1 (String y2 (String y3 (String y4 (String s1
                  (String m1 (String m2 (String s2
                    (String d1 (String d2 EmptyString))))))))))
      else None
  | _ => None
  end.

(** The local type [fileDate] of [FindMostRecentNote]. *)
Record fileDate : Type := mkFileDate { path : string; date : Time }.

(** [sort.Slice] and [sort.Sort]: Go sorts a slice of up to twelve
    elements by insertion, each element moving left while [less] puts it
    before its left neighbour; [insertBack] does this on the sorted prefix
    held in reverse.  A longer slice is sorted by another method, which
    may order elements that [less] does not tell apart differently; what
    is proved of the sorted slice below (it holds the same elements, and
    [less] puts no element before the first one) holds of every sorted
    arrangement. *)
Fixpoint insertBack {A} (less : A -> A -> bool) (x : A) (r : list A)
  : list A :=
  match r with
  | [] => [x]
  | y :: r' => if less x y then y :: insertBack less x r' else x :: r
  end.

Definition sortSlice {A} (less : A -> A -> bool) (l : list A) : list A :=
  rev (fold_left (fun acc x => insertBack less x acc) l []).

(** The body of the loop of [FindMostRecentNote] over the globbed
    files. *)
Definition candidate (beforeDate : Time) (f : string) : option fileDate :=
  let basename := Base f in
  match dateRegexSubmatch basename with
  | Some m =>
      match ParseISO m with
      | Some d =>
          if Before d beforeDate then Some (mkFileDate f d) else None
      | None => None
      end
  | None => None
  end.

Fixpoint validFilesOf (beforeDate : Time) (files : list string)
  : list fileDate :=
  match files with
  | [] => []
  | f :: files' =>
      match candidate beforeDate f with
      | Some fd => fd :: validFilesOf beforeDate files'
      | None => validFilesOf beforeDate files'
      end
  end.

(** [FindMostRecentNote]; [(None, None)] is the result [nil, nil].  The
    callers pass a midnight of UTC for [beforeDate]. *)
Definition FindMostRecentNote (fs : FileSystem) (p : Parser)
  (beforeDate : Time) : option Note * option error :=
  match glob fs (notesDir p) (notePattern p) with
  | BadPattern => (None, Some ErrBadPattern)
  | Matches files =>
      match files with
      | [] => (None, None)
      | _ =>
          let validFiles := validFilesOf beforeDate files in
          match validFiles with
          | [] => (None, None)
          | _ =>
              match sortSlice (fun a b => After (date a) (date b))
                              validFiles with
              | first :: _ =>
                  ParseFile (path first) (openPath fs (path first))
              | [] => (None, None)
              end
          end
      end
  end.

(* ================================================================= *)
(** ** The summary client (package [summarizer])

    Every HTTP request the client makes is recorded in a log; the
    backend's answers are functions of the log so far.  The waits of the
    client (the sleep, the wait for the idle event or the 60 s deadline)
    do not change what it does next and leave no trace here; the 30 s
    polling deadline is the number of ticks the backend record grants. *)

Module Summarizer.

Inductive request : Type :=
| GetHealth
| PostSession
| GetEvent (sessionID : string)
| PostMessage (sessionID prompt : string)
| GetMessages (sessionID : string).

Record Part : Type := mkPart { partType : string; partText : string }.

Record MessageResponse : Type := mkMessage {
  role : string;
  parts : list Part
}.

Record Backend : Type := mkBackend {
  healthy : list request -> bool;
  newSession : list request -> option string;
  accepts : list request -> bool;
  sessionMessages : list request -> option (list MessageResponse);
  pollTicks : nat
}.

Inductive SummaryError : Type :=
| FailedCreateSession
| FailedSendMessage
| FailedGetMessages
| NoResponseTimeout
| NoResponse
| NotReachable.

(** Computations that make requests. *)
Definition M (A : Type) : Type := list request -> A * list request.

Definition ret {A} (a : A) : M A := fun log => (a, log).

Definition bind {A B} (m : M A) (k : A -> M B) : M B :=
  fun log => let (a, log') := m log in k a log'.

Notation "x <- m ;; k" := (bind m (fun x => k))
  (at level 61, m at next level, right associativity).

(** One request, answered by [answer] from the log that includes it. *)
Definition call {A} (r : request) (answer : list request -> A) : M A :=
  fun log => let log' := (log ++ [r])%list in (answer log', log').

Section Client.

Variable be : Backend.

Definition TestConnection : M bool := call GetHealth (healthy be).

Definition createSession : M (option string) :=
  call PostSession (newSession be).

Definition sendMessageAsync (sessionID prompt : string) : M bool :=
  call (PostMessage sessionID prompt) (accepts be).

Definition getMessages (sessionID : string)
  : M (option (list MessageResponse)) :=
  call (GetMessages sessionID) (sessionMessages be).

(** The listener goroutine opens the event stream; its outcome only
    shortens a wait. *)
Definition startEventListener (sessionID : string) : M unit :=
  call (GetEvent sessionID) (fun _ => tt).

Definition hasText (p : Part) : bool :=
  String.eqb (partType p) "text" && negb (String.eqb (partText p) "").

Definition isAssistant (m : MessageResponse) : bool :=
  String.eqb (role m) "assistant".

(** The check inside the polling loop: some assistant message has a
    text part that is not empty. *)
Definition hasAssistantText (ms : list MessageResponse) : bool :=
  existsb (fun m => isAssistant m && existsb hasText (parts m)) ms.

(** [waitForIdleWithPolling]: [true] when a response was seen, [false]
    when the deadline passed. *)
Fixpoint waitForIdleWithPolling (ticks : nat) (sessionID : string) : M bool :=
  match ticks with
  | O => ret false
  | S k =>
      ms <- getMessages sessionID ;;
      match ms with
      | None => waitForIdleWithPolling k sessionID
      | Some l =>
          if hasAssistantText l then ret true
          else waitForIdleWithPolling k sessionID
      end
  end.

(** [extractAssistantResponse] *)
Definition extractAssistantResponse (ms : list MessageResponse) : string :=
  TrimSpace
    (String.concat ""
       (flat_map
          (fun m =>
             if isAssistant m
             then map partText (filter hasText (parts m))
             else [])
          ms)).

Definition emptySummary : string := "No work items to summarize.".

Definition promptPreamble : string :=
  "Summarize the following completed work items in 1-2 concise sentences. Focus on the key accomplishments and outcomes. Keep it brief and professional. Do not use any tools, just respond with plain text:"
  ++ nl ++ nl.

Definition buildPrompt (items : list WorkItem) : string :=
  promptPreamble
  ++ String.concat "" (map (fun it => "- " ++ Text it ++ nl) items).

(** [SummarizeWorkItems] *)
Definition SummarizeWorkItems (items : list WorkItem)
  : M (string + SummaryError) :=
  match items with
  | [] => ret (inl emptySummary)
  | _ =>
      let prompt := buildPrompt items in
      session <- createSession ;;
      match session with
      | None => ret (inr FailedCreateSession)
      | Some sid =>
          _ <- startEventListener sid ;;
          sent <- sendMessageAsync sid prompt ;;
          if negb sent then ret (inr FailedSendMessage)
          else
            ms <- getMessages sid ;;
            match ms with
            | None => ret (inr FailedGetMessages)
            | Some l =>
                let response := extractAssistantResponse l in
                if String.eqb response "" then
                  seen <- waitForIdleWithPolling (pollTicks be) sid ;;
                  if negb seen then ret (inr NoResponseTimeout)
                  else
                    ms' <- getMessages sid ;;
                    match ms' with
                    | None => ret (inr FailedGetMessages)
                    | Some l' =>
                        let response' := extractAssistantResponse l' in
                        if String.eqb response' ""
                        then ret (inr NoResponse)
                        else ret (inl response')
                    end
                else ret (inl response)
            end
      end
  end.

End Client.

End Summarizer.
Import Summarizer.

(* ================================================================= *)
(** ** The start-of-day workflow (command [start]) *)

(** [Prompter.SelectPendingItems]: the items are asked about one by one;
    [verdicts] holds the answers in that order.  The indices answered yes
    are returned in increasing order. *)
Fixpoint selectFrom (i : Z) (items : list WorkItem) (verdicts : list bool)
  : list Z :=
  match items with
  | [] => []
  | _ :: items' =>
      let rest := selectFrom (i + 1) items' (tl verdicts) in
      if hd false verdicts then i :: rest else rest
  end.

Definition SelectPendingItems (items : list WorkItem) (verdicts : list bool)
  : list Z := selectFrom 0 items verdicts.

(** [sort.Sort(sort.Reverse(sort.IntSlice(x)))]: decreasing order. *)
Definition sortDescending (l : list Z) : list Z :=
  sortSlice (fun a b => (b <? a)%Z) l.

(** The map [completedSet] of [runStart], as its membership test. *)
Definition completedSet (indices : list Z) (i : Z) : bool :=
  existsb (Z.eqb i) indices.

(** The first loop: each chosen item is appended to the completed work of
    the previous note. *)
Definition appendCompleted (pending : list WorkItem) (acc : list WorkItem)
  (idx : Z) : list WorkItem :=
  match nth_error pending (Z.to_nat idx) with
  | Some item => (acc ++ [mkWorkItem (Text item) true])%list
  | None => acc
  end.

(** The second loop: the items not chosen are added to today's note. *)
Fixpoint carryForward (chosen : Z -> bool) (i : Z) (pending : list WorkItem)
  (today : Note) : Note :=
  match pending with
  | [] => today
  | item :: rest =>
      carryForward chosen (i + 1) rest
        (if chosen i then today else AddPendingItem today (Text item))
  end.

(** The block of [runStart] that reviews the pending items of the
    previous note. *)
Definition reviewPending (previousNote todayNote : Note)
  (verdicts : list bool) : Note * Note :=
  if HasPendingWork previousNote then
    let pending := PendingWork previousNote in
    let completedIndices :=
      sortDescending (SelectPendingItems pending verdicts) in
    let completed :=
      fold_left (appendCompleted pending) completedIndices
                (CompletedWork previousNote) in
    let today := carryForward (completedSet completedIndices) 0 pending
                              todayNote in
    (setPendingWork (setCompletedWork previousNote completed) [], today)
  else (previousNote, todayNote).

(** The block of [runStart] that asks for the summary. *)
Definition summarizePrevious (be : Backend) (previousNote todayNote : Note)
  : M (Note * Note) :=
  if HasCompletedWork previousNote then
    ok <- TestConnection be ;;
    if negb ok then ret (previousNote, todayNote)
    else
      r <- SummarizeWorkItems be (CompletedWork previousNote) ;;
      match r with
      | inr _ => ret (previousNote, todayNote)
      | inl summary =>
          ret (setSummary previousNote summary,
               setYesterdaySummary todayNote summary)
      end
  else ret (previousNote, todayNote).

(** The part of [runStart] between finding the two notes and writing
    them back. *)
Definition Reconcile (be : Backend) (previousNote : option Note)
  (todayNote : Note) (verdicts : list bool) : M (option Note * Note) :=
  match previousNote with
  | None => ret (None, todayNote)
  | Some prev =>
      let (prev1, today1) := reviewPending prev todayNote verdicts in
      r <- summarizePrevious be prev1 today1 ;;
      ret (Some (fst r), snd r)
  end.

(* ================================================================= *)
(** ** The writer

    The writer ([Writer.WriteNote], the Encode operation of section 4.1
    of the specification) is not among the sources.  The specification
    and the note format shown in the README give its output, here as the
    list of the lines written. *)

(** Modelled from the spec: an entry of a bulleted list of the
    frontmatter, which the source omits with the writer. *)
Definition bullet (s : string) : string := "  - " ++ s.

(** Modelled from the spec: the aliases, which the writer (not among the
    sources) prints as "a bracketed empty-list literal when empty or a
    YAML-style bulleted list". *)
Definition aliasLines (aliases : list string) : list string :=
  match aliases with
  | [] => ["aliases: []"]
  | _ => "aliases:" :: map bullet aliases
  end.

(** Modelled from the spec: a summary line of the writer (not among the
    sources), written "only if non-empty", and the empty line after it. *)
Definition summaryLines (label text : string) : list string :=
  if String.eqb text "" then [] else [label ++ " " ++ text; ""].

(** Modelled from the spec: the line the writer (not among the sources)
    prints for a pending item, "- [ ] text". *)
Definition pendingLine (it : WorkItem) : string := "- [ ] " ++ Text it.

(** Modelled from the spec: the line the writer (not among the sources)
    prints for a completed item, "- [x] text". *)
Definition completedLine (it : WorkItem) : string := "- [x] " ++ Text it.

(** Modelled from the spec: the id line of the frontmatter the writer
    (not among the sources) prints. *)
Definition idLine (n : Note) : string := "id: " ++ ID n.

(** Modelled from the spec: the date line of the frontmatter the writer
    (not among the sources) prints, "date in YYYY-MM-DD". *)
Definition dateLine (n : Note) : string := "date: " ++ FormatISO (Date n).

(** Modelled from the spec: the title heading the writer (not among the
    sources) prints, "# <title>". *)
Definition titleLine (n : Note) : string := "# " ++ Title n.

(** Modelled from the spec: the lines of [Writer.WriteNote], which is not
    among the sources: a frontmatter block with the id, the aliases, the
    tags as a bulleted list and the date; the title heading; the two
    summary lines, each only when its text is not empty; the section
    "## Pending Work" with one checkbox line per pending item and the
    section "## Work Completed" with one checkbox line per completed
    item.  Empty lines separate the parts as in the README's example. *)
Definition EncodeLines (n : Note) : list string :=
  (["---"; idLine n]
   ++ aliasLines (Aliases n)
   ++ ["tags:"] ++ map bullet (Tags n)
   ++ [dateLine n; "---"; ""; titleLine n; ""]
   ++ summaryLines "summary::" (Summary n)
   ++ summaryLines "yesterday's summary::" (YesterdaySummary n)
   ++ ["## Pending Work"; ""] ++ map pendingLine (PendingWork n)
   ++ [""; "## Work Completed"; ""] ++ map completedLine (CompletedWork n))%list.

(** Modelled from the spec: Encode, the file content [Writer.WriteNote]
    (not among the sources) writes for a note. *)
Definition Encode (n : Note) : string := joinLines (EncodeLines n).

(** Decode: [ParseFile] on a file that holds [data]. *)
Definition Decode (filePath data : string) : option Note * option error :=
  ParseFile filePath (Readable data).

(** Notes made by the program's own operations on a fresh note: the
    methods of [Note] that add, remove and mark items, and the assignments
    of the file path and of the two summaries by the commands. *)
Inductive built : Note -> Prop :=
| built_new d w : built (NewNote d w)
| built_path n p : built n -> built (setFilePath n p)
| built_addPending n t : built n -> built (AddPendingItem n t)
| built_addCompleted n t : built n -> built (AddCompletedItem n t)
| built_mark n i : built n -> built (MarkItemCompleted n i)
| built_removePending n i : built n -> built (RemovePendingItem n i)
| built_removeCompleted n i : built n -> built (RemoveCompletedItem n i)
| built_summary n s : built n -> built (setSummary n s)
| built_yesterday n s : built n -> built (setYesterdaySummary n s).

(* ================================================================= *)
(** ** Notions and examples used in the statements *)

Definition sampleNote : Note :=
  mkNote "Acme-19-Jan-2025" [] ["acme"; "job"] (mkTime 2025 1 19)
         "2025-01-19" "s" "t"
         [mkWorkItem "A" false; mkWorkItem "B" false; mkWorkItem "C" false]
         [mkWorkItem "D" true] "notes/2025-01-19-Acme.md".

(** An ASCII byte that is not white space. *)
Definition plain (a : ascii) : bool :=
  negb (isSpace1 a) && (code a <? 128)%N.

(** The frontmatter of a file that lists aliases and tags as bullets. *)
Definition aliasesAndTags : string :=
  joinLines ["---"; "id: Acme-19-Jan-2025"; "aliases:"; "  - standup";
             "tags:"; "  - acme"; "  - job"; "date: 2025-01-19"; "---"].

(** The state in which the pending section is being read. *)
Definition readingPending (st : ParseState) : Prop :=
  inFrontmatter st = false /\ inPendingSection st = true
  /\ inCompletedSection st = false.

Fixpoint repeatByte (a : ascii) (k : nat) : string :=
  match k with
  | O => EmptyString
  | S k' => String a (repeatByte a k')
  end.

(** A file of one line, as long as the scanner's buffer. *)
Definition oneLongLine : string := repeatByte "a" MaxScanTokenSize ++ nl.

(** A note file with a date that is no calendar date, a frontmatter key
    and a section the parser does not know, and a malformed checkbox. *)
Definition malformedNote : string :=
  joinLines ["---"; "id: Acme-30-Feb-2025"; "mood: fine";
             "date: 2025-02-30"; "---"; "# 2025-02-30"; "## Ideas";
             "- [z] nonsense"; "## Pending Work"; "[ ] no dash"].

(** A computation only adds requests to the log. *)
Definition appends {A} (m : M A) : Prop :=
  forall log, exists rest, snd (m log) = (log ++ rest)%list.

(** The sorted prefix, held in reverse: no element is before one that
    follows it in the list. *)
Definition backSorted {A} (less : A -> A -> bool) (r : list A) : Prop :=
  StronglySorted (fun y z => less y z = false) r.

(** The items answered yes, as completed items, and the items answered no,
    as pending items, both in the order of the pending list. *)
Fixpoint markedItems (items : list WorkItem) (verdicts : list bool)
  : list WorkItem :=
  match items with
  | [] => []
  | it :: items' =>
      let rest := markedItems items' (tl verdicts) in
      if hd false verdicts then mkWorkItem (Text it) true :: rest else rest
  end.

Fixpoint carriedItems (items : list WorkItem) (verdicts : list bool)
  : list WorkItem :=
  match items with
  | [] => []
  | it :: items' =>
      let rest := carriedItems items' (tl verdicts) in
      if hd false verdicts then rest else mkWorkItem (Text it) false :: rest
  end.

(** What the first loop appends for one index. *)
Definition completedAt (pending : list WorkItem) (idx : Z) : list WorkItem :=
  match nth_error pending (Z.to_nat idx) with
  | Some item => [mkWorkItem (Text item) true]
  | None => []
  end.

Definition todayNote : Note := NewNote (mkTime 2025 1 20) "Acme".

(** A backend that cannot be reached. *)
Definition offline : Backend :=
  mkBackend (fun _ => false) (fun _ => None) (fun _ => false)
            (fun _ => None) 0.

(** The files [FindMostRecentNote] chooses among: the paths that
    [filepath.Glob] returns for the workplace's pattern in the notes
    directory, whose base name carries a date that parses, and whose date
    is before the query date. *)
Definition considered (fs : FileSystem) (p : Parser) (beforeDate : Time)
  (f : string) (d : Time) : Prop :=
  (exists files, glob fs (notesDir p) (notePattern p) = Matches files
                 /\ In f files)
  /\ exists m, dateRegexSubmatch (Base f) = Some m
               /\ ParseISO m = Some d
               /\ Before d beforeDate = true.

(** A file system in which [filepath.Glob] returns [files] for
    [pattern] in the directory [dir], and nothing otherwise. *)
Definition globOf (dir pattern : string) (files : list string)
  (d pat : string) : GlobResult :=
  if String.eqb d dir && String.eqb pat pattern
  then Matches files else Matches [].

(** The notes directory of workplace Acme with notes of January 15, 17
    and 18, 2025, next to a note of another workplace, which the pattern
    of Acme does not match, and a file whose name carries no date. *)
Definition acme : Parser := mkParser "notes" "Acme".

(** The note of day [dd] of January 2025 and the content of its file. *)
Definition noteOf (dd : string) (d : Z) : Note :=
  mkNote ("Acme-" ++ dd ++ "-Jan-2025") [] ["acme"; "job"] (mkTime 2025 1 d)
         ("2025-01-" ++ dd) "" "" [mkWorkItem "write report" false] []
         ("notes/2025-01-" ++ dd ++ "-Acme.md").

Definition fileOf (dd : string) : string :=
  joinLines ["---"; "id: Acme-" ++ dd ++ "-Jan-2025"; "aliases: []"; "tags:";
             "  - acme"; "  - job"; "date: 2025-01-" ++ dd; "---"; "";
             "# 2025-01-" ++ dd; ""; "## Pending Work"; "";
             "- [ ] write report"; ""; "## Work Completed"; ""].

Definition jan (d : Z) : Time := mkTime 2025 1 d.

Definition acmeFiles : FileSystem :=
  mkFS (globOf "notes" "*-Acme.md"
          ["notes/0000-00-00-Acme.md"; "notes/2025-01-15-Acme.md";
           "notes/2025-01-17-Acme.md"; "notes/2025-01-18-Acme.md"])
       (fun pa =>
          if String.eqb pa "notes/2025-01-15-Acme.md"
          then Readable (fileOf "15")
          else if String.eqb pa "notes/2025-01-17-Acme.md"
          then Readable (fileOf "17")
          else if String.eqb pa "notes/2025-01-18-Acme.md"
          then Readable (fileOf "18")
          else if String.eqb pa "notes/2025-01-18-Other.md"
          then Readable "# notes of another workplace"
          else if String.eqb pa "notes/0000-00-00-Acme.md"
          then Readable ""
          else OpenFails).

Definition isAscii (a : ascii) : bool := (code a <? 128)%N.

Fixpoint allAscii (s : string) : bool :=
  match s with
  | EmptyString => true
  | String a r => isAscii a && allAscii r
  end.

Fixpoint allPlain (s : string) : bool :=
  match s with
  | EmptyString => true
  | String a r => plain a && allPlain r
  end.

(** A line that the scanner gives back as it was written: it holds no
    line feed, does not end with a carriage return, and is shorter than
    the scanner's buffer. *)
Definition lineOK (l : string) : bool :=
  negb (hasByte LF l) && String.eqb (dropCR l) l
  && (String.length l <? MaxScanTokenSize)%nat.

(** The text of an item that is read back as written: not empty, and
    without white space at its end. *)
Definition itemText (t : string) : Prop :=
  t <> EmptyString /\ trimRight t = t.

Definition unchecked (it : WorkItem) : WorkItem := mkWorkItem (Text it) false.
Definition checked (it : WorkItem) : WorkItem := mkWorkItem (Text it) true.

Definition wellMarked (n : Note) : Prop :=
  Aliases n = []
  /\ Forall (fun it => Completed it = false) (PendingWork n)
  /\ Forall (fun it => Completed it = true) (CompletedWork n).

(** A note made by the operations: created for January 19, 2025, with
    two tasks added, the first one marked as done, one completed item
    added, and both summaries set. *)
Definition workedNote : Note :=
  setYesterdaySummary
    (setSummary
       (AddCompletedItem
          (MarkItemCompleted
             (AddPendingItem
                (AddPendingItem (NewNote (mkTime 2025 1 19) "Acme")
                                "fix login bug")
                "  update docs")
             0)
          "deploy to staging")
       "Fixed the login bug and deployed.")
    "Reviewed pull requests.".

(** A task typed with a space at its end, as the command [add] takes it
    from its arguments. *)
Definition trailingSpaceNote : Note :=
  setYesterdaySummary
    (setSummary
       (AddCompletedItem
          (AddPendingItem (NewNote (mkTime 2025 1 19) "Acme") "call Bob ")
          "deploy to staging")
       "Deployed.")
    "Reviewed pull requests.".

(* ================================================================= *)
(** ** More of the program: notions used in further statements *)

(** An upper-case ASCII letter, 'A' to 'Z'. *)
Definition isUpper (a : ascii) : bool :=
  ((65 <=? code a) && (code a <=? 90))%N.

(** The items answered no, as they stand in the list. *)
Fixpoint keptItems (items : list WorkItem) (verdicts : list bool)
  : list WorkItem :=
  match items with
  | [] => []
  | it :: items' =>
      let rest := keptItems items' (tl verdicts) in
      if hd false verdicts then rest else it :: rest
  end.

(** The content of a file written line by line with carriage return and
    line feed at the end of each line. *)
Fixpoint joinCRLF (ls : list string) : string :=
  match ls with
  | [] => EmptyString
  | l :: ls' => l ++ String CR nl ++ joinCRLF ls'
  end.

(** A backend that accepts everything and answers the third request for
    the messages of a session with an assistant message. *)
Definition slowBackend : Backend :=
  mkBackend (fun _ => true) (fun _ => Some "ses1") (fun _ => true)
            (fun log =>
               if (List.length log <? 6)%nat then Some []
               else Some [mkMessage "user" [mkPart "text" "Summarize"];
                          mkMessage "assistant"
                            [mkPart "reasoning" "thinking";
                             mkPart "text" " Fixed the login bug. "]])
            10.

(** Two notes with the same identity: everything but the work items and
    the two summaries. *)
Definition sameHeader (a b : Note) : Prop :=
  ID a = ID b /\ Aliases a = Aliases b /\ Tags a = Tags b
  /\ Date a = Date b /\ Title a = Title b /\ FilePath a = FilePath b.

(** A backend whose health check fails. *)
Definition unhealthy : Backend :=
  mkBackend (fun _ => false) (fun _ => Some "ses1") (fun _ => true)
            (fun _ => Some []) 10.

(* ================================================================= *)
(** ** The commands [done], [review] and [delete]

    Each command is taken from the note it has read to its call of the
    writer. *)

(** How a command ends. *)
Inductive Outcome : Type :=
| NotWritten           (* it returns without calling [WriteNote] *)
| Written (n : Note)   (* it calls [WriteNote] with this note *)
| Panicked.            (* an index was out of range *)

(** [runDone], from today's note on.  The loop marks the indices from
    the last one to the first. *)
Definition runDone (todayNote : option Note) (verdicts : list bool)
  : Outcome :=
  match todayNote with
  | None => NotWritten
  | Some n =>
      if negb (HasPendingWork n) then NotWritten
      else
        let completedIndices :=
          SelectPendingItems (PendingWork n) verdicts in
        if (List.length completedIndices =? 0)%nat then NotWritten
        else Written (fold_left MarkItemCompleted (rev completedIndices) n)
  end.

(** The body of the loop of [runReview]: it reads the item at [idx],
    appends it to the completed work and cuts it out of the pending
    work, without a test of the index; [None] is the panic. *)
Definition reviewItem (n : option Note) (idx : Z) : option Note :=
  match n with
  | None => None
  | Some n =>
      if inBounds idx (PendingWork n) then
        match nth_error (PendingWork n) (Z.to_nat idx) with
        | Some item =>
            let n1 := setCompletedWork n
                        (CompletedWork n ++ [mkWorkItem (Text item) true]) in
            Some (setPendingWork n1 (removeAt idx (PendingWork n1)))
        | None => None
        end
      else None
  end.

(** [runReview], from the previous note on. *)
Definition runReview (previousNote : option Note) (verdicts : list bool)
  : Outcome :=
  match previousNote with
  | None => NotWritten
  | Some n =>
      if negb (HasPendingWork n) then NotWritten
      else
        let completedIndices :=
          SelectPendingItems (PendingWork n) verdicts in
        if (List.length completedIndices =? 0)%nat then NotWritten
        else
          match fold_left reviewItem (sortDescending completedIndices)
                          (Some n) with
          | Some n' => Written n'
          | None => Panicked
          end
  end.

(** [Prompter.SelectTasksToDelete]: the tasks are asked about one by
    one, [verdicts] holds the answers; the indices answered yes, in
    increasing order. *)
Definition SelectTasksToDelete (items : list WorkItem)
  (verdicts : list bool) : list Z := selectFrom 0 items verdicts.

(** [deleteSpecificTasks]: [pendingVerdicts] answers the questions about
    the pending tasks and [completedVerdicts] those about the completed
    ones. *)
Definition deleteSpecificTasks (todayNote : Note)
  (pendingVerdicts completedVerdicts : list bool) : Outcome :=
  if negb (HasPendingWork todayNote) && negb (HasCompletedWork todayNote)
  then NotWritten
  else
    let (n1, pendingDeleted) :=
      if HasPendingWork todayNote then
        let pendingIndices :=
          sortDescending
            (SelectTasksToDelete (PendingWork todayNote) pendingVerdicts) in
        (fold_left RemovePendingItem pendingIndices todayNote,
         List.length pendingIndices)
      else (todayNote, 0%nat) in
    let (n2, completedDeleted) :=
      if HasCompletedWork n1 then
        let completedIndices :=
          sortDescending
            (SelectTasksToDelete (CompletedWork n1) completedVerdicts) in
        (fold_left RemoveCompletedItem completedIndices n1,
         List.length completedIndices)
      else (n1, 0%nat) in
    let totalDeleted := (pendingDeleted + completedDeleted)%nat in
    if (totalDeleted =? 0)%nat then NotWritten else Written n2.

(** The outcome of [runDone] and [runReview] in closed form: the items
    answered yes leave the pending work and join the completed work, the
    last of them first. *)
Definition selectedMoved (n : Note) (verdicts : list bool) : Outcome :=
  match markedItems (PendingWork n) verdicts with
  | [] => NotWritten
  | _ :: _ =>
      Written
        (setPendingWork
           (setCompletedWork n
              (CompletedWork n
               ++ rev (markedItems (PendingWork n) verdicts)))
           (keptItems (PendingWork n) verdicts))
  end.

(** The outcome of [deleteSpecificTasks] in closed form: the tasks
    answered no stay. *)
Definition unselectedKept (n : Note) (pendingVerdicts completedVerdicts
  : list bool) : Outcome :=
  match (markedItems (PendingWork n) pendingVerdicts
         ++ markedItems (CompletedWork n) completedVerdicts)%list with
  | [] => NotWritten
  | _ :: _ =>
      Written
        (setCompletedWork
           (setPendingWork n (keptItems (PendingWork n) pendingVerdicts))
           (keptItems (CompletedWork n) completedVerdicts))
  end.

(* ================================================================= *)
(** ** The configuration (package [config]) *)

(** The environment of the process: the variables that are set, the one
    set last first. *)
Definition Env : Type := list (string * string).

(** [os.LookupEnv] *)
Fixpoint LookupEnv (env : Env) (key : string) : option string :=
  match env with
  | [] => None
  | (k, v) :: env' =>
      if String.eqb k key then Some v else LookupEnv env' key
  end.

Definition NUL : ascii := ascii_of_N 0.

(** [os.Setenv], whose error the program drops: an empty key, a key with
    an equals sign or a zero byte, and a value with a zero byte are
    refused and set nothing. *)
Definition Setenv (env : Env) (key value : string) : Env :=
  if String.eqb key "" || hasByte "=" key || hasByte NUL key
     || hasByte NUL value
  then env
  else (key, value) :: env.

(** [getEnv] *)
Definition getEnv (env : Env) (key defaultValue : string) : string :=
  match LookupEnv env key with
  | Some value => value
  | None => defaultValue
  end.

(** [strings.SplitN(s, sep, 2)] for a separator of one byte: [None]
    stands for the slice of length one, [Some (a, b)] for the two parts
    around the first separator. *)
Fixpoint SplitN2 (s : string) (sep : ascii) : option (string * string) :=
  match s with
  | EmptyString => None
  | String c s' =>
      if Ascii.eqb c sep then Some (EmptyString, s')
      else
        match SplitN2 s' sep with
        | Some (a, b) => Some (String c a, b)
        | None => None
        end
  end.

(** One turn of the loop of [loadConfigFile]. *)
Definition configLine (env : Env) (text : string) : Env :=
  let line := TrimSpace text in
  if String.eqb line "" || HasPrefix line "#" then env
  else
    match SplitN2 line "=" with
    | None => env
    | Some (k, v) =>
        let key := TrimSpace k in
        let value := TrimSpace v in
        match LookupEnv env key with
        | Some _ => env
        | None => Setenv env key value
        end
    end.

(** [loadConfigFile]: nothing happens when the file cannot be opened;
    what ends the scan is not looked at. *)
Definition loadConfigFile (f : File) (env : Env) : Env :=
  match f with
  | OpenFails => env
  | Readable data | ReadFails data =>
      fold_left configLine (fst (scanTokens (rawLines data))) env
  end.

(** [strings.Split(s, sep)] for a separator of one byte. *)
Fixpoint Split (s : string) (sep : ascii) : list string :=
  match s with
  | EmptyString => [EmptyString]
  | String c s' =>
      if Ascii.eqb c sep then EmptyString :: Split s' sep
      else
        match Split s' sep with
        | p :: ps => String c p :: ps
        | [] => [String c EmptyString]
        end
  end.

(** The loop of [Load] over the parts of WORKPLACES. *)
Fixpoint trimmedEntries (parts : list string) : list string :=
  match parts with
  | [] => []
  | wp :: rest =>
      let wp' := TrimSpace wp in
      if String.eqb wp' "" then trimmedEntries rest
      else wp' :: trimmedEntries rest
  end.

(** The field [Workplaces] of the configuration [Load] builds, from the
    environment after [loadConfigFile]. *)
Definition workplacesOf (env : Env) : list string :=
  let workplaceName := getEnv env "WORKPLACE_NAME" "Work" in
  let workplacesStr := getEnv env "WORKPLACES" "" in
  let workplaces :=
    if String.eqb workplacesStr "" then []
    else trimmedEntries (Split workplacesStr ",") in
  if (List.length workplaces =? 0)%nat then [workplaceName] else workplaces.

Definition LoadWorkplaces (f : File) (env : Env) : list string :=
  workplacesOf (loadConfigFile f env).

(** [strings.Join(c.Workplaces, ",")], the value [saveWorkplaces] writes
    for WORKPLACES. *)
Definition joinWorkplaces (workplaces : list string) : string :=
  String.concat "," workplaces.

Inductive ConfigError : Type :=
| AlreadyExists
| NotFound
| SaveFailed.

Section Workplaces.

(** [strings.EqualFold], and what [saveWorkplaces] returns for a list. *)
Variable EqualFold : string -> string -> bool.
Variable saveWorkplaces : list string -> option ConfigError.

(** [AddWorkplace]: the list of the configuration afterwards and the
    error returned. *)
Definition AddWorkplace (workplaces : list string) (name : string)
  : list string * option ConfigError :=
  if existsb (fun wp => EqualFold wp name) workplaces
  then (workplaces, Some AlreadyExists)
  else
    let workplaces' := (workplaces ++ [name])%list in
    (workplaces', saveWorkplaces workplaces').

(** The second loop of [RenameWorkplace]: the first entry equal to
    [oldName] is overwritten; [None] when there is none. *)
Fixpoint renameFirst (workplaces : list string) (oldName newName : string)
  : option (list string) :=
  match workplaces with
  | [] => None
  | wp :: rest =>
      if String.eqb wp oldName then Some (newName :: rest)
      else
        match renameFirst rest oldName newName with
        | Some rest' => Some (wp :: rest')
        | None => None
        end
  end.

(** [RenameWorkplace] *)
Definition RenameWorkplace (workplaces : list string)
  (oldName newName : string) : list string * option ConfigError :=
  if existsb (fun wp => EqualFold wp newName) workplaces
  then (workplaces, Some AlreadyExists)
  else
    match renameFirst workplaces oldName newName with
    | None => (workplaces, Some NotFound)
    | Some workplaces' => (workplaces', saveWorkplaces workplaces')
    end.

End Workplaces.

(** No entry of the list is equal under case folding to a later one. *)
Definition foldDistinct (EqualFold : string -> string -> bool)
  (workplaces : list string) : Prop :=
  ForallOrdPairs (fun a b => EqualFold a b = false) workplaces.

(** Equality of ASCII strings up to the case of the letters. *)
Definition asciiFold (a b : string) : bool :=
  String.eqb (ToLowerCase a) (ToLowerCase b).

(** A name a workplace can be listed under in WORKPLACES: not empty, no
    white space at its ends, no comma. *)
Definition listable (w : string) : Prop :=
  w <> EmptyString /\ TrimSpace w = w /\ hasByte "," w = false.

(** A configuration file. *)
Definition sampleConfig : string :=
  joinLines ["# worklog"; "WORKPLACE_NAME = Acme"; "";
             "WORKPLACES=Acme, Side Job ,,Home"; "no equals sign";
             "WORKPLACE_NAME=Other"; "=nothing"].

(* ================================================================= *)
(** ** The command [add-many] *)

(** The loop of [runAddMany]: [inputs] holds what is typed at the
    prompts before the interrupt; [PromptForTaskInLoop] returns each
    without the white space at its ends. *)
Fixpoint addTasks (todayNote : Note) (addedTasks inputs : list string)
  : Note * list string :=
  match inputs with
  | [] => (todayNote, addedTasks)
  | result :: inputs' =>
      let task := TrimSpace result in
      if String.eqb task "" then addTasks todayNote addedTasks inputs'
      else
        addTasks (AddPendingItem todayNote task)
                 (addedTasks ++ [task])%list inputs'
  end.

(** [runAddMany], from today's note on. *)
Definition runAddMany (todayNote : Note) (inputs : list string) : Outcome :=
  let (n, addedTasks) := addTasks todayNote [] inputs in
  if (0 <? List.length addedTasks)%nat then Written n else NotWritten.

(* ================================================================= *)
(** ** The day of a command

    Every command takes [time.Now().Truncate(24 * time.Hour)] for today.
    [Truncate] rounds the instant, not its presentation, so today is a
    midnight of UTC, in the local zone.  [FindMostRecentNote] compares
    with that instant; [GenerateFilename], [NewNote] and the other
    formatting functions show it in the local zone: as the same date when
    the zone is UTC or east of it, as the date of the day before when the
    zone is west of UTC. *)

(** The calendar day before [t]. *)
Definition dayBefore (t : Time) : Time :=
  if (1 <? day t)%Z then mkTime (year t) (month t) (day t - 1)
  else if (1 <? month t)%Z
  then mkTime (year t) (month t - 1) (daysIn (month t - 1) (year t))
  else mkTime (year t - 1) 12 31.

(** The date that the local zone shows for the midnight of UTC that
    begins [today]; [west] says that the zone is west of UTC. *)
Definition shownDate (west : bool) (today : Time) : Time :=
  if west then dayBefore today else today.

(** The name of the file of a command's day, as [FindTodayNote] and the
    writer build it. *)
Definition todaysFile (west : bool) (p : Parser) (today : Time) : string :=
  GenerateFilename (shownDate west today) (workplaceName p).

(* ================================================================= *)
(** * Properties *)

(** ** Prefixes *)

#[local] Arguments Ascii.eqb : simpl never.

Lemma cutPrefix_app (p r : string) : cutPrefix p (p ++ r) = Some r.
Proof.
  induction p as [|a p IH]; simpl; [reflexivity|].
  now rewrite Ascii.eqb_refl.
Qed.

Lemma cutPrefix_Some (p s r : string) :
  cutPrefix p s = Some r -> s = p ++ r.
Proof.
  revert s; induction p as [|a p IH]; simpl; intros s H.
  - now injection H as ->.
  - destruct s as [|b s]; [discriminate|].
    destruct (Ascii.eqb a b) eqn:E; [|discriminate].
    apply Ascii.eqb_eq in E; subst b.
    now rewrite (IH _ H).
Qed.

Lemma HasPrefix_app (p r : string) : HasPrefix (p ++ r) p = true.
Proof. unfold HasPrefix; now rewrite cutPrefix_app. Qed.

Lemma TrimPrefix_app (p r : string) : TrimPrefix (p ++ r) p = r.
Proof. unfold TrimPrefix; now rewrite cutPrefix_app. Qed.

Lemma HasPrefix_true (s p : string) :
  HasPrefix s p = true -> s = p ++ TrimPrefix s p.
Proof.
  unfold HasPrefix, TrimPrefix.
  destruct (cutPrefix p s) eqn:E; [|discriminate].
  intros _; now apply cutPrefix_Some.
Qed.

Lemma TrimPrefix_no_prefix (s p : string) :
  HasPrefix s p = false -> TrimPrefix s p = s.
Proof.
  unfold HasPrefix, TrimPrefix. now destruct (cutPrefix p s).
Qed.

(** ** Marking an item as completed *)

Lemma inBounds_true {A} (i : Z) (l : list A) :
  inBounds i l = true <-> (0 <= i < Z.of_nat (List.length l))%Z.
Proof. unfold inBounds. rewrite andb_true_iff, Z.leb_le, Z.ltb_lt. tauto. Qed.

Lemma inBounds_false {A} (i : Z) (l : list A) :
  inBounds i l = false <-> (i < 0 \/ Z.of_nat (List.length l) <= i)%Z.
Proof.
  unfold inBounds. rewrite andb_false_iff, Z.leb_gt, Z.ltb_ge. tauto.
Qed.

Lemma removeAt_middle {A} (l1 l2 : list A) (x : A) :
  removeAt (Z.of_nat (List.length l1)) (l1 ++ x :: l2) = (l1 ++ l2)%list.
Proof.
  unfold removeAt.
  replace (Z.to_nat (Z.of_nat (List.length l1) + 1)) with (S (List.length l1)) by lia.
  rewrite Nat2Z.id.
  induction l1 as [|y l1 IH]; simpl; [reflexivity|].
  f_equal. exact IH.
Qed.

Lemma split_at_index {A} (l : list A) (i : Z) :
  (0 <= i < Z.of_nat (List.length l))%Z ->
  exists l1 x l2,
    l = (l1 ++ x :: l2)%list /\ Z.of_nat (List.length l1) = i
    /\ nth_error l (Z.to_nat i) = Some x.
Proof.
  intros Hi.
  destruct (nth_error l (Z.to_nat i)) as [x|] eqn:E.
  - destruct (nth_error_split l (Z.to_nat i) E) as (l1 & l2 & -> & Hl).
    exists l1, x, l2. repeat split; trivial. lia.
  - apply nth_error_None in E. lia.
Qed.

(** C5. [MarkItemCompleted] with an index out of the bounds of the pending
    work (negative, or at least its length) returns the note as it was:
    every field is unchanged and nothing is reported. *)
Theorem MarkItemCompleted_out_of_bounds (n : Note) (i : Z) :
  (i < 0 \/ Z.of_nat (List.length (PendingWork n)) <= i)%Z ->
  MarkItemCompleted n i = n.
Proof.
  intros H. unfold MarkItemCompleted.
  now rewrite (proj2 (inBounds_false i (PendingWork n)) H).
Qed.

(** C6. [MarkItemCompleted] with an index in bounds moves exactly one
    item: the pending work loses the item at that position and keeps the
    others in order, the completed work gains that item at its end with
    [Completed = true] and the same text, and id, aliases, tags, date,
    title, both summaries and the file path are unchanged. *)
Theorem MarkItemCompleted_moves_one (n : Note) (i : Z) :
  (0 <= i < Z.of_nat (List.length (PendingWork n)))%Z ->
  exists l1 item l2,
    PendingWork n = (l1 ++ item :: l2)%list
    /\ Z.of_nat (List.length l1) = i
    /\ PendingWork (MarkItemCompleted n i) = (l1 ++ l2)%list
    /\ CompletedWork (MarkItemCompleted n i)
       = (CompletedWork n ++ [mkWorkItem (Text item) true])%list
    /\ ID (MarkItemCompleted n i) = ID n
    /\ Aliases (MarkItemCompleted n i) = Aliases n
    /\ Tags (MarkItemCompleted n i) = Tags n
    /\ Date (MarkItemCompleted n i) = Date n
    /\ Title (MarkItemCompleted n i) = Title n
    /\ Summary (MarkItemCompleted n i) = Summary n
    /\ YesterdaySummary (MarkItemCompleted n i) = YesterdaySummary n
    /\ FilePath (MarkItemCompleted n i) = FilePath n.
Proof.
  intros Hi.
  destruct (split_at_index (PendingWork n) i Hi) as (l1 & x & l2 & Hl & Hlen & Hnth).
  exists l1, x, l2.
  unfold MarkItemCompleted.
  rewrite (proj2 (inBounds_true i (PendingWork n)) Hi), Hnth.
  simpl. rewrite Hl, <- Hlen, removeAt_middle.
  repeat split; reflexivity.
Qed.

Lemma MarkItemCompleted_out_of_bounds_witness :
  MarkItemCompleted sampleNote (-1) = sampleNote
  /\ MarkItemCompleted sampleNote 3 = sampleNote.
Proof.
  split.
  - apply (MarkItemCompleted_out_of_bounds sampleNote (-1)). left. lia.
  - apply (MarkItemCompleted_out_of_bounds sampleNote 3). right. simpl. lia.
Defined.

Lemma MarkItemCompleted_moves_one_witness :
  exists l1 item l2,
    PendingWork sampleNote = (l1 ++ item :: l2)%list
    /\ Z.of_nat (List.length l1) = 1%Z
    /\ PendingWork (MarkItemCompleted sampleNote 1) = (l1 ++ l2)%list
    /\ CompletedWork (MarkItemCompleted sampleNote 1)
       = (CompletedWork sampleNote ++ [mkWorkItem (Text item) true])%list
    /\ ID (MarkItemCompleted sampleNote 1) = ID sampleNote
    /\ Aliases (MarkItemCompleted sampleNote 1) = Aliases sampleNote
    /\ Tags (MarkItemCompleted sampleNote 1) = Tags sampleNote
    /\ Date (MarkItemCompleted sampleNote 1) = Date sampleNote
    /\ Title (MarkItemCompleted sampleNote 1) = Title sampleNote
    /\ Summary (MarkItemCompleted sampleNote 1) = Summary sampleNote
    /\ YesterdaySummary (MarkItemCompleted sampleNote 1)
       = YesterdaySummary sampleNote
    /\ FilePath (MarkItemCompleted sampleNote 1) = FilePath sampleNote.
Proof.
  apply (MarkItemCompleted_moves_one sampleNote 1). simpl. lia.
Defined.

(** ** White space *)

Lemma plain_not_space1 a : plain a = true -> isSpace1 a = false.
Proof.
  unfold plain. rewrite andb_true_iff, negb_true_iff. tauto.
Qed.

Lemma plain_not_space2 a b : plain a = true -> isSpace2 a b = false.
Proof.
  unfold plain, isSpace2. rewrite andb_true_iff, N.ltb_lt. intros [_ H].
  destruct (N.eqb_spec (code a) 194); [lia|reflexivity].
Qed.

Lemma plain_not_space3 a b c : plain a = true -> isSpace3 a b c = false.
Proof.
  unfold plain, isSpace3. rewrite andb_true_iff, N.ltb_lt. intros [_ H].
  destruct (N.eqb_spec (code a) 225); [lia|].
  destruct (N.eqb_spec (code a) 226); [lia|].
  destruct (N.eqb_spec (code a) 227); [lia|reflexivity].
Qed.

Lemma isSpaceRune_plain a t : plain a = true -> isSpaceRune (String a t) = false.
Proof.
  intros H. destruct t as [|b [|c [|d t]]]; simpl.
  - now apply plain_not_space1.
  - now apply plain_not_space2.
  - now apply plain_not_space3.
  - reflexivity.
Qed.

Lemma trimLeft_plain a r : plain a = true -> trimLeft (String a r) = String a r.
Proof.
  intros H. simpl. rewrite (plain_not_space1 _ H).
  destruct r as [|b [|c r]]; trivial.
  - now rewrite (plain_not_space2 _ b H).
  - now rewrite (plain_not_space2 _ b H), (plain_not_space3 _ b c H).
Qed.

Lemma trimRight_plain a r :
  plain a = true -> trimRight (String a r) = String a (trimRight r).
Proof.
  intros H.
  change (trimRight (String a r))
    with (if isSpaceRune (String a (trimRight r)) then EmptyString
          else String a (trimRight r)).
  now rewrite (isSpaceRune_plain _ _ H).
Qed.

Lemma TrimSpace_plain a r :
  plain a = true -> TrimSpace (String a r) = String a (trimRight r).
Proof.
  intros H. unfold TrimSpace. rewrite (trimLeft_plain _ _ H).
  now apply trimRight_plain.
Qed.

(** *** The two trimming functions and white-space runes

    [trimLeft] drops a white-space rune in front and keeps a string that
    starts with none; [trimRight] drops a white-space rune at the end and
    keeps a string that ends with none.  These four facts determine both
    functions. *)

Ltac bools :=
  repeat match goal with
         | H : _ && _ = true |- _ => apply andb_true_iff in H; destruct H
         | H : _ || _ = true |- _ => apply orb_true_iff in H; destruct H
         | H : (_ =? _)%N = true |- _ => apply N.eqb_eq in H
         | H : (_ <=? _)%N = true |- _ => apply N.leb_le in H
         end.

Lemma isSpace1_low a : isSpace1 a = true -> (code a < 128)%N.
Proof.
  unfold isSpace1. destruct (code a) as [|p]; [discriminate|].
  repeat (match goal with q : positive |- _ => destruct q end;
          try discriminate); intros _; lia.
Qed.

Lemma high_not_space1 a : (128 <= code a)%N -> isSpace1 a = false.
Proof.
  intros H. destruct (isSpace1 a) eqn:E; trivial.
  apply isSpace1_low in E. lia.
Qed.

Lemma space2_codes a b :
  isSpace2 a b = true -> code a = 194%N /\ (128 <= code b)%N.
Proof. unfold isSpace2. intros H. bools; lia. Qed.

Lemma space3_codes a b c :
  isSpace3 a b c = true ->
  (225 <= code a <= 227 /\ 128 <= code b <= 154 /\ 128 <= code c)%N.
Proof. unfold isSpace3. intros H. bools; lia. Qed.

Lemma not_space2_by_head a b : code a <> 194%N -> isSpace2 a b = false.
Proof.
  intros H. unfold isSpace2.
  destruct (N.eqb_spec (code a) 194); [contradiction|reflexivity].
Qed.

Lemma trimLeft_drops_rune w s :
  isSpaceRune w = true -> trimLeft (w ++ s) = trimLeft s.
Proof.
  destruct w as [|a [|b [|c [|d w]]]]; simpl; try discriminate; intros H.
  - now rewrite H.
  - destruct (space2_codes _ _ H) as [Ha _].
    rewrite high_not_space1 by lia. now rewrite H.
  - destruct (space3_codes _ _ _ H) as (Ha & _ & _).
    rewrite high_not_space1 by lia.
    rewrite not_space2_by_head by lia. now rewrite H.
Qed.

Lemma trimLeft_keeps s :
  (forall w r, isSpaceRune w = true -> s <> w ++ r) -> trimLeft s = s.
Proof.
  intros H. destruct s as [|a [|b [|c s]]]; simpl; trivial.
  - destruct (isSpace1 a) eqn:E; trivial.
    now destruct (H (String a "") "" E).
  - destruct (isSpace1 a) eqn:E1.
    { now destruct (H (String a "") (String b "") E1). }
    destruct (isSpace2 a b) eqn:E2; trivial.
    now destruct (H (String a (String b "")) "" E2).
  - destruct (isSpace1 a) eqn:E1.
    { now destruct (H (String a "") (String b (String c s)) E1). }
    destruct (isSpace2 a b) eqn:E2.
    { now destruct (H (String a (String b "")) (String c s) E2). }
    destruct (isSpace3 a b c) eqn:E3; trivial.
    now destruct (H (String a (String b (String c ""))) s E3).
Qed.

Lemma trimRight_rune w : isSpaceRune w = true -> trimRight w = EmptyString.
Proof.
  destruct w as [|a [|b [|c [|d w]]]]; simpl; try discriminate; intros H.
  - now rewrite H.
  - destruct (space2_codes _ _ H) as [_ Hb].
    rewrite (high_not_space1 b) by lia. now rewrite H.
  - destruct (space3_codes _ _ _ H) as (_ & Hb & Hc).
    rewrite (high_not_space1 c) by lia.
    rewrite (not_space2_by_head b c) by lia. now rewrite H.
Qed.

Lemma trimRight_drops_rune s w :
  isSpaceRune w = true -> trimRight (s ++ w) = trimRight s.
Proof.
  intros H. induction s as [|a s IH].
  - now apply trimRight_rune.
  - change (trimRight (String a (s ++ w)) = trimRight (String a s)).
    cbn [trimRight]. now rewrite IH.
Qed.

Lemma trimRight_keeps s :
  (forall p w, isSpaceRune w = true -> s <> p ++ w) -> trimRight s = s.
Proof.
  induction s as [|a s IH]; intros H; [reflexivity|].
  cbn [trimRight]. rewrite IH.
  - destruct (isSpaceRune (String a s)) eqn:E; trivial.
    now destruct (H "" (String a s) E).
  - intros p w Hw ->. now apply (H (String a p) w Hw).
Qed.

(** ** Work-item lines *)

Lemma parseWorkItem_plain_head a r :
  plain a = true -> Ascii.eqb "-" a = false ->
  parseWorkItem (String a r) = None.
Proof.
  intros H Hd. unfold parseWorkItem. rewrite (TrimSpace_plain _ _ H).
  unfold HasPrefix. simpl. now rewrite Hd.
Qed.

Lemma parseWorkItem_after_prefix (p line : string) a p' :
  p = String a p' -> plain a = true -> Ascii.eqb "-" a = false ->
  HasPrefix line p = true -> parseWorkItem line = None.
Proof.
  intros -> H Hd Hp. rewrite (HasPrefix_true _ _ Hp). simpl.
  now apply parseWorkItem_plain_head.
Qed.

(** A line that gives a work item is none of the lines the loop of
    [ParseFile] handles before it looks for work items. *)
Lemma parseWorkItem_Some_other_rules line item :
  parseWorkItem line = Some item ->
  String.eqb line "---" = false
  /\ HasPrefix line "# " = false
  /\ HasPrefix line "summary::" = false
  /\ HasPrefix line "yesterday's summary::" = false
  /\ HasPrefix line "## Pending Work" = false
  /\ HasPrefix line "## Work Completed" = false.
Proof.
  intros H.
  assert (P : forall p a p', p = String a p' -> plain a = true ->
              Ascii.eqb "-" a = false -> HasPrefix line p = false).
  { intros p a p' E Ha Hd. destruct (HasPrefix line p) eqn:Hp; trivial.
    rewrite (parseWorkItem_after_prefix p line a p' E Ha Hd Hp) in H.
    discriminate. }
  split.
  - destruct (String.eqb_spec line "---") as [->|]; trivial.
    vm_compute in H. discriminate.
  - repeat split; eapply P; reflexivity.
Qed.

Ltac split_ifs :=
  repeat match goal with
         | |- context [if ?b then _ else _] => destruct b eqn:?
         | |- context [match ?x with Some _ => _ | None => _ end] =>
             destruct x eqn:?
         end.

Lemma parseFrontmatterLine_work line n :
  PendingWork (parseFrontmatterLine line n) = PendingWork n
  /\ CompletedWork (parseFrontmatterLine line n) = CompletedWork n
  /\ Aliases (parseFrontmatterLine line n) = Aliases n.
Proof. unfold parseFrontmatterLine. split_ifs; repeat split. Qed.

Lemma parseLine_aliases st line :
  Aliases (note (parseLine st line)) = Aliases (note st).
Proof.
  unfold parseLine. split_ifs; simpl; trivial.
  apply parseFrontmatterLine_work.
Qed.

Lemma parseLine_no_item st line :
  parseWorkItem line = None ->
  PendingWork (note (parseLine st line)) = PendingWork (note st)
  /\ CompletedWork (note (parseLine st line)) = CompletedWork (note st).
Proof.
  intros H. unfold parseLine. rewrite H.
  split_ifs; simpl; try (split; reflexivity).
  split; apply parseFrontmatterLine_work.
Qed.

Lemma parseLine_item st line item :
  inFrontmatter st = false ->
  parseWorkItem line = Some item ->
  PendingWork (note (parseLine st line))
  = (if inPendingSection st then PendingWork (note st) ++ [item]
     else PendingWork (note st))%list
  /\ CompletedWork (note (parseLine st line))
     = (if inCompletedSection st then CompletedWork (note st) ++ [item]
        else CompletedWork (note st))%list
  /\ inFrontmatter (parseLine st line) = false
  /\ inPendingSection (parseLine st line) = inPendingSection st
  /\ inCompletedSection (parseLine st line) = inCompletedSection st.
Proof.
  intros Hfm H.
  destruct (parseWorkItem_Some_other_rules _ _ H) as (E1 & E2 & E3 & E4 & E5 & E6).
  unfold parseLine. rewrite E1, Hfm, E2, E3, E4, E5, E6, H.
  destruct (inPendingSection st), (inCompletedSection st); simpl; repeat split.
Qed.

(** C4. The checkbox grammar of [parseWorkItem], on the trimmed line:
    "- [ ] <text>" gives the unchecked item with text <text>;
    "- [x] <text>" and "- [X] <text>" give a checked item (its text is
    <text>, from which a leading "- [X] " is also dropped in the lower-case
    case); any other line gives no item.  In the loop of [ParseFile] a
    line without item changes neither work list and raises nothing, and
    outside the frontmatter a line with an item is appended to the work
    list of the active section. *)
Theorem parseWorkItem_checkbox_grammar :
  (forall line text,
      TrimSpace line = "- [ ] " ++ text ->
      parseWorkItem line = Some (mkWorkItem text false))
  /\ (forall line text,
      TrimSpace line = "- [x] " ++ text ->
      parseWorkItem line = Some (mkWorkItem (TrimPrefix text "- [X] ") true))
  /\ (forall line text,
      TrimSpace line = "- [X] " ++ text ->
      parseWorkItem line = Some (mkWorkItem text true))
  /\ (forall line,
      (forall text, TrimSpace line <> "- [ ] " ++ text) ->
      (forall text, TrimSpace line <> "- [x] " ++ text) ->
      (forall text, TrimSpace line <> "- [X] " ++ text) ->
      parseWorkItem line = None)
  /\ (forall st line,
      parseWorkItem line = None ->
      PendingWork (note (parseLine st line)) = PendingWork (note st)
      /\ CompletedWork (note (parseLine st line)) = CompletedWork (note st))
  /\ (forall st line item,
      inFrontmatter st = false ->
      parseWorkItem line = Some item ->
      PendingWork (note (parseLine st line))
      = (if inPendingSection st then PendingWork (note st) ++ [item]
         else PendingWork (note st))%list
      /\ CompletedWork (note (parseLine st line))
         = (if inCompletedSection st then CompletedWork (note st) ++ [item]
            else CompletedWork (note st))%list).
Proof.
  repeat apply conj.
  - intros line text H. unfold parseWorkItem. rewrite H.
    now rewrite HasPrefix_app, TrimPrefix_app.
  - intros line text H. unfold parseWorkItem. rewrite H.
    rewrite (HasPrefix_app "- [x] "), (TrimPrefix_app "- [x] ").
    reflexivity.
  - intros line text H. unfold parseWorkItem. rewrite H.
    reflexivity.
  - intros line H1 H2 H3. unfold parseWorkItem.
    destruct (HasPrefix (TrimSpace line) "- [ ] ") eqn:E1.
    { exfalso. exact (H1 _ (HasPrefix_true _ _ E1)). }
    destruct (HasPrefix (TrimSpace line) "- [x] ") eqn:E2.
    { exfalso. exact (H2 _ (HasPrefix_true _ _ E2)). }
    destruct (HasPrefix (TrimSpace line) "- [X] ") eqn:E3.
    { exfalso. exact (H3 _ (HasPrefix_true _ _ E3)). }
    reflexivity.
  - apply parseLine_no_item.
  - intros st line item Hfm H.
    destruct (parseLine_item st line item Hfm H) as (P & C & _). now split.
Qed.

Lemma parseWorkItem_checkbox_grammar_witness :
  parseWorkItem "- [ ] buy milk" = Some (mkWorkItem "buy milk" false)
  /\ parseWorkItem "  - [x] ship release " = Some (mkWorkItem "ship release" true)
  /\ parseWorkItem "- [X] ship release" = Some (mkWorkItem "ship release" true)
  /\ parseWorkItem "- [z] nonsense" = None
  /\ PendingWork (note (parseLine (mkParseState sampleNote false true false)
                                  "- [z] nonsense"))
     = PendingWork sampleNote
  /\ PendingWork (note (parseLine (mkParseState sampleNote false true false)
                                  "- [ ] buy milk"))
     = (PendingWork sampleNote ++ [mkWorkItem "buy milk" false])%list.
Proof.
  destruct parseWorkItem_checkbox_grammar as (H1 & H2 & H3 & H4 & H5 & H6).
  assert (Hz : parseWorkItem "- [z] nonsense" = None).
  { apply H4; intros text E; vm_compute in E; discriminate. }
  repeat apply conj.
  - apply H1. reflexivity.
  - exact (H2 "  - [x] ship release " "ship release" eq_refl).
  - apply H3. reflexivity.
  - exact Hz.
  - apply (H5 (mkParseState sampleNote false true false)). exact Hz.
  - apply (H6 (mkParseState sampleNote false true false) "- [ ] buy milk"
              (mkWorkItem "buy milk" false)); reflexivity.
Defined.

(** ** Frontmatter lines *)

Lemma HasPrefix_head_neq a b p s :
  Ascii.eqb a b = false -> HasPrefix (String b s) (String a p) = false.
Proof. intros H. unfold HasPrefix. simpl. now rewrite H. Qed.

(** C9. In the frontmatter a line that starts with two spaces, a dash and
    a space has the rest of the line, trimmed, appended to the tags: by
    [parseFrontmatterLine] and so by the loop of [ParseFile], which keeps
    no record of the block ("tags:" or "aliases:") the line stands in.
    No line changes the aliases, which are empty in every parsed note; the
    bullets of an "aliases:" block end up among the tags. *)
Theorem frontmatter_bullets_become_tags :
  (forall rest n,
      parseFrontmatterLine ("  - " ++ rest) n
      = setTags n (Tags n ++ [TrimSpace rest]))
  /\ (forall st rest,
      inFrontmatter st = true ->
      parseLine st ("  - " ++ rest)
      = mkParseState (setTags (note st) (Tags (note st) ++ [TrimSpace rest]))
                     true (inPendingSection st) (inCompletedSection st))
  /\ (forall st line, Aliases (note (parseLine st line)) = Aliases (note st))
  /\ (forall filePath f n e,
      ParseFile filePath f = (Some n, e) -> Aliases n = [])
  /\ (exists n,
      Decode "2025-01-19-Acme.md" aliasesAndTags = (Some n, None)
      /\ Tags n = ["standup"; "acme"; "job"] /\ Aliases n = []).
Proof.
  assert (F : forall rest n,
             parseFrontmatterLine ("  - " ++ rest) n
             = setTags n (Tags n ++ [TrimSpace rest])).
  { intros rest n. unfold parseFrontmatterLine.
    change ("  - " ++ rest) with (String " " (" - " ++ rest)).
    rewrite !HasPrefix_head_neq by reflexivity.
    change (String " " (" - " ++ rest)) with ("  - " ++ rest).
    now rewrite HasPrefix_app, TrimPrefix_app. }
  assert (A : forall ls st,
             Aliases (note (fold_left parseLine ls st)) = Aliases (note st)).
  { induction ls as [|l ls IH]; intros st; simpl; [reflexivity|].
    rewrite IH. apply parseLine_aliases. }
  repeat apply conj.
  - exact F.
  - intros st rest Hfm. unfold parseLine. rewrite Hfm, F.
    destruct (String.eqb_spec ("  - " ++ rest) "---") as [E|_]; [|reflexivity].
    simpl in E. discriminate.
  - apply parseLine_aliases.
  - intros filePath f n e H. unfold ParseFile in H.
    destruct f as [|data|data]; [discriminate| |];
      destruct (scanTokens (rawLines data)) as [toks e']; injection H as <- _;
      unfold parseLines; now rewrite A.
  - eexists. repeat split; vm_compute; reflexivity.
Qed.

Lemma frontmatter_bullets_become_tags_witness :
  parseLine (mkParseState sampleNote true false false) "  - standup "
  = mkParseState (setTags sampleNote ["acme"; "job"; "standup"])
                 true false false
  /\ Aliases (note (parseLines "p" ["---"; "aliases:"; "  - standup"])) = [].
Proof.
  destruct frontmatter_bullets_become_tags as (_ & H2 & _ & H4 & _).
  split.
  - exact (H2 (mkParseState sampleNote true false false) "standup " eq_refl).
  - apply (H4 "p" (Readable (joinLines ["---"; "aliases:"; "  - standup"]))
              _ None).
    reflexivity.
Defined.

(** ** Sections *)

Lemma parseLine_flags st line :
  HasPrefix line "## Pending Work" = false ->
  HasPrefix line "## Work Completed" = false ->
  inPendingSection (parseLine st line) = inPendingSection st
  /\ inCompletedSection (parseLine st line) = inCompletedSection st.
Proof.
  intros H1 H2. unfold parseLine. rewrite H1, H2.
  split_ifs; simpl; split; reflexivity.
Qed.

Lemma parseLine_pending_grows st line :
  exists l,
    PendingWork (note (parseLine st line)) = (PendingWork (note st) ++ l)%list.
Proof.
  destruct (parseWorkItem line) as [item|] eqn:E.
  - destruct (inFrontmatter st) eqn:Hfm.
    + exists []. rewrite app_nil_r. unfold parseLine. rewrite Hfm.
      destruct (String.eqb line "---"); simpl; trivial.
      apply parseFrontmatterLine_work.
    + destruct (parseLine_item st line item Hfm E) as (P & _).
      rewrite P. destruct (inPendingSection st).
      * now exists [item].
      * exists []. now rewrite app_nil_r.
  - exists []. rewrite app_nil_r. now apply parseLine_no_item.
Qed.

Lemma parseLines_pending_grows ls st :
  exists l,
    PendingWork (note (fold_left parseLine ls st))
    = (PendingWork (note st) ++ l)%list.
Proof.
  revert st; induction ls as [|x ls IH]; intros st; simpl.
  - exists []. now rewrite app_nil_r.
  - destruct (IH (parseLine st x)) as [l Hl].
    destruct (parseLine_pending_grows st x) as [l' Hl'].
    exists (l' ++ l)%list. now rewrite Hl, Hl', app_assoc.
Qed.

Lemma parseLine_pending_heading st hdr :
  inFrontmatter st = false ->
  HasPrefix hdr "## Pending Work" = true ->
  readingPending (parseLine st hdr).
Proof.
  intros Hfm H. rewrite (HasPrefix_true _ _ H).
  unfold parseLine. rewrite Hfm, HasPrefix_app.
  repeat split; reflexivity.
Qed.

Lemma parseLine_stays_pending st line :
  readingPending st ->
  line <> "---" -> HasPrefix line "## Work Completed" = false ->
  readingPending (parseLine st line).
Proof.
  intros (Hfm & Hp & Hc) Hd Hw. unfold readingPending, parseLine.
  destruct (String.eqb_spec line "---") as [|_]; [contradiction|].
  rewrite Hfm, Hp, Hc, Hw.
  split_ifs; simpl; repeat split; reflexivity.
Qed.

Lemma parseLines_stay_pending mid st :
  readingPending st ->
  Forall (fun l => l <> "---" /\ HasPrefix l "## Work Completed" = false) mid ->
  readingPending (fold_left parseLine mid st).
Proof.
  revert st; induction mid as [|x mid IH]; intros st Hst HF; simpl; trivial.
  inversion HF as [|? ? [Hd Hw] HF']; subst.
  apply IH; trivial. now apply parseLine_stays_pending.
Qed.

(** C10. A line that starts neither with "## Pending Work" nor with
    "## Work Completed" leaves both section flags as they are.  So when
    the "## Pending Work" heading is read outside the frontmatter and is
    followed by lines none of which is "---" or starts with
    "## Work Completed" (other headings among them), a checkbox line that
    comes next is added to the pending work, and stays there. *)
Theorem section_flags_only_change_at_work_headings :
  (forall st line,
      HasPrefix line "## Pending Work" = false ->
      HasPrefix line "## Work Completed" = false ->
      inPendingSection (parseLine st line) = inPendingSection st
      /\ inCompletedSection (parseLine st line) = inCompletedSection st)
  /\ (forall filePath pre hdr mid cb post item,
      inFrontmatter (parseLines filePath pre) = false ->
      HasPrefix hdr "## Pending Work" = true ->
      Forall (fun l => l <> "---" /\ HasPrefix l "## Work Completed" = false)
             mid ->
      parseWorkItem cb = Some item ->
      exists l1 l2,
        PendingWork (note (parseLines filePath (pre ++ hdr :: mid ++ cb :: post)))
        = (l1 ++ item :: l2)%list).
Proof.
  split; [exact parseLine_flags|].
  intros filePath pre hdr mid cb post item Hfm Hh Hmid Hcb.
  unfold parseLines in *. rewrite fold_left_app. simpl.
  rewrite fold_left_app. simpl.
  set (s0 := fold_left parseLine pre (initialState filePath)) in *.
  set (s2 := fold_left parseLine mid (parseLine s0 hdr)).
  assert (R : readingPending s2).
  { apply parseLines_stay_pending; trivial.
    now apply parseLine_pending_heading. }
  destruct R as (Rf & Rp & Rc).
  destruct (parseLine_item s2 cb item Rf Hcb) as (P & _).
  rewrite Rp in P.
  destruct (parseLines_pending_grows post (parseLine s2 cb)) as [l Hl].
  exists (PendingWork (note s2)), l.
  rewrite Hl, P, <- app_assoc. reflexivity.
Qed.

Lemma section_flags_only_change_at_work_headings_witness :
  (inPendingSection (parseLine (mkParseState sampleNote false true false)
                               "## Notes") = true
   /\ inCompletedSection (parseLine (mkParseState sampleNote false true false)
                                    "## Notes") = false)
  /\ exists l1 l2,
      PendingWork
        (note (parseLines "p" (["# 2025-01-19"] ++ "## Pending Work"
                                 :: ["- [ ] a"; "## Notes"] ++ "- [ ] b"
                                 :: ["## Work Completed"])))
      = (l1 ++ mkWorkItem "b" false :: l2)%list.
Proof.
  destruct section_flags_only_change_at_work_headings as (H1 & H2).
  split.
  - apply (H1 (mkParseState sampleNote false true false) "## Notes");
      reflexivity.
  - apply (H2 "p" ["# 2025-01-19"] "## Pending Work" ["- [ ] a"; "## Notes"]
              "- [ ] b" ["## Work Completed"] (mkWorkItem "b" false)).
    + reflexivity.
    + reflexivity.
    + repeat constructor; discriminate.
    + reflexivity.
Defined.

(** The claim without the provisos on the frontmatter fails: a "---" line
    after the unrecognized heading opens a frontmatter region, and the
    checkbox line that follows is read as a frontmatter line. *)
Lemma checkbox_after_rule_line_is_dropped :
  ~ (forall filePath pre hdr mid cb post item,
        HasPrefix hdr "## Pending Work" = true ->
        Forall (fun l => HasPrefix l "## Work Completed" = false) mid ->
        parseWorkItem cb = Some item ->
        In item
           (PendingWork
              (note (parseLines filePath (pre ++ hdr :: mid ++ cb :: post))))).
Proof.
  intros H.
  specialize (H "p" [] "## Pending Work" ["## Notes"; "---"] "- [ ] x" []
                (mkWorkItem "x" false) eq_refl).
  assert (F : Forall (fun l => HasPrefix l "## Work Completed" = false)
                     ["## Notes"; "---"])
    by (repeat constructor).
  specialize (H F eq_refl). vm_compute in H. exact H.
Qed.

(** ** Errors of [ParseFile] *)

#[local] Arguments MaxScanTokenSize : simpl never.

Lemma scanTokens_short ls :
  Forall (fun l => (String.length l < MaxScanTokenSize)%nat) ls ->
  scanTokens ls = (map dropCR ls, None).
Proof.
  induction 1 as [|l ls Hl _ IH]; cbn [scanTokens map]; [reflexivity|].
  destruct (Nat.leb_spec MaxScanTokenSize (String.length l)); [lia|].
  now rewrite IH.
Qed.

Lemma scanTokens_error ls toks e :
  scanTokens ls = (toks, Some e) ->
  e = ErrTooLong
  /\ Exists (fun l => (MaxScanTokenSize <= String.length l)%nat) ls.
Proof.
  revert toks; induction ls as [|l ls IH]; cbn [scanTokens]; intros toks H.
  - discriminate.
  - destruct (Nat.leb_spec MaxScanTokenSize (String.length l)).
    + injection H as _ <-. split; [reflexivity|]. now constructor.
    + destruct (scanTokens ls) as [ts e'] eqn:E.
      injection H as _ ->. destruct (IH ts eq_refl) as [-> Hex].
      split; [reflexivity|]. now apply Exists_cons_tl.
Qed.

Lemma short_lines_check ls :
  forallb (fun l => (String.length l <? MaxScanTokenSize)%nat) ls = true ->
  Forall (fun l => (String.length l < MaxScanTokenSize)%nat) ls.
Proof.
  rewrite forallb_forall, Forall_forall.
  intros H l Hl. apply Nat.ltb_lt. now apply H.
Qed.

Lemma parseFrontmatterLine_bad_date line n :
  HasPrefix line "date:" = true ->
  ParseISO (TrimSpace (TrimPrefix line "date:")) = None ->
  parseFrontmatterLine line n = n.
Proof.
  intros H E. unfold parseFrontmatterLine. rewrite H, E.
  rewrite (HasPrefix_true _ _ H).
  change ("date:" ++ TrimPrefix line "date:")
    with (String "d" ("ate:" ++ TrimPrefix line "date:")).
  now rewrite HasPrefix_head_neq.
Qed.

Lemma parseLine_keeps_date st line :
  (HasPrefix line "date:" = true ->
   ParseISO (TrimSpace (TrimPrefix line "date:")) = None) ->
  Date (note (parseLine st line)) = Date (note st).
Proof.
  intros H. unfold parseLine.
  destruct (String.eqb line "---"); [reflexivity|].
  destruct (inFrontmatter st).
  - simpl. unfold parseFrontmatterLine.
    destruct (HasPrefix line "id:"); [reflexivity|].
    destruct (HasPrefix line "date:").
    + now rewrite H.
    + now destruct (HasPrefix line "  - ").
  - split_ifs; reflexivity.
Qed.

(** C8. [ParseFile] returns no error for a file that is read to its end
    and whose lines are all shorter than the scanner's buffer
    ([MaxScanTokenSize] bytes), whatever the lines say; an error it
    returns comes from opening the file, from a failed read, or from a
    line that fills the scanner's buffer.  A "date:" line of the
    frontmatter whose value is no date leaves the note as it is, so the
    date of a note none of whose "date:" lines parses is the zero time. *)
Theorem ParseFile_error_sources :
  (forall filePath data,
      Forall (fun l => (String.length l < MaxScanTokenSize)%nat)
             (rawLines data) ->
      exists n, ParseFile filePath (Readable data) = (Some n, None))
  /\ (forall filePath f r e,
      ParseFile filePath f = (r, Some e) ->
      match f with
      | OpenFails => e = ErrOpen /\ r = None
      | ReadFails _ => e = ErrRead \/ e = ErrTooLong
      | Readable data =>
          e = ErrTooLong
          /\ Exists (fun l => (MaxScanTokenSize <= String.length l)%nat)
                    (rawLines data)
      end)
  /\ (forall line n,
      HasPrefix line "date:" = true ->
      ParseISO (TrimSpace (TrimPrefix line "date:")) = None ->
      parseFrontmatterLine line n = n)
  /\ (forall filePath lines,
      Forall (fun l => HasPrefix l "date:" = true ->
                       ParseISO (TrimSpace (TrimPrefix l "date:")) = None)
             lines ->
      Date (note (parseLines filePath lines)) = zeroTime).
Proof.
  repeat apply conj.
  - intros filePath data H. unfold ParseFile.
    rewrite (scanTokens_short _ H). eexists. reflexivity.
  - intros filePath f r e H. unfold ParseFile in H.
    destruct f as [|data|data].
    + injection H as <- <-. now split.
    + destruct (scanTokens (rawLines data)) as [toks e'] eqn:E.
      injection H as _ ->. exact (scanTokens_error _ _ _ E).
    + destruct (scanTokens (rawLines data)) as [toks [e'|]] eqn:E;
        injection H as _ <-.
      * right. now destruct (scanTokens_error _ _ _ E).
      * now left.
  - exact parseFrontmatterLine_bad_date.
  - intros filePath lines H. unfold parseLines.
    assert (G : forall st,
               Date (note (fold_left parseLine lines st)) = Date (note st)).
    { induction H as [|l ls Hl _ IH]; intros st; simpl; [reflexivity|].
      rewrite IH. now apply parseLine_keeps_date. }
    now rewrite G.
Qed.

Lemma ParseFile_error_sources_witness :
  (exists n, ParseFile "2025-02-30-Acme.md" (Readable malformedNote)
             = (Some n, None))
  /\ (ErrTooLong = ErrTooLong
      /\ Exists (fun l => (MaxScanTokenSize <= String.length l)%nat)
                (rawLines oneLongLine))
  /\ parseFrontmatterLine "date: 2025-02-30" sampleNote = sampleNote
  /\ Date (note (parseLines "p" ["---"; "date: 2025-02-30"; "date:tomorrow"]))
     = zeroTime.
Proof.
  destruct ParseFile_error_sources as (H1 & H2 & H3 & H4).
  split; [|split; [|split]].
  - apply H1. apply short_lines_check. vm_compute. reflexivity.
  - apply (H2 "p" (Readable oneLongLine) (Some (note (initialState "p")))
              ErrTooLong).
    vm_compute. reflexivity.
  - apply H3; reflexivity.
  - apply H4. repeat constructor; intros; try reflexivity; discriminate.
Defined.

(** A readable file with a line of [MaxScanTokenSize] bytes: [ParseFile]
    returns the scanner's error, not a success. *)
Lemma ParseFile_long_line_error :
  ParseFile "2025-01-19-Acme.md" (Readable oneLongLine)
  = (Some (note (initialState "2025-01-19-Acme.md")), Some ErrTooLong).
Proof. vm_compute. reflexivity. Qed.

(** ** The summary client *)

Lemma appends_ret {A} (a : A) : appends (ret a).
Proof. intros log. exists []. simpl. now rewrite app_nil_r. Qed.

Lemma appends_call {A} r (answer : list request -> A) :
  appends (call r answer).
Proof. intros log. now exists [r]. Qed.

Lemma appends_bind {A B} (m : M A) (k : A -> M B) :
  appends m -> (forall a, appends (k a)) -> appends (bind m k).
Proof.
  intros Hm Hk log. unfold bind.
  destruct (Hm log) as [r1 E1]. destruct (m log) as [a log1]. simpl in E1.
  destruct (Hk a log1) as [r2 E2]. exists (r1 ++ r2)%list.
  now rewrite E2, E1, app_assoc.
Qed.

Lemma appends_polling be ticks sid :
  appends (waitForIdleWithPolling be ticks sid).
Proof.
  induction ticks as [|k IH]; simpl.
  - apply appends_ret.
  - apply appends_bind; [apply appends_call|].
    intros [l|]; trivial.
    destruct (hasAssistantText l); trivial. apply appends_ret.
Qed.

Lemma first_request {A B} r (answer : list request -> A) (k : A -> M B) :
  (forall a, appends (k a)) ->
  forall log, exists rest,
    snd (bind (call r answer) k log) = (log ++ r :: rest)%list.
Proof.
  intros Hk log. unfold bind, call.
  destruct (Hk (answer (log ++ [r])%list) (log ++ [r])%list) as [rest E].
  exists rest. rewrite E, <- app_assoc. reflexivity.
Qed.

Ltac appends_cases :=
  repeat first
    [ apply appends_ret
    | apply appends_call
    | apply appends_polling
    | apply appends_bind; [|intros ?]
    | match goal with
      | |- appends (match ?x with _ => _ end) => destruct x
      end ].

(** C7. [SummarizeWorkItems] on the empty list returns the fixed text
    "No work items to summarize." as a success and makes no request: the
    log of requests is the one it started with.  On a list that is not
    empty its first request creates a session. *)
Theorem SummarizeWorkItems_empty_makes_no_request :
  (forall be log,
      SummarizeWorkItems be [] log
      = (inl "No work items to summarize.", log))
  /\ (forall be it items log,
      exists rest,
        snd (SummarizeWorkItems be (it :: items) log)
        = (log ++ PostSession :: rest)%list).
Proof.
  split; [reflexivity|].
  intros be it items log.
  cbn [SummarizeWorkItems]. unfold createSession.
  apply first_request. intros session. appends_cases.
Qed.

(** ** Sorting by insertion *)

Section InsertionSort.

Context {A : Type} (less : A -> A -> bool).

Lemma insertBack_perm x r : Permutation (x :: r) (insertBack less x r).
Proof.
  induction r as [|y r IH]; simpl; [reflexivity|].
  destruct (less x y); [|reflexivity].
  rewrite perm_swap. now constructor.
Qed.

Lemma insertion_perm l acc :
  Permutation (acc ++ l)
              (fold_left (fun acc x => insertBack less x acc) l acc).
Proof.
  revert acc; induction l as [|x l IH]; intros acc; simpl.
  - now rewrite app_nil_r.
  - rewrite <- IH. rewrite <- insertBack_perm.
    symmetry. apply Permutation_middle.
Qed.

Lemma sortSlice_perm l : Permutation l (sortSlice less l).
Proof.
  unfold sortSlice. rewrite <- Permutation_rev.
  exact (insertion_perm l []).
Qed.

(** An element that [less] puts before every element of the sorted prefix
    moves to its front. *)
Lemma insertBack_front x r :
  Forall (fun y => less x y = true) r -> insertBack less x r = (r ++ [x])%list.
Proof.
  induction 1 as [|y r Hy _ IH]; simpl; [reflexivity|].
  now rewrite Hy, IH.
Qed.

End InsertionSort.

(** ** Reviewing the pending items *)

Lemma selectFrom_lower i items v :
  Forall (fun j => (i <= j)%Z) (selectFrom i items v).
Proof.
  revert i v; induction items as [|it items IH]; intros i v; simpl.
  - constructor.
  - assert (F : Forall (fun j => (i <= j)%Z) (selectFrom (i + 1) items (tl v))).
    { eapply Forall_impl; [|apply IH]. simpl. intros; lia. }
    destruct (hd false v); trivial. constructor; trivial. lia.
Qed.

(** The indices come in increasing order, so sorting them in decreasing
    order reverses them. *)
Lemma insertion_of_increasing l :
  forall acc,
    StronglySorted Z.lt l ->
    Forall (fun y => Forall (fun x => (y < x)%Z) l) acc ->
    fold_left (fun acc x => insertBack (fun a b => (b <? a)%Z) x acc) l acc
    = (acc ++ l)%list.
Proof.
  induction l as [|x l IH]; intros acc Hs Hacc; simpl.
  - now rewrite app_nil_r.
  - inversion Hs as [|? ? Hs' Hx]; subst.
    rewrite insertBack_front.
    + rewrite IH; trivial.
      * now rewrite <- app_assoc.
      * apply Forall_app. split.
        -- eapply Forall_impl; [|exact Hacc]. simpl.
           intros y Hy. now inversion Hy.
        -- constructor; [exact Hx|constructor].
    + eapply Forall_impl; [|exact Hacc]. simpl.
      intros y Hy. inversion Hy; subst. now apply Z.ltb_lt.
Qed.

Lemma selectFrom_sorted i items v : StronglySorted Z.lt (selectFrom i items v).
Proof.
  revert i v; induction items as [|it items IH]; intros i v; simpl.
  - constructor.
  - destruct (hd false v); [|apply IH].
    constructor; [apply IH|].
    eapply Forall_impl; [|apply (selectFrom_lower (i + 1))]. simpl.
    intros; lia.
Qed.

Lemma sortDescending_select items v :
  sortDescending (SelectPendingItems items v)
  = rev (SelectPendingItems items v).
Proof.
  unfold sortDescending, sortSlice, SelectPendingItems.
  rewrite insertion_of_increasing; trivial.
  apply selectFrom_sorted.
Qed.

Lemma fold_appendCompleted pending l acc :
  fold_left (appendCompleted pending) l acc
  = (acc ++ flat_map (completedAt pending) l)%list.
Proof.
  revert acc; induction l as [|x l IH]; intros acc; simpl.
  - now rewrite app_nil_r.
  - rewrite IH. unfold appendCompleted, completedAt.
    destruct (nth_error pending (Z.to_nat x)); simpl; trivial.
    now rewrite <- app_assoc.
Qed.

Lemma completedAt_rev pending l :
  flat_map (completedAt pending) (rev l)
  = rev (flat_map (completedAt pending) l).
Proof.
  induction l as [|x l IH]; simpl; [reflexivity|].
  rewrite flat_map_app, rev_app_distr, IH. simpl. rewrite app_nil_r.
  f_equal. unfold completedAt.
  now destruct (nth_error pending (Z.to_nat x)).
Qed.

Lemma completedAt_select pre items v :
  flat_map (completedAt (pre ++ items))
           (selectFrom (Z.of_nat (List.length pre)) items v)
  = markedItems items v.
Proof.
  revert pre v; induction items as [|it items IH]; intros pre v; simpl.
  - reflexivity.
  - assert (E : flat_map (completedAt (pre ++ it :: items))
                  (selectFrom (Z.of_nat (List.length pre) + 1) items (tl v))
                = markedItems items (tl v)).
    { specialize (IH (pre ++ [it])%list (tl v)).
      rewrite <- app_assoc in IH. simpl in IH.
      rewrite length_app in IH. simpl in IH.
      replace (Z.of_nat (List.length pre + 1)) with (Z.of_nat (List.length pre) + 1)%Z
        in IH by lia.
      exact IH. }
    destruct (hd false v); trivial.
    simpl. rewrite E. unfold completedAt at 1.
    rewrite Nat2Z.id, nth_error_app2, Nat.sub_diag by lia. reflexivity.
Qed.

Lemma completedSet_select items v i k :
  (k < List.length items)%nat ->
  completedSet (selectFrom i items v) (i + Z.of_nat k) = nth k v false.
Proof.
  unfold completedSet.
  revert v i k; induction items as [|it items IH]; intros v i k Hk; simpl in *.
  - lia.
  - assert (L : forall j, (j < i + 1)%Z ->
               existsb (Z.eqb j) (selectFrom (i + 1) items (tl v)) = false).
    { intros j Hj. apply not_true_is_false. intros E.
      apply existsb_exists in E. destruct E as (x & Hx & Ex).
      apply Z.eqb_eq in Ex. subst x.
      pose proof (selectFrom_lower (i + 1) items (tl v)) as F.
      rewrite Forall_forall in F. specialize (F _ Hx). simpl in F. lia. }
    destruct k as [|k].
    + replace (i + Z.of_nat 0)%Z with i by lia.
      destruct v as [|b v]; simpl.
      * apply L. lia.
      * destruct b; simpl.
        -- now rewrite Z.eqb_refl.
        -- apply L. lia.
    + replace (i + Z.of_nat (S k))%Z with (i + 1 + Z.of_nat k)%Z by lia.
      assert (T : nth (S k) v false = nth k (tl v) false)
        by (destruct v; [now destruct k|reflexivity]).
      rewrite T, <- (IH (tl v) (i + 1)%Z k) by lia.
      destruct (hd false v); simpl; trivial.
      destruct (Z.eqb_spec (i + 1 + Z.of_nat k) i); [lia|reflexivity].
Qed.

Lemma carryForward_pending chosen items :
  forall v i today,
    (forall k, (k < List.length items)%nat ->
               chosen (i + Z.of_nat k)%Z = nth k v false) ->
    carryForward chosen i items today
    = setPendingWork today (PendingWork today ++ carriedItems items v).
Proof.
  induction items as [|it items IH]; intros v i today H; simpl.
  - rewrite app_nil_r. now destruct today.
  - assert (H0 : chosen i = hd false v).
    { specialize (H 0%nat). simpl in H.
      replace (i + 0)%Z with i in H by lia.
      rewrite H by lia. now destruct v. }
    rewrite (IH (tl v)).
    + rewrite H0. destruct (hd false v); simpl; trivial.
      now rewrite <- app_assoc.
    + intros k Hk. specialize (H (S k)).
      replace (i + Z.of_nat (S k))%Z with (i + 1 + Z.of_nat k)%Z in H by lia.
      rewrite H by (simpl; lia). now destruct v; [destruct k|].
Qed.

Lemma existsb_rev_eq {A} (f : A -> bool) l : existsb f (rev l) = existsb f l.
Proof.
  induction l as [|x l IH]; simpl; [reflexivity|].
  rewrite existsb_app, IH. simpl. rewrite orb_false_r. apply orb_comm.
Qed.

(** The review of the pending items, in closed form. *)
Lemma reviewPending_spec prev today v :
  reviewPending prev today v
  = (setPendingWork
       (setCompletedWork prev
          (CompletedWork prev ++ rev (markedItems (PendingWork prev) v)))
       [],
     setPendingWork today
       (PendingWork today ++ carriedItems (PendingWork prev) v)).
Proof.
  unfold reviewPending, HasPendingWork.
  destruct (PendingWork prev) as [|it items] eqn:E.
  - simpl. rewrite !app_nil_r. f_equal.
    + destruct prev; simpl in *; now subst.
    + now destruct today.
  - change (0 <? List.length (it :: items))%nat with true. cbv iota.
    rewrite sortDescending_select, fold_appendCompleted, completedAt_rev.
    unfold SelectPendingItems.
    pose proof (completedAt_select [] (it :: items) v) as Q.
    change (flat_map (completedAt (it :: items)) (selectFrom 0 (it :: items) v)
            = markedItems (it :: items) v) in Q.
    rewrite Q.
    rewrite (carryForward_pending _ (it :: items) v); [reflexivity|].
    intros k Hk. unfold completedSet. rewrite existsb_rev_eq.
    apply (completedSet_select (it :: items) v 0 k Hk).
Qed.

Lemma summarizePrevious_keeps_work be prev today log :
  let r := fst (summarizePrevious be prev today log) in
  PendingWork (fst r) = PendingWork prev
  /\ CompletedWork (fst r) = CompletedWork prev
  /\ PendingWork (snd r) = PendingWork today
  /\ CompletedWork (snd r) = CompletedWork today.
Proof.
  unfold summarizePrevious.
  destruct (HasCompletedWork prev); [|simpl; tauto].
  unfold bind. destruct (TestConnection be log) as [ok log1].
  destruct ok; [|simpl; tauto]. simpl.
  destruct (SummarizeWorkItems be (CompletedWork prev) log1) as [[s|e] log2];
    simpl; tauto.
Qed.

(** C1 (as the code has it).  With a previous note, [Reconcile] appends
    the items answered yes to the completed work of the previous note as
    completed items with their texts, in decreasing order of their
    positions (the last one marked comes first); appends the items
    answered no to today's pending work in their original order; and
    leaves the previous note without pending work.  For pending items A,
    B, C and answers yes, no, yes the previous note gains C then A, and
    today's note gains B. *)
Theorem Reconcile_moves_items :
  (forall be prev today verdicts log,
      exists prev' today',
        fst (Reconcile be (Some prev) today verdicts log)
        = (Some prev', today')
        /\ CompletedWork prev'
           = (CompletedWork prev
              ++ rev (markedItems (PendingWork prev) verdicts))%list
        /\ PendingWork today'
           = (PendingWork today
              ++ carriedItems (PendingWork prev) verdicts)%list
        /\ PendingWork prev' = [])
  /\ (forall be prev today a b c log,
      exists prev' today',
        fst (Reconcile be
               (Some (setPendingWork prev
                        [mkWorkItem a false; mkWorkItem b false;
                         mkWorkItem c false]))
               today [true; false; true] log)
        = (Some prev', today')
        /\ CompletedWork prev'
           = (CompletedWork prev ++ [mkWorkItem c true; mkWorkItem a true])%list
        /\ PendingWork today'
           = (PendingWork today ++ [mkWorkItem b false])%list
        /\ PendingWork prev' = []).
Proof.
  assert (G : forall be prev today verdicts log,
      exists prev' today',
        fst (Reconcile be (Some prev) today verdicts log)
        = (Some prev', today')
        /\ CompletedWork prev'
           = (CompletedWork prev
              ++ rev (markedItems (PendingWork prev) verdicts))%list
        /\ PendingWork today'
           = (PendingWork today
              ++ carriedItems (PendingWork prev) verdicts)%list
        /\ PendingWork prev' = []).
  { intros be prev today verdicts log.
    unfold Reconcile. rewrite reviewPending_spec. unfold bind.
    match goal with
    | |- context [summarizePrevious be ?p ?t log] =>
        pose proof (summarizePrevious_keeps_work be p t log) as K;
        destruct (summarizePrevious be p t log) as [[p' t'] log']
    end.
    simpl in K. destruct K as (K1 & K2 & K3 & _).
    exists p', t'. simpl. now rewrite K1, K2, K3. }
  split; [exact G|].
  intros be prev today a b c log.
  exact (G be (setPendingWork prev
                 [mkWorkItem a false; mkWorkItem b false; mkWorkItem c false])
           today [true; false; true] log).
Qed.

(** The previous note with pending items A, B, C and answers yes, no, yes:
    the completed work gains C then A, not A then C. *)
Lemma Reconcile_appends_in_reverse :
  let prev := setCompletedWork sampleNote [] in
  exists prev' today',
    fst (Reconcile offline (Some prev) todayNote [true; false; true] [])
    = (Some prev', today')
    /\ CompletedWork prev' = [mkWorkItem "C" true; mkWorkItem "A" true]
    /\ CompletedWork prev'
       <> (CompletedWork prev ++ [mkWorkItem "A" true; mkWorkItem "C" true])%list.
Proof.
  eexists. eexists. split; [vm_compute; reflexivity|].
  split; [reflexivity|]. simpl. discriminate.
Qed.

(** ** The most recent earlier note *)

Section SortedHead.

Context {A : Type} (less : A -> A -> bool).

Hypothesis less_asym : forall a b, less a b = true -> less b a = false.
Hypothesis less_negtrans :
  forall a b c, less a b = false -> less b c = false -> less a c = false.

Lemma insertBack_sorted x r :
  backSorted less r -> backSorted less (insertBack less x r).
Proof.
  unfold backSorted.
  induction 1 as [|y r Hs IH Hy]; simpl.
  - repeat constructor.
  - destruct (less x y) eqn:E.
    + constructor; trivial.
      apply (Permutation_Forall (insertBack_perm less x r)).
      constructor; [now apply less_asym|exact Hy].
    + constructor; [now constructor|].
      constructor; trivial.
      eapply Forall_impl; [|exact Hy]. simpl. intros z Hz.
      now apply (less_negtrans x y z).
Qed.

Lemma insertion_sorted l acc :
  backSorted less acc ->
  backSorted less (fold_left (fun acc x => insertBack less x acc) l acc).
Proof.
  revert acc; induction l as [|x l IH]; intros acc H; simpl; trivial.
  apply IH. now apply insertBack_sorted.
Qed.

Lemma backSorted_last r m :
  backSorted less (r ++ [m]) -> Forall (fun y => less y m = false) (r ++ [m]).
Proof.
  unfold backSorted. induction r as [|y r IH]; simpl; intros H.
  - constructor; [|constructor].
    destruct (less m m) eqn:E; trivial. now rewrite (less_asym _ _ E) in E.
  - inversion H as [|? ? Hs Hy]; subst. constructor.
    + apply Forall_app in Hy. destruct Hy as [_ Hm]. now inversion Hm.
    + now apply IH.
Qed.

(** The first element of the sorted slice is an element of the slice
    that no element is before. *)
Lemma sortSlice_head l first rest :
  sortSlice less l = first :: rest ->
  In first l /\ forall y, In y l -> less y first = false.
Proof.
  intros E. pose proof (sortSlice_perm less l) as P.
  split.
  - apply (Permutation_in _ (Permutation_sym P)). rewrite E. now left.
  - intros y Hy. unfold sortSlice in E.
    pose proof (insertion_sorted l [] (SSorted_nil _)) as S.
    set (acc := fold_left (fun acc x => insertBack less x acc) l []) in *.
    assert (Ea : acc = (rev rest ++ [first])%list).
    { rewrite <- (rev_involutive acc), E. reflexivity. }
    rewrite Ea in S. apply backSorted_last in S.
    rewrite Forall_forall in S. apply S.
    rewrite <- Ea. apply in_rev. fold (sortSlice less l).
    now apply (Permutation_in _ P).
Qed.

Lemma sortSlice_nonempty l : l <> [] -> sortSlice less l <> [].
Proof.
  intros H E. pose proof (sortSlice_perm less l) as P. rewrite E in P.
  apply Permutation_sym, Permutation_nil in P. contradiction.
Qed.

End SortedHead.

Lemma Before_spec a b :
  Before a b = true
  <-> (year a < year b
       \/ (year a = year b
           /\ (month a < month b \/ (month a = month b /\ day a < day b))))%Z.
Proof.
  unfold Before.
  repeat first [ rewrite orb_true_iff | rewrite andb_true_iff
               | rewrite Z.ltb_lt | rewrite Z.eqb_eq ].
  reflexivity.
Qed.

Lemma Before_false a b :
  Before a b = false
  <-> ~ (year a < year b
         \/ (year a = year b
             /\ (month a < month b \/ (month a = month b /\ day a < day b))))%Z.
Proof. rewrite <- Before_spec. symmetry. apply not_true_iff_false. Qed.

Lemma Before_asym a b : Before a b = true -> Before b a = false.
Proof. rewrite Before_spec, Before_false. lia. Qed.

Lemma Before_negtrans a b c :
  Before a b = false -> Before b c = false -> Before a c = false.
Proof. rewrite !Before_false. lia. Qed.

Lemma validFilesOf_in beforeDate files fd :
  In fd (validFilesOf beforeDate files)
  <-> exists f, In f files /\ candidate beforeDate f = Some fd.
Proof.
  induction files as [|f files IH]; simpl.
  - split; [tauto|]. now intros (? & [] & _).
  - destruct (candidate beforeDate f) as [fd'|] eqn:E; simpl; rewrite ?IH.
    + split.
      * intros [<-|(name & Hn & Hc)]; [exists f; auto|exists name; auto].
      * intros (name & [<-|Hn] & Hc).
        -- left. congruence.
        -- right. now exists name.
    + split.
      * intros (name & Hn & Hc). exists name; auto.
      * intros (name & [<-|Hn] & Hc); [congruence|now exists name].
Qed.

Lemma candidate_considered fs p beforeDate files fd :
  glob fs (notesDir p) (notePattern p) = Matches files ->
  In fd (validFilesOf beforeDate files)
  <-> considered fs p beforeDate (path fd) (date fd).
Proof.
  intros G. rewrite validFilesOf_in. unfold considered, candidate.
  rewrite G. split.
  - intros (f & Hf & Hc).
    destruct (dateRegexSubmatch (Base f)) as [m|] eqn:Em; [|discriminate].
    destruct (ParseISO m) as [d|] eqn:Ed; [|discriminate].
    destruct (Before d beforeDate) eqn:Eb; [|discriminate].
    injection Hc as <-. simpl. split.
    + exists files. now split.
    + exists m. now rewrite Em, Ed.
  - intros ((files' & Ef & Hf) & m & Em & Ed & Eb).
    injection Ef as <-. exists (path fd). split; [exact Hf|].
    rewrite Em, Ed, Eb. now destruct fd.
Qed.

Lemma FindMostRecentNote_by_valid fs p beforeDate files :
  glob fs (notesDir p) (notePattern p) = Matches files ->
  FindMostRecentNote fs p beforeDate
  = match sortSlice (fun a b => After (date a) (date b))
            (validFilesOf beforeDate files) with
    | first :: _ => ParseFile (path first) (openPath fs (path first))
    | [] => (None, None)
    end.
Proof.
  intros G. unfold FindMostRecentNote. rewrite G.
  destruct files as [|f fl]; [reflexivity|].
  destruct (validFilesOf beforeDate (f :: fl)) as [|v vl]; reflexivity.
Qed.

Lemma FindMostRecentNote_none fs p beforeDate :
  (forall f d, ~ considered fs p beforeDate f d) ->
  FindMostRecentNote fs p beforeDate
  = (None,
     match glob fs (notesDir p) (notePattern p) with
     | Matches _ => None
     | BadPattern => Some ErrBadPattern
     end).
Proof.
  intros H.
  destruct (glob fs (notesDir p) (notePattern p)) as [files|] eqn:G.
  2:{ unfold FindMostRecentNote. now rewrite G. }
  rewrite (FindMostRecentNote_by_valid _ _ _ _ G).
  destruct (validFilesOf beforeDate files) as [|fd fds] eqn:Ev;
    [reflexivity|].
  exfalso.
  assert (I : In fd (validFilesOf beforeDate files))
    by (rewrite Ev; now left).
  apply (candidate_considered fs p beforeDate files fd G) in I.
  exact (H _ _ I).
Qed.

Lemma FindMostRecentNote_some fs p beforeDate f0 d0 :
  considered fs p beforeDate f0 d0 ->
  exists f d,
    considered fs p beforeDate f d
    /\ (forall f' d', considered fs p beforeDate f' d' ->
                      After d' d = false)
    /\ FindMostRecentNote fs p beforeDate = ParseFile f (openPath fs f).
Proof.
  intros H0.
  destruct (proj1 H0) as (files & G & _).
  rewrite (FindMostRecentNote_by_valid _ _ _ _ G).
  set (valid := validFilesOf beforeDate files).
  assert (I0 : In (mkFileDate f0 d0) valid).
  { now apply (candidate_considered fs p beforeDate files _ G). }
  assert (Hv : valid <> []) by (intros E; rewrite E in I0; exact I0).
  set (less := fun a b : fileDate => After (date a) (date b)).
  destruct (sortSlice less valid) as [|first rest] eqn:Es.
  { exfalso. now apply (sortSlice_nonempty less valid Hv). }
  assert (Asym : forall a b, less a b = true -> less b a = false).
  { intros a b. unfold less, After. apply Before_asym. }
  assert (Neg : forall a b c,
             less a b = false -> less b c = false -> less a c = false).
  { intros a b c. unfold less, After. intros X Y.
    exact (Before_negtrans _ _ _ Y X). }
  destruct (sortSlice_head less Asym Neg valid first rest Es) as [If Hmax].
  apply (candidate_considered fs p beforeDate files _ G) in If.
  exists (path first), (date first). split; [exact If|]. split.
  - intros f' d' Hc'.
    apply (Hmax (mkFileDate f' d')).
    now apply (candidate_considered fs p beforeDate files _ G).
  - reflexivity.
Qed.

(** C3. [FindMostRecentNote] chooses among the files that
    [filepath.Glob] returns for the workplace's pattern in the notes
    directory and whose base name starts with a date that parses and is
    strictly before the query date: with no such file it returns no note
    (and no error, unless [filepath.Glob] reports a malformed pattern,
    whose error it returns); otherwise it returns what [ParseFile] gives
    for such a file whose date no other such file's date is after.  With
    notes of January 15, 17 and 18, the query January 19 gives the note
    of the 18th, the query January 16 the note of the 15th, and the query
    January 15 nothing. *)
Theorem FindMostRecentNote_latest_before :
  (forall fs p beforeDate,
      (forall f d, ~ considered fs p beforeDate f d) ->
      FindMostRecentNote fs p beforeDate
      = (None,
         match glob fs (notesDir p) (notePattern p) with
         | Matches _ => None
         | BadPattern => Some ErrBadPattern
         end))
  /\ (forall fs p beforeDate f0 d0,
      considered fs p beforeDate f0 d0 ->
      exists f d,
        considered fs p beforeDate f d
        /\ (forall f' d', considered fs p beforeDate f' d' ->
                          After d' d = false)
        /\ FindMostRecentNote fs p beforeDate
           = ParseFile f (openPath fs f))
  /\ FindMostRecentNote acmeFiles acme (jan 19) = (Some (noteOf "18" 18), None)
  /\ FindMostRecentNote acmeFiles acme (jan 16) = (Some (noteOf "15" 15), None)
  /\ FindMostRecentNote acmeFiles acme (jan 15) = (None, None).
Proof.
  split; [exact FindMostRecentNote_none|].
  split; [exact FindMostRecentNote_some|].
  repeat split; vm_compute; reflexivity.
Qed.

Lemma FindMostRecentNote_latest_before_witness :
  FindMostRecentNote acmeFiles acme (jan 15) = (None, None)
  /\ exists f d,
      considered acmeFiles acme (jan 19) f d
      /\ (forall f' d', considered acmeFiles acme (jan 19) f' d' ->
                        After d' d = false)
      /\ FindMostRecentNote acmeFiles acme (jan 19)
         = ParseFile f (openPath acmeFiles f).
Proof.
  destruct FindMostRecentNote_latest_before as (H1 & H2 & _).
  split.
  - apply (H1 acmeFiles acme (jan 15)).
    intros f d ((files & G & Hin) & m & Em & Ed & Eb).
    vm_compute in G. injection G as <-. simpl in Hin.
    repeat (destruct Hin as [<-|Hin];
      [vm_compute in Em; try discriminate; injection Em as <-;
       vm_compute in Ed; try discriminate; injection Ed as <-;
       vm_compute in Eb; discriminate|]).
    exact Hin.
  - apply (H2 acmeFiles acme (jan 19) "notes/2025-01-15-Acme.md" (jan 15)).
    split.
    + eexists. split; [vm_compute; reflexivity|]. simpl. tauto.
    + exists "2025-01-15". repeat split; reflexivity.
Defined.

(** ** Writing a note and reading it back *)

(** *** Texts that trimming leaves alone *)

Lemma isSpaceRune_ascii_cons a b t :
  isAscii a = true -> isSpaceRune (String a (String b t)) = false.
Proof.
  unfold isAscii. rewrite N.ltb_lt. intros H.
  destruct t as [|c [|d t]]; simpl; trivial.
  - unfold isSpace2. destruct (N.eqb_spec (code a) 194); [lia|reflexivity].
  - unfold isSpace3.
    destruct (N.eqb_spec (code a) 225); [lia|].
    destruct (N.eqb_spec (code a) 226); [lia|].
    destruct (N.eqb_spec (code a) 227); [lia|reflexivity].
Qed.

Lemma trimRight_ascii_cons a r :
  isAscii a = true -> trimRight r <> EmptyString ->
  trimRight (String a r) = String a (trimRight r).
Proof.
  intros Ha Hr.
  change (trimRight (String a r))
    with (if isSpaceRune (String a (trimRight r)) then EmptyString
          else String a (trimRight r)).
  destruct (trimRight r) as [|b t]; [contradiction|].
  now rewrite isSpaceRune_ascii_cons.
Qed.

Lemma trimRight_after_ascii p x :
  allAscii p = true -> trimRight x <> EmptyString ->
  trimRight (p ++ x) = p ++ trimRight x.
Proof.
  induction p as [|a p IH]; simpl; intros Hp Hx; [reflexivity|].
  apply andb_true_iff in Hp. destruct Hp as [Ha Hp].
  change (trimRight (String a (p ++ x)) = String a (p ++ trimRight x)).
  rewrite trimRight_ascii_cons, IH; trivial.
  rewrite IH; trivial. destruct p; simpl; [exact Hx|discriminate].
Qed.

Lemma trimRight_allPlain s : allPlain s = true -> trimRight s = s.
Proof.
  induction s as [|a s IH]; simpl; intros H; [reflexivity|].
  apply andb_true_iff in H. destruct H as [Ha Hs].
  change (trimRight (String a s) = String a s).
  now rewrite trimRight_plain, IH.
Qed.

Lemma TrimSpace_allPlain s : allPlain s = true -> TrimSpace s = s.
Proof.
  intros H. destruct s as [|a s]; [reflexivity|].
  pose proof H as H'. simpl in H'. apply andb_true_iff in H'.
  destruct H' as [Ha Hs].
  rewrite TrimSpace_plain; trivial. now rewrite trimRight_allPlain.
Qed.

(** *** Dates *)

Lemma digit_cases k :
  (0 <= k < 10)%Z ->
  k = 0%Z \/ k = 1%Z \/ k = 2%Z \/ k = 3%Z \/ k = 4%Z \/ k = 5%Z \/ k = 6%Z
  \/ k = 7%Z \/ k = 8%Z \/ k = 9%Z.
Proof. lia. Qed.

Ltac each_digit k H :=
  destruct (digit_cases k H) as
    [-> | [-> | [-> | [-> | [-> | [-> | [-> | [-> | [-> | ->]]]]]]]]].

Lemma digitChar_plain k : (0 <= k < 10)%Z -> plain (digitChar k) = true.
Proof. intros H. each_digit k H; reflexivity. Qed.

Lemma digitChar_isDigit k : (0 <= k < 10)%Z -> isDigit (digitChar k) = true.
Proof. intros H. each_digit k H; reflexivity. Qed.

Lemma digitVal_digitChar k : (0 <= k < 10)%Z -> digitVal (digitChar k) = Some k.
Proof. intros H. each_digit k H; reflexivity. Qed.

Lemma mod10_range n : (0 <= n mod 10 < 10)%Z.
Proof. apply Z.mod_pos_bound. lia. Qed.

Lemma num2_fmt n :
  (0 <= n < 100)%Z ->
  num2 (digitChar (n / 10 mod 10)) (digitChar (n mod 10)) = Some n.
Proof.
  intros H. unfold num2.
  rewrite !digitVal_digitChar by apply mod10_range.
  f_equal. Z.div_mod_to_equations. lia.
Qed.

Lemma num4_fmt n :
  (0 <= n < 10000)%Z ->
  num4 (digitChar (n / 1000 mod 10)) (digitChar (n / 100 mod 10))
       (digitChar (n / 10 mod 10)) (digitChar (n mod 10)) = Some n.
Proof.
  intros H. unfold num4, num2.
  rewrite !digitVal_digitChar by apply mod10_range.
  f_equal. Z.div_mod_to_equations. lia.
Qed.

Lemma validDate_bounds t :
  validDate t = true ->
  (0 <= year t <= 9999 /\ 1 <= month t <= 12
   /\ 1 <= day t <= daysIn (month t) (year t))%Z.
Proof.
  unfold validDate. rewrite !andb_true_iff, !Z.leb_le. tauto.
Qed.

Lemma daysIn_le_31 m y : (daysIn m y <= 31)%Z.
Proof.
  unfold daysIn.
  destruct (m =? 2)%Z; [destruct (isLeap y); lia|].
  destruct ((m =? 4) || (m =? 6) || (m =? 9) || (m =? 11))%Z; lia.
Qed.

(** A valid date is parsed back from its format. *)
Lemma ParseISO_FormatISO t :
  validDate t = true -> ParseISO (FormatISO t) = Some t.
Proof.
  intros H. destruct (validDate_bounds t H) as (Hy & Hm & Hd).
  pose proof (daysIn_le_31 (month t) (year t)) as H31.
  unfold FormatISO, fmt4, fmt2, ParseISO.
  rewrite num4_fmt, !num2_fmt by lia.
  destruct t as [y m d]; simpl in *.
  destruct (Z.leb_spec 1 m); [|lia]. destruct (Z.leb_spec m 12); [|lia].
  destruct (Z.leb_spec 1 d); [|lia].
  destruct (Z.leb_spec d (daysIn m y)); [|lia].
  reflexivity.
Qed.

Lemma allPlain_FormatISO t : allPlain (FormatISO t) = true.
Proof.
  unfold FormatISO, fmt4, fmt2. cbn [allPlain].
  rewrite !digitChar_plain by apply mod10_range. reflexivity.
Qed.

(** *** Lines written and lines scanned *)

Lemma rawLines_line l rest :
  hasByte LF l = false ->
  rawLines (l ++ nl ++ rest) = l :: rawLines rest.
Proof.
  induction l as [|a l IH]; intros H.
  - reflexivity.
  - simpl in H. apply orb_false_iff in H. destruct H as [Ha Hl].
    change (String a l ++ nl ++ rest) with (String a (l ++ nl ++ rest)).
    cbn [rawLines]. rewrite Ha, (IH Hl). reflexivity.
Qed.

Lemma rawLines_joinLines ls :
  forallb lineOK ls = true -> rawLines (joinLines ls) = ls.
Proof.
  induction ls as [|l ls IH]; cbn [joinLines forallb]; intros H;
    [reflexivity|].
  apply andb_true_iff in H. destruct H as [Hl Hls].
  unfold lineOK in Hl. rewrite !andb_true_iff, negb_true_iff in Hl.
  destruct Hl as [[Hl _] _].
  now rewrite rawLines_line, IH.
Qed.

Lemma scanTokens_ok ls :
  forallb lineOK ls = true -> scanTokens ls = (ls, None).
Proof.
  intros H. rewrite scanTokens_short.
  - f_equal. induction ls as [|l ls IH]; simpl in *; [reflexivity|].
    apply andb_true_iff in H. destruct H as [Hl Hls].
    unfold lineOK in Hl. rewrite !andb_true_iff in Hl.
    destruct Hl as [[_ Hc] _]. apply String.eqb_eq in Hc.
    now rewrite Hc, IH.
  - rewrite forallb_forall in H. apply Forall_forall. intros l Hl.
    specialize (H l Hl). unfold lineOK in H. rewrite !andb_true_iff in H.
    now apply Nat.ltb_lt.
Qed.

Lemma Decode_joinLines filePath ls :
  forallb lineOK ls = true ->
  Decode filePath (joinLines ls) = (Some (note (parseLines filePath ls)), None).
Proof.
  intros H. unfold Decode, ParseFile.
  now rewrite rawLines_joinLines, scanTokens_ok.
Qed.

(** *** One line at a time *)

Lemma line_rule m ip ic :
  parseLine (mkParseState m false ip ic) "---" = mkParseState m true ip ic
  /\ parseLine (mkParseState m true ip ic) "---" = mkParseState m false ip ic.
Proof. split; reflexivity. Qed.

Lemma line_id m ip ic x :
  parseLine (mkParseState m true ip ic) ("id: " ++ x)
  = mkParseState (setID m (TrimSpace x)) true ip ic.
Proof. reflexivity. Qed.

Lemma line_date m ip ic x :
  parseLine (mkParseState m true ip ic) ("date: " ++ x)
  = mkParseState
      match ParseISO (TrimSpace x) with Some t => setDate m t | None => m end
      true ip ic.
Proof. reflexivity. Qed.

Lemma line_bullet m ip ic x :
  parseLine (mkParseState m true ip ic) (bullet x)
  = mkParseState (setTags m (Tags m ++ [TrimSpace x])) true ip ic.
Proof. reflexivity. Qed.

Lemma line_title m ip ic x :
  parseLine (mkParseState m false ip ic) ("# " ++ x)
  = mkParseState (setTitle m x) false ip ic.
Proof. reflexivity. Qed.

Lemma line_summary m ip ic x :
  parseLine (mkParseState m false ip ic) ("summary:: " ++ x)
  = mkParseState (setSummary m (TrimSpace x)) false ip ic.
Proof. reflexivity. Qed.

Lemma line_yesterday m ip ic x :
  parseLine (mkParseState m false ip ic) ("yesterday's summary:: " ++ x)
  = mkParseState (setYesterdaySummary m (TrimSpace x)) false ip ic.
Proof. reflexivity. Qed.

Lemma line_pending_item m line item :
  parseWorkItem line = Some item ->
  parseLine (mkParseState m false true false) line
  = mkParseState (setPendingWork m (PendingWork m ++ [item])) false true false.
Proof.
  intros H.
  destruct (parseWorkItem_Some_other_rules _ _ H) as (E1 & E2 & E3 & E4 & E5 & E6).
  unfold parseLine. simpl. now rewrite E1, E2, E3, E4, E5, E6, H.
Qed.

Lemma line_completed_item m line item :
  parseWorkItem line = Some item ->
  parseLine (mkParseState m false false true) line
  = mkParseState (setCompletedWork m (CompletedWork m ++ [item]))
                 false false true.
Proof.
  intros H.
  destruct (parseWorkItem_Some_other_rules _ _ H) as (E1 & E2 & E3 & E4 & E5 & E6).
  unfold parseLine. simpl. now rewrite E1, E2, E3, E4, E5, E6, H.
Qed.

Lemma TrimSpace_checkbox p t :
  allAscii p = true -> (exists a r, p = String a r /\ plain a = true) ->
  itemText t -> TrimSpace (p ++ t) = p ++ t.
Proof.
  intros Hp (a & r & -> & Ha) [Hne Ht].
  unfold TrimSpace.
  change (String a r ++ t) with (String a (r ++ t)).
  rewrite trimLeft_plain by exact Ha.
  change (String a (r ++ t)) with (String a r ++ t).
  rewrite trimRight_after_ascii, Ht; trivial. now rewrite Ht.
Qed.

Lemma parseWorkItem_pendingLine it :
  itemText (Text it) ->
  parseWorkItem (pendingLine it) = Some (mkWorkItem (Text it) false).
Proof.
  intros H. unfold parseWorkItem, pendingLine.
  assert (E : TrimSpace ("- [ ] " ++ Text it) = "- [ ] " ++ Text it).
  { apply TrimSpace_checkbox; trivial. now exists "-"%char, " [ ] ". }
  now rewrite E, HasPrefix_app, TrimPrefix_app.
Qed.

Lemma parseWorkItem_completedLine it :
  itemText (Text it) -> HasPrefix (Text it) "- [X] " = false ->
  parseWorkItem (completedLine it) = Some (mkWorkItem (Text it) true).
Proof.
  intros H Hx. unfold parseWorkItem, completedLine.
  assert (E : TrimSpace ("- [x] " ++ Text it) = "- [x] " ++ Text it).
  { apply TrimSpace_checkbox; trivial. now exists "-"%char, " [x] ". }
  rewrite E, (HasPrefix_app "- [x] "), (TrimPrefix_app "- [x] ").
  rewrite (TrimPrefix_no_prefix _ _ Hx). reflexivity.
Qed.

Lemma line_blank m ip ic :
  parseLine (mkParseState m false ip ic) "" = mkParseState m false ip ic.
Proof. destruct ip, ic; reflexivity. Qed.

Lemma line_keys m ip ic :
  parseLine (mkParseState m true ip ic) "aliases: []" = mkParseState m true ip ic
  /\ parseLine (mkParseState m true ip ic) "tags:" = mkParseState m true ip ic.
Proof. split; reflexivity. Qed.

Lemma line_headings m ip ic :
  parseLine (mkParseState m false ip ic) "## Pending Work"
  = mkParseState m false true false
  /\ parseLine (mkParseState m false ip ic) "## Work Completed"
     = mkParseState m false false true.
Proof. split; reflexivity. Qed.

Lemma fold_bullets tags :
  forall m ip ic,
    Forall (fun t => TrimSpace t = t) tags ->
    fold_left parseLine (map bullet tags) (mkParseState m true ip ic)
    = mkParseState (setTags m (Tags m ++ tags)) true ip ic.
Proof.
  induction tags as [|t tags IH]; intros m ip ic H; cbn [map fold_left].
  - rewrite app_nil_r. now destruct m.
  - inversion H as [|? ? Ht H']; subst.
    rewrite line_bullet, IH, Ht by exact H'.
    unfold setTags; simpl. now rewrite <- app_assoc.
Qed.

Lemma fold_summary m ip ic s :
  TrimSpace s = s -> Summary m = "" ->
  fold_left parseLine (summaryLines "summary::" s) (mkParseState m false ip ic)
  = mkParseState (setSummary m s) false ip ic.
Proof.
  intros Hs Hm. unfold summaryLines.
  destruct (String.eqb_spec s "") as [->|_]; cbn [fold_left].
  - destruct m; simpl in *; now subst.
  - change ("summary::" ++ " " ++ s) with ("summary:: " ++ s).
    now rewrite line_summary, line_blank, Hs.
Qed.

Lemma fold_yesterday m ip ic s :
  TrimSpace s = s -> YesterdaySummary m = "" ->
  fold_left parseLine (summaryLines "yesterday's summary::" s)
            (mkParseState m false ip ic)
  = mkParseState (setYesterdaySummary m s) false ip ic.
Proof.
  intros Hs Hm. unfold summaryLines.
  destruct (String.eqb_spec s "") as [->|_]; cbn [fold_left].
  - destruct m; simpl in *; now subst.
  - change ("yesterday's summary::" ++ " " ++ s)
      with ("yesterday's summary:: " ++ s).
    now rewrite line_yesterday, line_blank, Hs.
Qed.

Lemma fold_pendingLines items :
  forall m,
    Forall (fun it => itemText (Text it)) items ->
    fold_left parseLine (map pendingLine items)
              (mkParseState m false true false)
    = mkParseState (setPendingWork m (PendingWork m ++ map unchecked items))
                   false true false.
Proof.
  induction items as [|it items IH]; intros m H; cbn [map fold_left].
  - rewrite app_nil_r. now destruct m.
  - inversion H as [|? ? Ht H']; subst.
    rewrite (line_pending_item m _ _ (parseWorkItem_pendingLine it Ht)).
    rewrite IH by exact H'.
    unfold setPendingWork; simpl. now rewrite <- app_assoc.
Qed.

Lemma fold_completedLines items :
  forall m,
    Forall (fun it => itemText (Text it)
                      /\ HasPrefix (Text it) "- [X] " = false) items ->
    fold_left parseLine (map completedLine items)
              (mkParseState m false false true)
    = mkParseState (setCompletedWork m (CompletedWork m ++ map checked items))
                   false false true.
Proof.
  induction items as [|it items IH]; intros m H; cbn [map fold_left].
  - rewrite app_nil_r. now destruct m.
  - inversion H as [|? ? [Ht Hx] H']; subst.
    rewrite (line_completed_item m _ _ (parseWorkItem_completedLine it Ht Hx)).
    rewrite IH by exact H'.
    unfold setCompletedWork; simpl. now rewrite <- app_assoc.
Qed.

(** The lines of a note without aliases, read back. *)
Lemma parseLines_EncodeLines filePath id tags d title s ys pw cw fp :
  validDate d = true ->
  TrimSpace id = id ->
  Forall (fun t => TrimSpace t = t) tags ->
  TrimSpace s = s -> TrimSpace ys = ys ->
  Forall (fun it => itemText (Text it)) pw ->
  Forall (fun it => itemText (Text it)
                    /\ HasPrefix (Text it) "- [X] " = false) cw ->
  note (parseLines filePath
          (EncodeLines (mkNote id [] tags d title s ys pw cw fp)))
  = mkNote id [] tags d title s ys (map unchecked pw) (map checked cw)
           filePath.
Proof.
  intros Hd Hid Htags Hs Hys Hpw Hcw.
  unfold parseLines, EncodeLines, initialState, aliasLines, idLine, dateLine,
    titleLine.
  cbn [ID Aliases Tags Date Title Summary YesterdaySummary PendingWork
       CompletedWork].
  rewrite !fold_left_app. cbn [fold_left].
  rewrite (proj1 (line_rule _ _ _)), line_id, Hid.
  rewrite (proj1 (line_keys _ _ _)), (proj2 (line_keys _ _ _)).
  rewrite fold_bullets by exact Htags.
  rewrite line_date, (TrimSpace_allPlain _ (allPlain_FormatISO d)),
    (ParseISO_FormatISO d Hd).
  rewrite (proj2 (line_rule _ _ _)), line_blank, line_title, line_blank.
  rewrite fold_summary by (trivial || reflexivity).
  rewrite fold_yesterday by (trivial || reflexivity).
  rewrite (proj1 (line_headings _ _ _)), line_blank.
  rewrite fold_pendingLines by exact Hpw.
  rewrite line_blank, (proj2 (line_headings _ _ _)), line_blank.
  rewrite fold_completedLines by exact Hcw.
  reflexivity.
Qed.

(** *** Notes made by the program's operations *)

Lemma Forall_firstn_skipn {A} (P : A -> Prop) l :
  Forall P l -> forall k, Forall P (firstn k l) /\ Forall P (skipn k l).
Proof.
  induction 1 as [|x l Hx Hl IH]; intros [|k]; simpl; repeat split;
    try constructor; trivial; apply IH.
Qed.

Lemma Forall_removeAt {A} (P : A -> Prop) i l :
  Forall P l -> Forall P (removeAt i l).
Proof.
  intros H. unfold removeAt. apply Forall_app. split.
  - apply (Forall_firstn_skipn P l H).
  - apply (Forall_firstn_skipn P l H).
Qed.

Lemma built_wellMarked n : built n -> wellMarked n.
Proof.
  unfold wellMarked.
  induction 1 as [d w|n p _ IH|n t _ IH|n t _ IH|n i _ IH|n i _ IH|n i _ IH
                 |n s _ IH|n s _ IH];
    try destruct IH as (Ha & Hp & Hc); simpl.
  - repeat split; constructor.
  - tauto.
  - repeat split; trivial. apply Forall_app. split; trivial.
    now repeat constructor.
  - repeat split; trivial. apply Forall_app. split; trivial.
    now repeat constructor.
  - unfold MarkItemCompleted.
    destruct (inBounds i (PendingWork n)); [|tauto].
    destruct (nth_error (PendingWork n) (Z.to_nat i)); [|tauto].
    simpl. repeat split; trivial.
    + now apply Forall_removeAt.
    + apply Forall_app. split; trivial. now repeat constructor.
  - unfold RemovePendingItem.
    destruct (inBounds i (PendingWork n)); [|tauto].
    simpl. repeat split; trivial. now apply Forall_removeAt.
  - unfold RemoveCompletedItem.
    destruct (inBounds i (CompletedWork n)); [|tauto].
    simpl. repeat split; trivial. now apply Forall_removeAt.
  - tauto.
  - tauto.
Qed.

Lemma map_unchecked l :
  Forall (fun it => Completed it = false) l -> map unchecked l = l.
Proof.
  induction 1 as [|[t c] l Hc _ IH]; simpl; [reflexivity|].
  simpl in Hc. subst c. now rewrite IH.
Qed.

Lemma map_checked l :
  Forall (fun it => Completed it = true) l -> map checked l = l.
Proof.
  induction 1 as [|[t c] l Hc _ IH]; simpl; [reflexivity|].
  simpl in Hc. subst c. now rewrite IH.
Qed.

(** C2 (as far as it holds; the writer is modelled from the spec).  For a
    note made by the program's own operations, whose date is a calendar
    date with a year of four digits, whose written lines come back from
    the scanner as they are (no line feed inside a field, no carriage
    return at the end of a line, lines shorter than the scanner's buffer),
    whose id, tags and summaries are not changed by trimming, whose item
    texts are not empty and do not end in white space, and whose completed
    texts do not themselves start with "- [X] ": decoding the encoded note
    succeeds and gives the same id, date, title, summary, yesterday's
    summary, pending work, completed work and tags. *)
Theorem Decode_Encode_round_trip (n : Note) (filePath : string) :
  built n ->
  validDate (Date n) = true ->
  forallb lineOK (EncodeLines n) = true ->
  TrimSpace (ID n) = ID n ->
  Forall (fun t => TrimSpace t = t) (Tags n) ->
  TrimSpace (Summary n) = Summary n ->
  TrimSpace (YesterdaySummary n) = YesterdaySummary n ->
  Forall (fun it => itemText (Text it)) (PendingWork n) ->
  Forall (fun it => itemText (Text it)
                    /\ HasPrefix (Text it) "- [X] " = false)
         (CompletedWork n) ->
  exists n',
    Decode filePath (Encode n) = (Some n', None)
    /\ ID n' = ID n /\ Date n' = Date n /\ Title n' = Title n
    /\ Summary n' = Summary n
    /\ YesterdaySummary n' = YesterdaySummary n
    /\ PendingWork n' = PendingWork n
    /\ CompletedWork n' = CompletedWork n
    /\ Tags n' = Tags n.
Proof.
  intros Hb Hd Hl Hid Htags Hs Hys Hpw Hcw.
  destruct (built_wellMarked n Hb) as (Ha & Hp & Hc).
  unfold Encode. rewrite (Decode_joinLines _ _ Hl).
  eexists. split; [reflexivity|].
  destruct n as [id al tags d title s ys pw cw fp]; simpl in *. subst al.
  rewrite parseLines_EncodeLines; trivial. simpl.
  rewrite (map_unchecked _ Hp), (map_checked _ Hc).
  repeat split.
Qed.

Lemma built_workedNote : built workedNote.
Proof. unfold workedNote. repeat constructor. Qed.

Lemma Decode_Encode_round_trip_witness :
  exists n',
    Decode "notes/2025-01-19-Acme.md" (Encode workedNote) = (Some n', None)
    /\ ID n' = ID workedNote /\ Date n' = Date workedNote
    /\ Title n' = Title workedNote
    /\ Summary n' = Summary workedNote
    /\ YesterdaySummary n' = YesterdaySummary workedNote
    /\ PendingWork n' = PendingWork workedNote
    /\ CompletedWork n' = CompletedWork workedNote
    /\ Tags n' = Tags workedNote.
Proof.
  apply (Decode_Encode_round_trip workedNote "notes/2025-01-19-Acme.md").
  - exact built_workedNote.
  - reflexivity.
  - vm_compute. reflexivity.
  - reflexivity.
  - repeat constructor.
  - reflexivity.
  - reflexivity.
  - repeat constructor; discriminate.
  - repeat constructor; discriminate.
Defined.

(** The note is made by the operations, has both summaries, a pending and
    a completed item, and yet its pending work is not read back as it
    was: the space at the end of the text is lost. *)
Lemma Decode_Encode_loses_trailing_space :
  built trailingSpaceNote
  /\ Summary trailingSpaceNote <> ""
  /\ YesterdaySummary trailingSpaceNote <> ""
  /\ PendingWork trailingSpaceNote <> []
  /\ CompletedWork trailingSpaceNote <> []
  /\ exists n',
      Decode "notes/2025-01-19-Acme.md" (Encode trailingSpaceNote)
      = (Some n', None)
      /\ PendingWork n' = [mkWorkItem "call Bob" false]
      /\ PendingWork n' <> PendingWork trailingSpaceNote.
Proof.
  split; [unfold trailingSpaceNote; repeat constructor|].
  repeat (split; [discriminate|]).
  eexists. split; [vm_compute; reflexivity|].
  split; [reflexivity|]. simpl. discriminate.
Qed.

(** ** File names

    The name [GenerateFilename] gives to the note of a date is among the
    files [FindMostRecentNote] considers for every later query date. *)

Lemma length_append (a b : string) :
  String.length (a ++ b) = (String.length a + String.length b)%nat.
Proof. induction a as [|x a IH]; simpl; [reflexivity|]. now rewrite IH. Qed.

Lemma substring_whole (b : string) : substring 0 (String.length b) b = b.
Proof. induction b as [|x b IH]; simpl; [reflexivity|]. now rewrite IH. Qed.

Lemma substring_after (a b : string) :
  substring (String.length a) (String.length b) (a ++ b) = b.
Proof.
  induction a as [|x a IH]; simpl; [apply substring_whole|exact IH].
Qed.

Lemma HasSuffix_app (a b : string) : HasSuffix (a ++ b) b = true.
Proof.
  unfold HasSuffix. rewrite length_append.
  replace (String.length a + String.length b - String.length b)%nat
    with (String.length a) by lia.
  rewrite substring_after, String.eqb_refl.
  destruct (Nat.leb_spec (String.length b) (String.length a + String.length b));
    [reflexivity|lia].
Qed.

Lemma hasByte_app x (a b : string) :
  hasByte x (a ++ b) = hasByte x a || hasByte x b.
Proof.
  induction a as [|y a IH]; simpl; [reflexivity|].
  now rewrite IH, orb_assoc.
Qed.

Lemma generated_name_matches d w :
  hasByte LF w = false ->
  dateRegexSubmatch (GenerateFilename d w) = Some (FormatISO d).
Proof.
  intros Hw.
  unfold GenerateFilename, FormatISO, fmt4, fmt2. cbn [append].
  unfold dateRegexSubmatch.
  rewrite !digitChar_isDigit by apply mod10_range.
  rewrite hasByte_app, Hw, HasSuffix_app. reflexivity.
Qed.

Lemma generated_name_considered fs p d beforeDate files f :
  validDate d = true -> hasByte LF (workplaceName p) = false ->
  glob fs (notesDir p) (notePattern p) = Matches files ->
  In f files ->
  Base f = GenerateFilename d (workplaceName p) ->
  Before d beforeDate = true ->
  considered fs p beforeDate f d.
Proof.
  intros Hd Hw G Hin Hb Hbefore. split.
  - exists files. now split.
  - exists (FormatISO d). rewrite Hb, (generated_name_matches d _ Hw).
    now rewrite (ParseISO_FormatISO d Hd).
Qed.

(* ================================================================= *)
(** * Further properties of the note model *)

Lemma note_eta (n : Note) : setPendingWork n (PendingWork n) = n.
Proof. now destruct n. Qed.

(** X1. [RemovePendingItem] and [RemoveCompletedItem] with an index out of
    bounds return the note as it is; with an index in bounds they remove
    the item at that position from their list, keep the other items in
    order and change nothing else. *)
Theorem Remove_item_at_index (n : Note) (i : Z) :
  ((i < 0 \/ Z.of_nat (List.length (PendingWork n)) <= i)%Z ->
   RemovePendingItem n i = n)
  /\ ((i < 0 \/ Z.of_nat (List.length (CompletedWork n)) <= i)%Z ->
      RemoveCompletedItem n i = n)
  /\ ((0 <= i < Z.of_nat (List.length (PendingWork n)))%Z ->
      exists l1 item l2,
        PendingWork n = (l1 ++ item :: l2)%list
        /\ Z.of_nat (List.length l1) = i
        /\ RemovePendingItem n i = setPendingWork n (l1 ++ l2))
  /\ ((0 <= i < Z.of_nat (List.length (CompletedWork n)))%Z ->
      exists l1 item l2,
        CompletedWork n = (l1 ++ item :: l2)%list
        /\ Z.of_nat (List.length l1) = i
        /\ RemoveCompletedItem n i = setCompletedWork n (l1 ++ l2)).
Proof.
  unfold RemovePendingItem, RemoveCompletedItem. repeat apply conj.
  - intros H. now rewrite (proj2 (inBounds_false i (PendingWork n)) H).
  - intros H. now rewrite (proj2 (inBounds_false i (CompletedWork n)) H).
  - intros H.
    destruct (split_at_index _ i H) as (l1 & x & l2 & Hl & Hlen & _).
    exists l1, x, l2.
    rewrite (proj2 (inBounds_true i (PendingWork n)) H).
    repeat split; trivial. now rewrite Hl, <- Hlen, removeAt_middle.
  - intros H.
    destruct (split_at_index _ i H) as (l1 & x & l2 & Hl & Hlen & _).
    exists l1, x, l2.
    rewrite (proj2 (inBounds_true i (CompletedWork n)) H).
    repeat split; trivial. now rewrite Hl, <- Hlen, removeAt_middle.
Qed.

Lemma Remove_item_at_index_witness :
  RemovePendingItem sampleNote 3 = sampleNote
  /\ RemoveCompletedItem sampleNote (-1) = sampleNote
  /\ (exists l1 item l2,
        PendingWork sampleNote = (l1 ++ item :: l2)%list
        /\ Z.of_nat (List.length l1) = 1%Z
        /\ RemovePendingItem sampleNote 1 = setPendingWork sampleNote (l1 ++ l2))
  /\ (exists l1 item l2,
        CompletedWork sampleNote = (l1 ++ item :: l2)%list
        /\ Z.of_nat (List.length l1) = 0%Z
        /\ RemoveCompletedItem sampleNote 0
           = setCompletedWork sampleNote (l1 ++ l2)).
Proof.
  split; [|split; [|split]].
  - apply (proj1 (Remove_item_at_index sampleNote 3)). right. simpl. lia.
  - apply (proj1 (proj2 (Remove_item_at_index sampleNote (-1)))). left. lia.
  - apply (proj1 (proj2 (proj2 (Remove_item_at_index sampleNote 1)))).
    simpl. lia.
  - apply (proj2 (proj2 (proj2 (Remove_item_at_index sampleNote 0)))).
    simpl. lia.
Defined.

Lemma last_index_in_bounds {A} (l : list A) (x : A) :
  inBounds (Z.of_nat (List.length l)) (l ++ [x]) = true.
Proof. apply inBounds_true. rewrite length_app. simpl. lia. Qed.

Lemma removeAt_last {A} (l : list A) (x : A) :
  removeAt (Z.of_nat (List.length l)) (l ++ [x]) = l.
Proof. rewrite removeAt_middle. apply app_nil_r. Qed.

(** X2. An item just added to the pending work stands at the last index:
    removing it there gives the note back, and marking it completed there
    gives the note that [AddCompletedItem] builds from the same text. *)
Theorem Add_then_remove_or_mark (n : Note) (text : string) :
  let last := Z.of_nat (List.length (PendingWork n)) in
  RemovePendingItem (AddPendingItem n text) last = n
  /\ MarkItemCompleted (AddPendingItem n text) last = AddCompletedItem n text
  /\ RemoveCompletedItem (AddCompletedItem n text)
       (Z.of_nat (List.length (CompletedWork n))) = n.
Proof.
  cbv zeta. repeat apply conj.
  - unfold RemovePendingItem, AddPendingItem. simpl.
    rewrite last_index_in_bounds, removeAt_last. now destruct n.
  - unfold MarkItemCompleted, AddPendingItem. simpl.
    rewrite last_index_in_bounds, Nat2Z.id.
    rewrite nth_error_app2, Nat.sub_diag by lia. simpl.
    rewrite removeAt_last. now destruct n.
  - unfold RemoveCompletedItem, AddCompletedItem. simpl.
    rewrite last_index_in_bounds, removeAt_last. now destruct n.
Qed.

(** X3. In every note made by the program's operations on a fresh note
    the aliases are empty, no pending item is marked completed and every
    completed item is. *)
Theorem built_notes_are_well_marked (n : Note) :
  built n ->
  Aliases n = []
  /\ Forall (fun it => Completed it = false) (PendingWork n)
  /\ Forall (fun it => Completed it = true) (CompletedWork n).
Proof. exact (built_wellMarked n). Qed.

Lemma built_notes_are_well_marked_witness :
  Aliases workedNote = []
  /\ Forall (fun it => Completed it = false) (PendingWork workedNote)
  /\ Forall (fun it => Completed it = true) (CompletedWork workedNote).
Proof.
  apply (built_notes_are_well_marked workedNote). exact built_workedNote.
Defined.

(** *** Lower case *)

Lemma code_ascii_of_N k : (k < 256)%N -> code (ascii_of_N k) = k.
Proof. intros H. unfold code. now apply N_ascii_embedding. Qed.

Lemma code_bound a : (code a < 256)%N.
Proof. unfold code. apply N_ascii_bounded. Qed.

Lemma lowerByte_not_upper a : isUpper (lowerByte a) = false.
Proof.
  unfold lowerByte, isUpper.
  destruct ((65 <=? code a) && (code a <=? 90))%N eqn:E; [|exact E].
  apply andb_true_iff in E. destruct E as [E1 E2].
  apply N.leb_le in E1, E2.
  rewrite code_ascii_of_N by lia.
  apply andb_false_iff. right. apply N.leb_gt. lia.
Qed.

Lemma lowerByte_fixed a : isUpper a = false -> lowerByte a = a.
Proof. unfold lowerByte, isUpper. now intros ->. Qed.

Lemma ToLowerCase_length s :
  String.length (ToLowerCase s) = String.length s.
Proof. induction s as [|a s IH]; simpl; [reflexivity|]. now rewrite IH. Qed.

Lemma ToLowerCase_no_upper s a :
  hasByte a (ToLowerCase s) = true -> isUpper a = false.
Proof.
  induction s as [|b s IH]; simpl; intros H; [discriminate|].
  apply orb_true_iff in H. destruct H as [H|H]; [|now apply IH].
  apply Ascii.eqb_eq in H. subst a. apply lowerByte_not_upper.
Qed.

Lemma ToLowerCase_fixed t :
  (forall a, hasByte a t = true -> isUpper a = false) -> ToLowerCase t = t.
Proof.
  induction t as [|b t IH]; simpl; intros H; [reflexivity|].
  rewrite lowerByte_fixed, IH; trivial.
  - intros a Ha. apply H. rewrite Ha. apply orb_true_r.
  - apply H. now rewrite Ascii.eqb_refl.
Qed.

(** X4. [ToLowerCase] keeps the length of the string, leaves no byte
    'A'..'Z' in it, keeps a string without such a byte as it is, and so
    gives the same string when applied twice. *)
Theorem ToLowerCase_properties (s : string) :
  String.length (ToLowerCase s) = String.length s
  /\ (forall a, hasByte a (ToLowerCase s) = true -> isUpper a = false)
  /\ ((forall a, hasByte a s = true -> isUpper a = false) ->
      ToLowerCase s = s)
  /\ ToLowerCase (ToLowerCase s) = ToLowerCase s.
Proof.
  repeat split.
  - apply ToLowerCase_length.
  - apply ToLowerCase_no_upper.
  - apply ToLowerCase_fixed.
  - apply ToLowerCase_fixed. apply ToLowerCase_no_upper.
Qed.

Lemma ToLowerCase_properties_witness : ToLowerCase "job-2" = "job-2".
Proof.
  apply (proj1 (proj2 (proj2 (ToLowerCase_properties "job-2")))).
  intros a H. simpl in H.
  repeat (apply orb_true_iff in H; destruct H as [H|H];
          [apply Ascii.eqb_eq in H; subst a; reflexivity|]).
  discriminate.
Defined.

(** X5. The file of a command's day is found on later days.  A path
    that [filepath.Glob] returns for the workplace's pattern and whose
    base name is the one [GenerateFilename] gives for the day (with the
    date as the local zone shows it, for a workplace name without line
    feed) is one of the files [FindMostRecentNote] considers for every
    query date after the date shown; the search then returns what
    [ParseFile] gives for a considered file whose date is not before the
    date shown. *)
Theorem generated_file_is_found fs p west day beforeDate files f :
  validDate (shownDate west day) = true ->
  hasByte LF (workplaceName p) = false ->
  glob fs (notesDir p) (notePattern p) = Matches files ->
  In f files ->
  Base f = todaysFile west p day ->
  Before (shownDate west day) beforeDate = true ->
  considered fs p beforeDate f (shownDate west day)
  /\ exists f' d',
      considered fs p beforeDate f' d'
      /\ Before d' (shownDate west day) = false
      /\ FindMostRecentNote fs p beforeDate
         = ParseFile f' (openPath fs f').
Proof.
  intros Hd Hw G Hin Hb Hbefore.
  pose proof (generated_name_considered fs p _ beforeDate files f
                Hd Hw G Hin Hb Hbefore) as C.
  split; [exact C|].
  destruct (FindMostRecentNote_some fs p beforeDate _ _ C)
    as (f' & d' & Hc & Hmax & E).
  exists f', d'. split; [exact Hc|].
  split; [exact (Hmax _ _ C)|exact E].
Qed.

Lemma generated_file_is_found_witness :
  considered acmeFiles acme (jan 19) "notes/2025-01-17-Acme.md"
             (shownDate true (jan 18))
  /\ exists f' d',
      considered acmeFiles acme (jan 19) f' d'
      /\ Before d' (shownDate true (jan 18)) = false
      /\ FindMostRecentNote acmeFiles acme (jan 19)
         = ParseFile f' (openPath acmeFiles f').
Proof.
  apply (generated_file_is_found acmeFiles acme true (jan 18) (jan 19)
           ["notes/0000-00-00-Acme.md"; "notes/2025-01-15-Acme.md";
            "notes/2025-01-17-Acme.md"; "notes/2025-01-18-Acme.md"]).
  - reflexivity.
  - reflexivity.
  - vm_compute. reflexivity.
  - simpl. tauto.
  - vm_compute. reflexivity.
  - reflexivity.
Defined.

(* ================================================================= *)
(** * Further properties of the parser *)

(** ** Trimming twice *)

Lemma string_length_ind (P : string -> Prop) :
  (forall s, (forall t, (String.length t < String.length s)%nat -> P t) -> P s) ->
  forall s, P s.
Proof.
  intros H s.
  assert (G : forall k t, (String.length t < k)%nat -> P t).
  { induction k as [|k IH]; intros t Ht; [lia|].
    apply H. intros u Hu. apply IH. lia. }
  apply (G (S (String.length s))). lia.
Qed.

Lemma trimLeft_step s :
  trimLeft s = s
  \/ exists w r, isSpaceRune w = true /\ s = w ++ r
                 /\ trimLeft s = trimLeft r.
Proof.
  destruct s as [|a r]; [now left|].
  destruct (isSpace1 a) eqn:E1.
  { right. exists (String a ""), r. simpl. now rewrite E1. }
  destruct r as [|b r]; [left; simpl; now rewrite E1|].
  destruct (isSpace2 a b) eqn:E2.
  { right. exists (String a (String b "")), r. simpl. now rewrite E1, E2. }
  destruct r as [|c r]; [left; simpl; now rewrite E1, E2|].
  destruct (isSpace3 a b c) eqn:E3.
  { right. exists (String a (String b (String c ""))), r. simpl.
    now rewrite E1, E2, E3. }
  left. simpl. now rewrite E1, E2, E3.
Qed.

Lemma spaceRune_length w : isSpaceRune w = true -> (0 < String.length w)%nat.
Proof. destruct w; simpl; [discriminate|lia]. Qed.

Lemma trimLeft_suffix s : exists w, s = w ++ trimLeft s.
Proof.
  induction s as [s IH] using string_length_ind.
  destruct (trimLeft_step s) as [E|(w & r & Hw & -> & E)].
  - exists "". now rewrite E.
  - destruct (IH r) as [w' Hw'].
    { rewrite length_append. pose proof (spaceRune_length w Hw). lia. }
    exists (w ++ w'). rewrite E.
    rewrite Hw' at 1. clear. induction w as [|a w IHw]; simpl; [reflexivity|].
    now rewrite IHw.
Qed.

Lemma trimLeft_length s : (String.length (trimLeft s) <= String.length s)%nat.
Proof.
  destruct (trimLeft_suffix s) as [w E].
  rewrite E at 2. rewrite length_append. lia.
Qed.

Lemma trimLeft_idem s : trimLeft (trimLeft s) = trimLeft s.
Proof.
  induction s as [s IH] using string_length_ind.
  destruct (trimLeft_step s) as [E|(w & r & Hw & -> & E)].
  - now rewrite !E.
  - rewrite E. apply IH.
    rewrite length_append. pose proof (spaceRune_length w Hw). lia.
Qed.

Lemma trimRight_idem s : trimRight (trimRight s) = trimRight s.
Proof.
  induction s as [|a s IH]; [reflexivity|].
  cbn [trimRight].
  destruct (isSpaceRune (String a (trimRight s))) eqn:E; [reflexivity|].
  cbn [trimRight]. now rewrite IH, E.
Qed.

Lemma trimRight_prefix s : exists t, s = trimRight s ++ t.
Proof.
  induction s as [|a s [t IH]]; [now exists ""|].
  cbn [trimRight].
  destruct (isSpaceRune (String a (trimRight s))).
  - now exists (String a s).
  - exists t. simpl. now rewrite <- IH.
Qed.

Lemma trimRight_fixed_tail p t :
  trimRight (p ++ t) = p ++ t -> trimRight t = t.
Proof.
  induction p as [|a p IH]; [trivial|].
  change (String a p ++ t) with (String a (p ++ t)). cbn [trimRight].
  destruct (isSpaceRune (String a (trimRight (p ++ t)))); [discriminate|].
  intros H. injection H as H. now apply IH.
Qed.

Lemma append_assoc (a b c : string) : (a ++ b) ++ c = a ++ b ++ c.
Proof. induction a as [|x a IH]; simpl; [reflexivity|]. now rewrite IH. Qed.

Lemma trimLeft_of_trimRight u :
  trimLeft u = u -> trimLeft (trimRight u) = trimRight u.
Proof.
  intros Hu. apply trimLeft_keeps. intros w r Hw E.
  destruct (trimRight_prefix u) as [t Ht].
  rewrite E, append_assoc in Ht.
  pose proof (trimLeft_drops_rune w (r ++ t) Hw) as D.
  rewrite <- Ht, Hu in D.
  pose proof (trimLeft_length (r ++ t)) as L. rewrite <- D in L.
  rewrite Ht in L at 1. rewrite length_append in L.
  pose proof (spaceRune_length w Hw). lia.
Qed.

Lemma TrimSpace_idem s : TrimSpace (TrimSpace s) = TrimSpace s.
Proof.
  unfold TrimSpace.
  rewrite (trimLeft_of_trimRight _ (trimLeft_idem s)).
  apply trimRight_idem.
Qed.

Lemma TrimSpace_keeps_bytes_out x s :
  hasByte x s = false -> hasByte x (TrimSpace s) = false.
Proof.
  intros H. unfold TrimSpace.
  destruct (trimLeft_suffix s) as [w Ew].
  destruct (trimRight_prefix (trimLeft s)) as [t Et].
  rewrite Ew, Et, !hasByte_app in H.
  apply orb_false_iff in H. destruct H as [_ H].
  apply orb_false_iff in H. tauto.
Qed.

(** ** The items the parser makes *)

Lemma checkbox_text p t :
  trimRight p <> p -> trimRight (p ++ t) = p ++ t -> itemText t.
Proof.
  intros Hp H. split.
  - intros ->. apply Hp.
    replace (p ++ "") with p in H; trivial.
    clear. induction p as [|a p IH]; simpl; [reflexivity|]. now rewrite <- IH.
  - exact (trimRight_fixed_tail p t H).
Qed.

Lemma parseWorkItem_text line item :
  parseWorkItem line = Some item -> itemText (Text item).
Proof.
  unfold parseWorkItem.
  pose proof (trimRight_idem (trimLeft line)) as R. fold (TrimSpace line) in R.
  set (L := TrimSpace line) in *.
  destruct (HasPrefix L "- [ ] ") eqn:E1.
  { intros H. injection H as <-. simpl.
    rewrite (HasPrefix_true _ _ E1) in R.
    apply (checkbox_text "- [ ] "); [discriminate|exact R]. }
  destruct (HasPrefix L "- [x] ") eqn:E2.
  { intros H. injection H as <-. simpl.
    rewrite (HasPrefix_true _ _ E2) in R.
    destruct (HasPrefix (TrimPrefix L "- [x] ") "- [X] ") eqn:E3.
    - rewrite (HasPrefix_true _ _ E3), <- append_assoc in R.
      apply (checkbox_text ("- [x] " ++ "- [X] ")); [discriminate|exact R].
    - rewrite (TrimPrefix_no_prefix _ _ E3).
      apply (checkbox_text "- [x] "); [discriminate|exact R]. }
  destruct (HasPrefix L "- [X] ") eqn:E3; [|discriminate].
  intros H. injection H as <-. simpl.
  rewrite (TrimPrefix_no_prefix _ _ E2).
  rewrite (HasPrefix_true _ _ E3) in R.
  apply (checkbox_text "- [X] "); [discriminate|exact R].
Qed.

Lemma parseLine_items_from_line st line :
  (PendingWork (note (parseLine st line)) = PendingWork (note st)
   \/ exists item, parseWorkItem line = Some item
        /\ PendingWork (note (parseLine st line))
           = (PendingWork (note st) ++ [item])%list)
  /\ (CompletedWork (note (parseLine st line)) = CompletedWork (note st)
      \/ exists item, parseWorkItem line = Some item
           /\ CompletedWork (note (parseLine st line))
              = (CompletedWork (note st) ++ [item])%list).
Proof.
  destruct (parseWorkItem line) as [item|] eqn:E.
  - destruct (inFrontmatter st) eqn:Hfm.
    + assert (U : PendingWork (note (parseLine st line)) = PendingWork (note st)
                  /\ CompletedWork (note (parseLine st line))
                     = CompletedWork (note st)).
      { unfold parseLine. rewrite Hfm.
        destruct (String.eqb line "---"); simpl; [now split|].
        split; apply parseFrontmatterLine_work. }
      destruct U as [-> ->]. split; now left.
    + destruct (parseLine_item st line item Hfm E) as (P & C & _).
      rewrite P, C. split.
      * destruct (inPendingSection st); [right; now exists item|now left].
      * destruct (inCompletedSection st); [right; now exists item|now left].
  - destruct (parseLine_no_item st line E) as [-> ->]. split; now left.
Qed.

(** X6. Every work item [parseWorkItem] returns has a text that is not
    empty and does not end in white space, and so has every pending and
    completed item of a note that [ParseFile] returns. *)
Theorem parsed_items_have_text :
  (forall line item, parseWorkItem line = Some item ->
                     Text item <> "" /\ trimRight (Text item) = Text item)
  /\ (forall filePath f n e,
      ParseFile filePath f = (Some n, e) ->
      Forall (fun it => Text it <> "" /\ trimRight (Text it) = Text it)
             (PendingWork n ++ CompletedWork n)).
Proof.
  split; [exact parseWorkItem_text|].
  assert (G : forall ls st,
             Forall (fun it => itemText (Text it)) (PendingWork (note st)) ->
             Forall (fun it => itemText (Text it)) (CompletedWork (note st)) ->
             Forall (fun it => itemText (Text it))
                    (PendingWork (note (fold_left parseLine ls st))
                     ++ CompletedWork (note (fold_left parseLine ls st)))).
  { induction ls as [|l ls IH]; intros st HP HC; simpl.
    - apply Forall_app. now split.
    - destruct (parseLine_items_from_line st l) as [P C].
      apply IH.
      + destruct P as [->|(item & Hi & ->)]; trivial.
        apply Forall_app. split; trivial.
        constructor; [exact (parseWorkItem_text _ _ Hi)|constructor].
      + destruct C as [->|(item & Hi & ->)]; trivial.
        apply Forall_app. split; trivial.
        constructor; [exact (parseWorkItem_text _ _ Hi)|constructor]. }
  intros filePath f n e H. unfold ParseFile in H.
  destruct f as [|data|data]; [discriminate| |];
    destruct (scanTokens (rawLines data)) as [toks e'];
    injection H as <- _; apply G; constructor.
Qed.

Lemma parsed_items_have_text_witness :
  (Text (mkWorkItem "buy milk" false) <> ""
   /\ trimRight (Text (mkWorkItem "buy milk" false))
      = Text (mkWorkItem "buy milk" false))
  /\ Forall (fun it => Text it <> "" /\ trimRight (Text it) = Text it)
            (PendingWork (noteOf "18" 18) ++ CompletedWork (noteOf "18" 18)).
Proof.
  split.
  - apply (proj1 parsed_items_have_text "  - [ ] buy milk  "). reflexivity.
  - apply (proj2 parsed_items_have_text "notes/2025-01-18-Acme.md"
             (Readable (fileOf "18")) _ None).
    reflexivity.
Defined.

Lemma parseFrontmatterLine_body line n :
  Title (parseFrontmatterLine line n) = Title n
  /\ Summary (parseFrontmatterLine line n) = Summary n
  /\ YesterdaySummary (parseFrontmatterLine line n) = YesterdaySummary n
  /\ FilePath (parseFrontmatterLine line n) = FilePath n.
Proof. unfold parseFrontmatterLine. split_ifs; repeat split. Qed.

Lemma parseLine_separate (st : ParseState) (line : string) :
  (inFrontmatter st = true ->
   Title (note (parseLine st line)) = Title (note st)
   /\ Summary (note (parseLine st line)) = Summary (note st)
   /\ YesterdaySummary (note (parseLine st line)) = YesterdaySummary (note st)
   /\ PendingWork (note (parseLine st line)) = PendingWork (note st)
   /\ CompletedWork (note (parseLine st line)) = CompletedWork (note st)
   /\ inPendingSection (parseLine st line) = inPendingSection st
   /\ inCompletedSection (parseLine st line) = inCompletedSection st)
  /\ (inFrontmatter st = false ->
      ID (note (parseLine st line)) = ID (note st)
      /\ Tags (note (parseLine st line)) = Tags (note st)
      /\ Date (note (parseLine st line)) = Date (note st))
  /\ FilePath (note (parseLine st line)) = FilePath (note st).
Proof.
  repeat apply conj.
  - intros H. unfold parseLine. rewrite H.
    destruct (String.eqb line "---"); simpl; [repeat split|].
    destruct (parseFrontmatterLine_body line (note st)) as (T & S & Y & _).
    destruct (parseFrontmatterLine_work line (note st)) as (P & C & _).
    repeat split; trivial.
  - intros H. unfold parseLine. rewrite H.
    split_ifs; simpl; repeat split.
  - unfold parseLine. split_ifs; simpl; trivial.
    apply parseFrontmatterLine_body.
Qed.

(** X7. A line read inside the frontmatter changes neither the title,
    the summaries, the work lists nor the section flags; a line read
    outside the frontmatter changes neither the id, the tags nor the
    date; and no line changes the file path. *)
Theorem frontmatter_and_body_are_separate (st : ParseState) (line : string) :
  (inFrontmatter st = true ->
   Title (note (parseLine st line)) = Title (note st)
   /\ Summary (note (parseLine st line)) = Summary (note st)
   /\ YesterdaySummary (note (parseLine st line)) = YesterdaySummary (note st)
   /\ PendingWork (note (parseLine st line)) = PendingWork (note st)
   /\ CompletedWork (note (parseLine st line)) = CompletedWork (note st)
   /\ inPendingSection (parseLine st line) = inPendingSection st
   /\ inCompletedSection (parseLine st line) = inCompletedSection st)
  /\ (inFrontmatter st = false ->
      ID (note (parseLine st line)) = ID (note st)
      /\ Tags (note (parseLine st line)) = Tags (note st)
      /\ Date (note (parseLine st line)) = Date (note st))
  /\ FilePath (note (parseLine st line)) = FilePath (note st).
Proof. exact (parseLine_separate st line). Qed.

Lemma frontmatter_and_body_are_separate_witness :
  Title (note (parseLine (mkParseState sampleNote true false false)
                         "# a heading"))
  = Title sampleNote
  /\ ID (note (parseLine (mkParseState sampleNote false false false)
                         "id: other"))
     = ID sampleNote.
Proof.
  split.
  - apply (proj1 (frontmatter_and_body_are_separate
                    (mkParseState sampleNote true false false) "# a heading")).
    reflexivity.
  - apply (proj1 (proj2 (frontmatter_and_body_are_separate
                    (mkParseState sampleNote false false false) "id: other"))).
    reflexivity.
Defined.

Lemma parseLine_one_section st line :
  inPendingSection st && inCompletedSection st = false ->
  inPendingSection (parseLine st line)
  && inCompletedSection (parseLine st line) = false
  /\ (List.length (PendingWork (note (parseLine st line)))
      + List.length (CompletedWork (note (parseLine st line)))
      <= S (List.length (PendingWork (note st))
            + List.length (CompletedWork (note st))))%nat.
Proof.
  intros H. split.
  - unfold parseLine. split_ifs; simpl; trivial.
  - destruct (parseWorkItem line) as [item|] eqn:E.
    + destruct (inFrontmatter st) eqn:Hfm.
      * destruct (proj1 (parseLine_separate st line) Hfm)
          as (_ & _ & _ & -> & -> & _). lia.
      * destruct (parseLine_item st line item Hfm E) as (-> & -> & _).
        destruct (inPendingSection st), (inCompletedSection st);
          try discriminate; rewrite ?length_app; simpl; lia.
    + destruct (parseLine_no_item st line E) as [-> ->]. lia.
Qed.

Lemma scanTokens_length ls :
  (List.length (fst (scanTokens ls)) <= List.length ls)%nat.
Proof.
  induction ls as [|l ls IH]; cbn [scanTokens]; [simpl; lia|].
  destruct (MaxScanTokenSize <=? String.length l)%nat; [simpl; lia|].
  destruct (scanTokens ls) as [ts e]. simpl in *. lia.
Qed.

(** X8. At most one of the two section flags is set after any lines, so
    a line adds at most one item to the note: a parsed note has no more
    pending and completed items together than its file has lines. *)
Theorem one_item_per_line :
  (forall filePath lines,
      inPendingSection (parseLines filePath lines)
      && inCompletedSection (parseLines filePath lines) = false
      /\ (List.length (PendingWork (note (parseLines filePath lines)))
          + List.length (CompletedWork (note (parseLines filePath lines)))
          <= List.length lines)%nat)
  /\ (forall filePath data n e,
      ParseFile filePath (Readable data) = (Some n, e) ->
      (List.length (PendingWork n) + List.length (CompletedWork n)
       <= List.length (rawLines data))%nat).
Proof.
  assert (G : forall ls st,
             inPendingSection st && inCompletedSection st = false ->
             inPendingSection (fold_left parseLine ls st)
             && inCompletedSection (fold_left parseLine ls st) = false
             /\ (List.length (PendingWork (note (fold_left parseLine ls st)))
                 + List.length (CompletedWork (note (fold_left parseLine ls st)))
                 <= List.length ls
                    + (List.length (PendingWork (note st))
                       + List.length (CompletedWork (note st))))%nat).
  { induction ls as [|l ls IH]; intros st H; simpl.
    - split; [exact H|lia].
    - destruct (parseLine_one_section st l H) as [H' L].
      destruct (IH _ H') as [F C]. split; [exact F|lia]. }
  split.
  - intros filePath lines. unfold parseLines.
    destruct (G lines (initialState filePath) eq_refl) as [F C].
    split; [exact F|]. simpl in C. lia.
  - intros filePath data n e H. unfold ParseFile in H.
    pose proof (scanTokens_length (rawLines data)) as L.
    destruct (scanTokens (rawLines data)) as [toks e'].
    injection H as <- _. unfold parseLines.
    destruct (G toks (initialState filePath) eq_refl) as [_ C].
    simpl in *. lia.
Qed.

Lemma one_item_per_line_witness :
  (List.length (PendingWork (noteOf "18" 18))
   + List.length (CompletedWork (noteOf "18" 18))
   <= List.length (rawLines (fileOf "18")))%nat.
Proof.
  apply (proj2 one_item_per_line "notes/2025-01-18-Acme.md" (fileOf "18")
               (noteOf "18" 18) None).
  reflexivity.
Defined.

(** ** The date of a parsed note *)

Lemma digitVal_range a k : digitVal a = Some k -> (0 <= k <= 9)%Z.
Proof.
  unfold digitVal.
  destruct ((48 <=? code a) && (code a <=? 57))%N eqn:E; [|discriminate].
  apply andb_true_iff in E. destruct E as [E1 E2].
  apply N.leb_le in E1, E2. intros H.
  assert (K : k = Z.of_N (code a - 48)) by congruence. lia.
Qed.

Lemma digitChar_digitVal a k : digitVal a = Some k -> digitChar k = a.
Proof.
  unfold digitVal, digitChar.
  destruct ((48 <=? code a) && (code a <=? 57))%N eqn:E; [|discriminate].
  apply andb_true_iff in E. destruct E as [E1 _]. apply N.leb_le in E1.
  intros H. assert (K : k = Z.of_N (code a - 48)) by congruence. subst k.
  rewrite N2Z.id. replace (48 + (code a - 48))%N with (code a) by lia.
  unfold code. apply ascii_N_embedding.
Qed.

Lemma num2_inv a b k :
  num2 a b = Some k ->
  (0 <= k <= 99)%Z /\ fmt2 k "" = String a (String b "").
Proof.
  unfold num2, fmt2.
  destruct (digitVal a) as [x|] eqn:Ea; [|discriminate].
  destruct (digitVal b) as [y|] eqn:Eb; [|discriminate].
  pose proof (digitVal_range _ _ Ea) as Rx.
  pose proof (digitVal_range _ _ Eb) as Ry.
  intros H. assert (K : k = (10 * x + y)%Z) by congruence.
  split; [lia|].
  replace (k / 10 mod 10)%Z with x by (Z.div_mod_to_equations; lia).
  replace (k mod 10)%Z with y by (Z.div_mod_to_equations; lia).
  now rewrite (digitChar_digitVal _ _ Ea), (digitChar_digitVal _ _ Eb).
Qed.

Lemma fmt2_tail k r : fmt2 k r = fmt2 k "" ++ r.
Proof. reflexivity. Qed.

Lemma num4_inv a b c d k :
  num4 a b c d = Some k ->
  (0 <= k <= 9999)%Z
  /\ fmt4 k "" = String a (String b (String c (String d ""))).
Proof.
  unfold num4, fmt4.
  destruct (num2 a b) as [x|] eqn:Ea; [|discriminate].
  destruct (num2 c d) as [y|] eqn:Eb; [|discriminate].
  destruct (num2_inv _ _ _ Ea) as [Rx Fx].
  destruct (num2_inv _ _ _ Eb) as [Ry Fy].
  intros H. assert (K : k = (100 * x + y)%Z) by congruence.
  split; [lia|].
  unfold fmt2 in *.
  replace (k / 1000 mod 10)%Z with (x / 10 mod 10)%Z
    by (Z.div_mod_to_equations; lia).
  replace (k / 100 mod 10)%Z with (x mod 10)%Z
    by (Z.div_mod_to_equations; lia).
  replace (k / 10 mod 10)%Z with (y / 10 mod 10)%Z
    by (Z.div_mod_to_equations; lia).
  replace (k mod 10)%Z with (y mod 10)%Z by (Z.div_mod_to_equations; lia).
  congruence.
Qed.

Lemma ParseISO_inv s t :
  ParseISO s = Some t ->
  exists y1 y2 y3 y4 m1 m2 d1 d2,
    s = String y1 (String y2 (String y3 (String y4 (String "-"
          (String m1 (String m2 (String "-" (String d1 (String d2 "")))))))))
    /\ num4 y1 y2 y3 y4 = Some (year t)
    /\ num2 m1 m2 = Some (month t)
    /\ num2 d1 d2 = Some (day t)
    /\ ((1 <=? month t) && (month t <=? 12) && (1 <=? day t)
        && (day t <=? daysIn (month t) (year t)))%Z = true.
Proof.
  destruct s as [|y1 [|y2 [|y3 [|y4 [|s1 [|m1 [|m2 [|s2 [|d1 [|d2 [|x s]]]]]]]]]]];
    unfold ParseISO; try discriminate.
  all: destruct s1 as [[] [] [] [] [] [] [] []]; try discriminate.
  all: destruct s2 as [[] [] [] [] [] [] [] []]; try discriminate.
  destruct (num4 y1 y2 y3 y4) as [y|] eqn:Ey; [|discriminate].
  destruct (num2 m1 m2) as [m|] eqn:Em; [|discriminate].
  destruct (num2 d1 d2) as [d|] eqn:Ed; [|discriminate].
  destruct ((1 <=? m) && (m <=? 12) && (1 <=? d) && (d <=? daysIn m y))%Z eqn:C;
    [|discriminate].
  intros H. injection H as <-. simpl.
  exists y1, y2, y3, y4, m1, m2, d1, d2. repeat split; trivial.
Qed.

(** What [time.Parse] accepts is a calendar date, and formatting that
    date gives the text back. *)
Lemma ParseISO_sound s t :
  ParseISO s = Some t -> validDate t = true /\ FormatISO t = s.
Proof.
  intros H.
  destruct (ParseISO_inv s t H)
    as (y1 & y2 & y3 & y4 & m1 & m2 & d1 & d2 & -> & Ey & Em & Ed & C).
  destruct (num4_inv _ _ _ _ _ Ey) as [Ry Fy].
  destruct (num2_inv _ _ _ Em) as [Rm Fm].
  destruct (num2_inv _ _ _ Ed) as [Rd Fd].
  split.
  - unfold validDate.
    rewrite !andb_true_iff in *. rewrite !Z.leb_le in *. lia.
  - unfold FormatISO, fmt4 in *. unfold fmt2 in *.
    injection Fy as -> -> -> ->. injection Fm as -> ->.
    injection Fd as -> ->. reflexivity.
Qed.

Lemma parseLine_valid_date st line :
  validDate (Date (note st)) = true ->
  validDate (Date (note (parseLine st line))) = true.
Proof.
  intros H. unfold parseLine.
  destruct (String.eqb line "---"); [exact H|].
  destruct (inFrontmatter st); [|split_ifs; exact H].
  simpl. unfold parseFrontmatterLine.
  destruct (HasPrefix line "id:"); [exact H|].
  destruct (HasPrefix line "date:").
  - destruct (ParseISO (TrimSpace (TrimPrefix line "date:"))) as [t|] eqn:E;
      [|exact H].
    simpl. exact (proj1 (ParseISO_sound _ _ E)).
  - destruct (HasPrefix line "  - "); exact H.
Qed.

(** X9. The date of a note [ParseFile] returns is a calendar date (the
    zero time, January 1 of year 1, or the date of a "date:" line).  A
    "date:" line of the frontmatter sets the date exactly when its
    trimmed value is the ten-byte YYYY-MM-DD text of a calendar date,
    which is then the date set. *)
Theorem parsed_date_is_a_calendar_date :
  (forall filePath f n e,
      ParseFile filePath f = (Some n, e) -> validDate (Date n) = true)
  /\ (forall line n t,
      HasPrefix line "date:" = true ->
      ParseISO (TrimSpace (TrimPrefix line "date:")) = Some t ->
      parseFrontmatterLine line n = setDate n t
      /\ validDate t = true
      /\ FormatISO t = TrimSpace (TrimPrefix line "date:")).
Proof.
  split.
  - assert (G : forall ls st,
               validDate (Date (note st)) = true ->
               validDate (Date (note (fold_left parseLine ls st))) = true).
    { induction ls as [|l ls IH]; intros st H; simpl; [exact H|].
      apply IH. now apply parseLine_valid_date. }
    intros filePath f n e H. unfold ParseFile in H.
    destruct f as [|data|data]; [discriminate| |];
      destruct (scanTokens (rawLines data)) as [toks e'];
      injection H as <- _; apply G; reflexivity.
  - intros line n t H E. split; [|exact (ParseISO_sound _ _ E)].
    unfold parseFrontmatterLine. rewrite H, E.
    rewrite (HasPrefix_true _ _ H).
    change ("date:" ++ TrimPrefix line "date:")
      with (String "d" ("ate:" ++ TrimPrefix line "date:")).
    now rewrite HasPrefix_head_neq.
Qed.

Lemma parsed_date_is_a_calendar_date_witness :
  validDate (Date (noteOf "18" 18)) = true
  /\ parseFrontmatterLine "date:  2024-02-29 " sampleNote
     = setDate sampleNote (mkTime 2024 2 29)
  /\ validDate (mkTime 2024 2 29) = true
  /\ FormatISO (mkTime 2024 2 29)
     = TrimSpace (TrimPrefix "date:  2024-02-29 " "date:").
Proof.
  split.
  - apply (proj1 parsed_date_is_a_calendar_date "notes/2025-01-18-Acme.md"
             (Readable (fileOf "18")) _ None).
    reflexivity.
  - apply (proj2 parsed_date_is_a_calendar_date); reflexivity.
Defined.

(** ** Line endings *)

Lemma dropCR_added l : dropCR (l ++ String CR "") = l.
Proof.
  induction l as [|a l IH]; [reflexivity|].
  change (String a l ++ String CR "") with (String a (l ++ String CR "")).
  cbn [dropCR]. rewrite IH. now destruct l.
Qed.

Lemma rawLines_joinCRLF ls :
  forallb (fun l => negb (hasByte LF l)) ls = true ->
  rawLines (joinCRLF ls) = map (fun l => l ++ String CR "") ls.
Proof.
  induction ls as [|l ls IH]; cbn [joinCRLF forallb map]; intros H;
    [reflexivity|].
  apply andb_true_iff in H. destruct H as [Hl Hls].
  apply negb_true_iff in Hl.
  change (l ++ String CR nl ++ joinCRLF ls)
    with (l ++ String CR "" ++ nl ++ joinCRLF ls).
  rewrite <- append_assoc, rawLines_line, IH; trivial.
  rewrite hasByte_app, Hl. reflexivity.
Qed.

(** X10. A file whose lines end with carriage return and line feed is
    read like the same lines ending with line feed alone: for lines
    without line feed, without carriage return at their end and with
    room for one more byte in the scanner's buffer, both contents decode
    without error to the same note. *)
Theorem CRLF_file_decodes_like_LF_file (filePath : string) (ls : list string) :
  forallb lineOK ls = true ->
  forallb (fun l => (String.length l + 1 <? MaxScanTokenSize)%nat) ls = true ->
  Decode filePath (joinCRLF ls) = Decode filePath (joinLines ls)
  /\ Decode filePath (joinCRLF ls)
     = (Some (note (parseLines filePath ls)), None).
Proof.
  intros H1 H2.
  assert (E : Decode filePath (joinCRLF ls)
              = (Some (note (parseLines filePath ls)), None)).
  { unfold Decode, ParseFile. rewrite rawLines_joinCRLF.
    - rewrite scanTokens_short.
      + rewrite map_map.
        replace (map (fun x => dropCR (x ++ String CR "")) ls) with ls;
          [reflexivity|].
        clear. induction ls as [|l ls IH]; simpl; [reflexivity|].
        now rewrite dropCR_added, <- IH.
      + apply Forall_forall. intros x Hx. apply in_map_iff in Hx.
        destruct Hx as (l & <- & Hl).
        rewrite forallb_forall in H2. specialize (H2 l Hl).
        apply Nat.ltb_lt in H2. rewrite length_append. simpl. lia.
    - rewrite forallb_forall in *. intros l Hl. specialize (H1 l Hl).
      unfold lineOK in H1. rewrite !andb_true_iff in H1. tauto. }
  split; [|exact E].
  now rewrite E, Decode_joinLines.
Qed.

Lemma CRLF_file_decodes_like_LF_file_witness :
  Decode "n.md" (joinCRLF ["## Pending Work"; "- [ ] call Bob"])
  = Decode "n.md" (joinLines ["## Pending Work"; "- [ ] call Bob"])
  /\ Decode "n.md" (joinCRLF ["## Pending Work"; "- [ ] call Bob"])
     = (Some (note (parseLines "n.md" ["## Pending Work"; "- [ ] call Bob"])),
        None).
Proof.
  apply (CRLF_file_decodes_like_LF_file "n.md"
           ["## Pending Work"; "- [ ] call Bob"]); vm_compute; reflexivity.
Defined.

(** ** Files that are not considered *)

Lemma validFilesOf_app beforeDate l1 l2 :
  validFilesOf beforeDate (l1 ++ l2)
  = (validFilesOf beforeDate l1 ++ validFilesOf beforeDate l2)%list.
Proof.
  induction l1 as [|x l1 IH]; simpl; [reflexivity|].
  destruct (candidate beforeDate x); simpl; now rewrite IH.
Qed.

(** X11. A path among those [filepath.Glob] returns whose base name
    carries no date that parses and lies before the query date has no
    influence on what [FindMostRecentNote] returns: where
    [filepath.Glob] returns the other paths in the same order, and every
    path opens alike, the result is the same. *)
Theorem unconsidered_file_changes_nothing fs fs' p beforeDate
  files1 x files2 :
  glob fs (notesDir p) (notePattern p) = Matches (files1 ++ x :: files2) ->
  glob fs' (notesDir p) (notePattern p) = Matches (files1 ++ files2) ->
  (forall f, openPath fs' f = openPath fs f) ->
  candidate beforeDate x = None ->
  FindMostRecentNote fs p beforeDate = FindMostRecentNote fs' p beforeDate.
Proof.
  intros G G' O H.
  rewrite (FindMostRecentNote_by_valid _ _ _ _ G).
  rewrite (FindMostRecentNote_by_valid _ _ _ _ G').
  rewrite !validFilesOf_app. cbn [validFilesOf]. rewrite H.
  destruct (sortSlice _ _) as [|first rest]; [reflexivity|].
  now rewrite O.
Qed.

Lemma unconsidered_file_changes_nothing_witness :
  FindMostRecentNote acmeFiles acme (jan 19)
  = FindMostRecentNote
      (mkFS (globOf "notes" "*-Acme.md"
               ["notes/2025-01-15-Acme.md"; "notes/2025-01-17-Acme.md";
                "notes/2025-01-18-Acme.md"])
            (openPath acmeFiles))
      acme (jan 19).
Proof.
  apply (unconsidered_file_changes_nothing acmeFiles _ acme (jan 19)
           [] "notes/0000-00-00-Acme.md"
           ["notes/2025-01-15-Acme.md"; "notes/2025-01-17-Acme.md";
            "notes/2025-01-18-Acme.md"]).
  - vm_compute. reflexivity.
  - vm_compute. reflexivity.
  - reflexivity.
  - vm_compute. reflexivity.
Defined.

(* ================================================================= *)
(** * Further properties of the summary client *)

Ltac run_client :=
  cbv beta iota zeta delta
    [SummarizeWorkItems bind call ret createSession startEventListener
     sendMessageAsync getMessages TestConnection].

Lemma polling_trace be ticks sid :
  forall lg, exists rest,
    snd (waitForIdleWithPolling be ticks sid lg) = (lg ++ rest)%list
    /\ Forall (eq (GetMessages sid)) rest
    /\ (List.length rest <= ticks)%nat
    /\ (fst (waitForIdleWithPolling be ticks sid lg) = true ->
        exists l, sessionMessages be (lg ++ rest)%list = Some l
                  /\ hasAssistantText l = true)
    /\ (fst (waitForIdleWithPolling be ticks sid lg) = false ->
        List.length rest = ticks).
Proof.
  induction ticks as [|k IH]; intros lg.
  - exists []. simpl. rewrite app_nil_r.
    repeat split; trivial; discriminate.
  - cbn [waitForIdleWithPolling]. run_client.
    set (lg1 := (lg ++ [GetMessages sid])%list).
    assert (R : exists rest,
               snd (waitForIdleWithPolling be k sid lg1) = (lg ++ rest)%list
               /\ Forall (eq (GetMessages sid)) rest
               /\ (List.length rest <= S k)%nat
               /\ (fst (waitForIdleWithPolling be k sid lg1) = true ->
                   exists l, sessionMessages be (lg ++ rest)%list = Some l
                             /\ hasAssistantText l = true)
               /\ (fst (waitForIdleWithPolling be k sid lg1) = false ->
                   List.length rest = S k)).
    { destruct (IH lg1) as (rest & E1 & F & L & T & Fa).
      exists (GetMessages sid :: rest).
      replace (lg ++ GetMessages sid :: rest)%list with (lg1 ++ rest)%list
        by (unfold lg1; now rewrite <- app_assoc).
      repeat split; trivial.
      - now constructor.
      - simpl. lia.
      - intros Hb. simpl. now rewrite (Fa Hb). }
    destruct (sessionMessages be lg1) as [l|] eqn:E; [|exact R].
    destruct (hasAssistantText l) eqn:Ht; [|exact R].
    exists [GetMessages sid]. simpl. fold lg1. repeat split.
    + repeat constructor.
    + lia.
    + intros _. exists l. now split.
    + discriminate.
Qed.

(** X12. [waitForIdleWithPolling] makes at most as many requests as the
    deadline grants ticks, all of them for the messages of the session;
    it reports a response only when the last answer held an assistant
    message with a text part that is not empty, and gives up only after
    all the ticks. *)
Theorem polling_requests (be : Backend) (ticks : nat) (sid : string)
  (lg : list request) :
  exists rest,
    snd (waitForIdleWithPolling be ticks sid lg) = (lg ++ rest)%list
    /\ Forall (eq (GetMessages sid)) rest
    /\ (List.length rest <= ticks)%nat
    /\ (fst (waitForIdleWithPolling be ticks sid lg) = true ->
        exists l, sessionMessages be (lg ++ rest)%list = Some l
                  /\ hasAssistantText l = true)
    /\ (fst (waitForIdleWithPolling be ticks sid lg) = false ->
        List.length rest = ticks).
Proof. apply polling_trace. Qed.

Lemma polling_requests_witness :
  exists rest,
    snd (waitForIdleWithPolling slowBackend 10 "ses1"
           [PostSession; GetEvent "ses1"; PostMessage "ses1" "p";
            GetMessages "ses1"])
    = ([PostSession; GetEvent "ses1"; PostMessage "ses1" "p";
        GetMessages "ses1"] ++ rest)%list
    /\ (List.length rest <= 10)%nat
    /\ exists l,
        sessionMessages slowBackend
          ([PostSession; GetEvent "ses1"; PostMessage "ses1" "p";
            GetMessages "ses1"] ++ rest)%list = Some l
        /\ hasAssistantText l = true.
Proof.
  destruct (polling_requests slowBackend 10 "ses1"
              [PostSession; GetEvent "ses1"; PostMessage "ses1" "p";
               GetMessages "ses1"])
    as (rest & E & _ & L & T & _).
  exists rest. split; [exact E|]. split; [exact L|].
  apply T. reflexivity.
Defined.

Lemma extract_without_text ms :
  hasAssistantText ms = false -> extractAssistantResponse ms = "".
Proof.
  intros H. unfold extractAssistantResponse.
  replace (flat_map
             (fun m => if isAssistant m
                       then map partText (filter hasText (parts m)) else [])
             ms) with (@nil string); [reflexivity|].
  induction ms as [|m ms IH]; simpl in *; [reflexivity|].
  apply orb_false_iff in H. destruct H as [Hm Hms].
  rewrite <- (IH Hms).
  destruct (isAssistant m); simpl in *; [|reflexivity].
  replace (filter hasText (parts m)) with (@nil Part); [reflexivity|].
  induction (parts m) as [|q qs IHq]; simpl in *; [reflexivity|].
  apply orb_false_iff in Hm. destruct Hm as [Hq Hqs].
  rewrite Hq. now apply IHq.
Qed.

Lemma extract_assistant_only ms :
  extractAssistantResponse (filter isAssistant ms)
  = extractAssistantResponse ms.
Proof.
  unfold extractAssistantResponse. do 2 f_equal.
  induction ms as [|m ms IH]; simpl; [reflexivity|].
  destruct (isAssistant m) eqn:E; simpl; rewrite ?E, IH; reflexivity.
Qed.

(** X13. [extractAssistantResponse] reads assistant messages only and is
    trimmed: messages of other roles make no difference, the result is
    not changed by trimming again, and it is empty when no assistant
    message has a text part that is not empty. *)
Theorem extractAssistantResponse_properties (ms : list MessageResponse) :
  extractAssistantResponse (filter isAssistant ms)
  = extractAssistantResponse ms
  /\ TrimSpace (extractAssistantResponse ms) = extractAssistantResponse ms
  /\ (hasAssistantText ms = false -> extractAssistantResponse ms = "").
Proof.
  split; [apply extract_assistant_only|].
  split; [apply TrimSpace_idem|apply extract_without_text].
Qed.

Lemma extractAssistantResponse_properties_witness :
  extractAssistantResponse
    [mkMessage "user" [mkPart "text" "Summarize"];
     mkMessage "assistant" [mkPart "text" ""; mkPart "tool" "ls"]] = "".
Proof.
  apply (proj2 (proj2 (extractAssistantResponse_properties _))).
  reflexivity.
Defined.

(** What a successful call returns. *)
Lemma SummarizeWorkItems_success be items log s log' :
  SummarizeWorkItems be items log = (inl s, log') ->
  (items = [] /\ s = emptySummary /\ log' = log)
  \/ (items <> [] /\ exists l, s = extractAssistantResponse l /\ s <> "").
Proof.
  destruct items as [|it items].
  - intros H. injection H as <- <-. now left.
  - intros H. right. split; [discriminate|]. revert H. run_client.
    destruct (newSession be (log ++ [PostSession])%list) as [sid|];
      [|discriminate].
    match goal with
    | |- context [accepts be ?l] => destruct (accepts be l)
    end; simpl; [|discriminate].
    match goal with
    | |- context [sessionMessages be ?l] =>
        destruct (sessionMessages be l) as [l1|]
    end; [|discriminate].
    destruct (String.eqb_spec (extractAssistantResponse l1) "") as [E|E].
    + match goal with
      | |- context [waitForIdleWithPolling be ?t ?s ?l] =>
          destruct (waitForIdleWithPolling be t s l) as [seen lg]
      end.
      destruct seen; simpl; [|discriminate].
      destruct (sessionMessages be (lg ++ [GetMessages sid])%list) as [l2|];
        [|discriminate].
      destruct (String.eqb_spec (extractAssistantResponse l2) "") as [E2|E2];
        [discriminate|].
      intros H. injection H as <- _. now exists l2.
    + intros H. injection H as <- _. now exists l1.
Qed.

(** X14. What [SummarizeWorkItems] returns as a success is never the
    empty string and has no white space at either end: it is the fixed
    text for the empty list, and otherwise the trimmed text of the
    assistant messages, which the function refuses when empty. *)
Theorem summary_is_never_empty be items log s log' :
  SummarizeWorkItems be items log = (inl s, log') ->
  s <> "" /\ TrimSpace s = s.
Proof.
  intros H.
  destruct (SummarizeWorkItems_success _ _ _ _ _ H)
    as [(_ & -> & _)|(_ & l & -> & Hne)].
  - split; [discriminate|reflexivity].
  - split; [exact Hne|apply TrimSpace_idem].
Qed.

Lemma summary_is_never_empty_witness :
  "Fixed the login bug." <> ""
  /\ TrimSpace "Fixed the login bug." = "Fixed the login bug.".
Proof.
  apply (summary_is_never_empty slowBackend [mkWorkItem "fix login bug" true] []
           "Fixed the login bug."
           [PostSession; GetEvent "ses1";
            PostMessage "ses1"
              (buildPrompt [mkWorkItem "fix login bug" true]);
            GetMessages "ses1"; GetMessages "ses1"; GetMessages "ses1";
            GetMessages "ses1"]).
  vm_compute. reflexivity.
Defined.

(** X15. For a list that is not empty [SummarizeWorkItems] never asks
    for the health of the server and starts with one request for a
    session.  When that fails it stops with the error about the session;
    otherwise it opens the event stream of the session, posts the prompt
    once, and every later request, at most two more than the polling
    deadline grants, asks for the messages of that session. *)
Theorem SummarizeWorkItems_requests be items log :
  items <> [] ->
  match newSession be (log ++ [PostSession])%list with
  | None =>
      SummarizeWorkItems be items log
      = (inr FailedCreateSession, (log ++ [PostSession])%list)
  | Some sid =>
      exists polls,
        snd (SummarizeWorkItems be items log)
        = (log ++ PostSession :: GetEvent sid
               :: PostMessage sid (buildPrompt items) :: polls)%list
        /\ Forall (eq (GetMessages sid)) polls
        /\ (List.length polls <= pollTicks be + 2)%nat
  end.
Proof.
  intros Hne. destruct items as [|it items]; [contradiction|].
  run_client. set (its := it :: items).
  destruct (newSession be (log ++ [PostSession])%list) as [sid|];
    [|reflexivity].
  repeat rewrite <- app_assoc. cbn [app].
  set (pre := fun polls =>
                (log ++ PostSession :: GetEvent sid
                     :: PostMessage sid (buildPrompt its) :: polls)%list).
  change (log ++ [PostSession; GetEvent sid;
                  PostMessage sid (buildPrompt its)])%list with (pre []).
  destruct (accepts be (pre [])); cbn [negb].
  2:{ exists []. repeat split; [constructor|simpl; lia]. }
  replace (pre [] ++ [GetMessages sid])%list with (pre [GetMessages sid])
    by (unfold pre; now rewrite <- app_assoc).
  destruct (sessionMessages be (pre [GetMessages sid])) as [l1|].
  2:{ exists [GetMessages sid]. repeat split;
        [repeat constructor|simpl; lia]. }
  destruct (String.eqb (extractAssistantResponse l1) "").
  2:{ exists [GetMessages sid]. repeat split;
        [repeat constructor|simpl; lia]. }
  destruct (polling_trace be (pollTicks be) sid (pre [GetMessages sid]))
    as (rest & E & F & L & _).
  destruct (waitForIdleWithPolling be (pollTicks be) sid
              (pre [GetMessages sid])) as [seen lg].
  cbn [snd] in E. subst lg.
  assert (P1 : (pre [GetMessages sid] ++ rest)%list
               = pre (GetMessages sid :: rest)).
  { unfold pre. now rewrite <- app_assoc. }
  assert (P2 : ((pre [GetMessages sid] ++ rest) ++ [GetMessages sid])%list
               = pre (GetMessages sid :: rest ++ [GetMessages sid])).
  { unfold pre. now repeat (rewrite <- app_assoc; cbn [app]). }
  assert (F2 : Forall (eq (GetMessages sid))
                 (GetMessages sid :: rest ++ [GetMessages sid])).
  { constructor; [reflexivity|]. apply Forall_app. split; [exact F|].
    repeat constructor. }
  assert (L2 : (List.length (GetMessages sid :: rest ++ [GetMessages sid])
                <= pollTicks be + 2)%nat).
  { cbn [List.length]. rewrite length_app. simpl. lia. }
  destruct seen; cbn [negb].
  - rewrite P2.
    exists (GetMessages sid :: rest ++ [GetMessages sid]).
    destruct (sessionMessages be _) as [l2|]; [|now repeat split].
    destruct (String.eqb (extractAssistantResponse l2) ""); now repeat split.
  - rewrite P1. exists (GetMessages sid :: rest). repeat split.
    + now constructor.
    + simpl. lia.
Qed.

Lemma SummarizeWorkItems_requests_witness :
  exists polls,
    snd (SummarizeWorkItems slowBackend [mkWorkItem "fix login bug" true] [])
    = PostSession :: GetEvent "ses1"
        :: PostMessage "ses1" (buildPrompt [mkWorkItem "fix login bug" true])
        :: polls
    /\ Forall (eq (GetMessages "ses1")) polls
    /\ (List.length polls <= 12)%nat.
Proof.
  apply (SummarizeWorkItems_requests slowBackend
           [mkWorkItem "fix login bug" true] []).
  discriminate.
Defined.

(* ================================================================= *)
(** * Further properties of the start-of-day workflow *)

Lemma reviewPending_header prev today v :
  let r := reviewPending prev today v in
  sameHeader (fst r) prev /\ sameHeader (snd r) today
  /\ Summary (fst r) = Summary prev
  /\ YesterdaySummary (fst r) = YesterdaySummary prev
  /\ Summary (snd r) = Summary today
  /\ YesterdaySummary (snd r) = YesterdaySummary today
  /\ CompletedWork (snd r) = CompletedWork today.
Proof.
  rewrite reviewPending_spec. unfold sameHeader. simpl. tauto.
Qed.

Lemma summarizePrevious_summaries be prev today log :
  let r := fst (summarizePrevious be prev today log) in
  sameHeader (fst r) prev /\ sameHeader (snd r) today
  /\ YesterdaySummary (fst r) = YesterdaySummary prev
  /\ Summary (snd r) = Summary today
  /\ ((Summary (fst r) = Summary prev
       /\ YesterdaySummary (snd r) = YesterdaySummary today)
      \/ (exists s, s <> "" /\ TrimSpace s = s
                    /\ Summary (fst r) = s /\ YesterdaySummary (snd r) = s)).
Proof.
  unfold summarizePrevious, sameHeader.
  destruct (HasCompletedWork prev); [|simpl; tauto].
  unfold bind. destruct (TestConnection be log) as [ok log1].
  destruct ok; [|simpl; tauto]. simpl.
  destruct (SummarizeWorkItems be (CompletedWork prev) log1)
    as [[s|e] log2] eqn:E; [|simpl; tauto].
  simpl. repeat split; trivial. right. exists s.
  destruct (SummarizeWorkItems_success _ _ _ _ _ E)
    as [(_ & -> & _)|(_ & l & -> & Hne)].
  - repeat split; trivial; discriminate.
  - repeat split; trivial. apply TrimSpace_idem.
Qed.

(** X16. [Reconcile] with a previous note changes nothing of either note
    but the work items and two summaries: identity, tags, date, title
    and path stay, and so do the yesterday's summary of the previous
    note and the summary and the completed work of today's note.  The
    summary of the previous note and the yesterday's summary of today's
    note are either both left as they were or both set to the same text,
    which is not empty and has no white space at its ends. *)
Theorem Reconcile_summaries be prev today verdicts log :
  exists prev' today',
    fst (Reconcile be (Some prev) today verdicts log) = (Some prev', today')
    /\ sameHeader prev' prev /\ sameHeader today' today
    /\ YesterdaySummary prev' = YesterdaySummary prev
    /\ Summary today' = Summary today
    /\ CompletedWork today' = CompletedWork today
    /\ ((Summary prev' = Summary prev
         /\ YesterdaySummary today' = YesterdaySummary today)
        \/ (exists s, s <> "" /\ TrimSpace s = s
                      /\ Summary prev' = s /\ YesterdaySummary today' = s)).
Proof.
  unfold Reconcile.
  pose proof (reviewPending_header prev today verdicts) as R.
  destruct (reviewPending prev today verdicts) as [p1 t1].
  cbn [fst snd] in R. destruct R as (H1 & H2 & S1 & Y1 & S2 & Y2 & C2).
  unfold bind.
  pose proof (summarizePrevious_summaries be p1 t1 log) as K.
  pose proof (summarizePrevious_keeps_work be p1 t1 log) as W.
  destruct (summarizePrevious be p1 t1 log) as [[p' t'] log'].
  cbn [fst snd] in K, W. destruct K as (K1 & K2 & K3 & K4 & K5).
  destruct W as (_ & _ & _ & W4).
  exists p', t'. cbn [fst snd].
  unfold sameHeader in *.
  rewrite <- S1, <- Y1, <- S2, <- Y2, <- C2.
  repeat split; try tauto; try congruence;
    try (etransitivity; [apply K1|apply H1]);
    try (etransitivity; [apply K2|apply H2]).
Qed.

Lemma marked_or_carried items : forall v,
  Permutation (map Text items)
              (map Text (markedItems items v ++ carriedItems items v))
  /\ Forall (fun it => Completed it = true) (markedItems items v)
  /\ Forall (fun it => Completed it = false) (carriedItems items v).
Proof.
  induction items as [|it items IH]; intros v; simpl.
  - repeat split; constructor.
  - destruct (IH (tl v)) as (P & Fm & Fc).
    destruct (hd false v); simpl.
    + repeat split; trivial; now constructor.
    + repeat split; trivial; [|now constructor].
      rewrite map_app. simpl. rewrite <- Permutation_middle.
      rewrite <- map_app. now constructor.
Qed.

(** X17. The review of the pending items by [Reconcile] loses no task
    and doubles none: what the previous note gains as completed items
    and what today's note gains as pending items have together the texts
    of the pending items of the previous note, each as often as there;
    the first are all marked completed and the second all pending. *)
Theorem Reconcile_keeps_every_task be prev today verdicts log :
  exists prev' today' done carried,
    fst (Reconcile be (Some prev) today verdicts log) = (Some prev', today')
    /\ CompletedWork prev' = (CompletedWork prev ++ done)%list
    /\ PendingWork today' = (PendingWork today ++ carried)%list
    /\ Permutation (map Text (PendingWork prev))
                   (map Text (done ++ carried))
    /\ Forall (fun it => Completed it = true) done
    /\ Forall (fun it => Completed it = false) carried.
Proof.
  unfold Reconcile. rewrite reviewPending_spec. unfold bind.
  match goal with
  | |- context [summarizePrevious be ?p ?t log] =>
      pose proof (summarizePrevious_keeps_work be p t log) as K;
      destruct (summarizePrevious be p t log) as [[p' t'] log']
  end.
  simpl in K. destruct K as (K1 & K2 & K3 & _).
  destruct (marked_or_carried (PendingWork prev) verdicts) as (P & Fm & Fc).
  exists p', t', (rev (markedItems (PendingWork prev) verdicts)),
    (carriedItems (PendingWork prev) verdicts).
  simpl. repeat split; trivial.
  - rewrite P, !map_app. apply Permutation_app_tail.
    rewrite map_rev. apply Permutation_rev.
  - now apply Forall_rev.
Qed.

Lemma appends_SummarizeWorkItems be items :
  appends (SummarizeWorkItems be items).
Proof.
  unfold SummarizeWorkItems, createSession, startEventListener,
    sendMessageAsync, getMessages.
  appends_cases.
Qed.

(** X18. The requests of [Reconcile].  Without a previous note it makes
    none and returns today's note as it is.  With one it makes none when
    after the review the previous note has no completed work (it had
    none and no pending item was answered yes); otherwise, whether the
    completed work was there before or comes from the review, its first
    request asks for the health of the server, and when that fails it is
    the only request and the summaries stay as they were. *)
Theorem Reconcile_requests be today verdicts log :
  Reconcile be None today verdicts log = ((None, today), log)
  /\ (forall prev,
        (CompletedWork prev
         ++ rev (markedItems (PendingWork prev) verdicts))%list = [] ->
        snd (Reconcile be (Some prev) today verdicts log) = log)
  /\ (forall prev,
        (CompletedWork prev
         ++ rev (markedItems (PendingWork prev) verdicts))%list <> [] ->
        exists rest,
          snd (Reconcile be (Some prev) today verdicts log)
          = (log ++ GetHealth :: rest)%list
          /\ (healthy be (log ++ [GetHealth])%list = false ->
              rest = []
              /\ exists prev' today',
                  fst (Reconcile be (Some prev) today verdicts log)
                  = (Some prev', today')
                  /\ Summary prev' = Summary prev
                  /\ YesterdaySummary today' = YesterdaySummary today)).
Proof.
  split; [reflexivity|]. split.
  - intros prev E. unfold Reconcile. rewrite reviewPending_spec.
    rewrite E. unfold bind, summarizePrevious, HasCompletedWork.
    reflexivity.
  - intros prev Hc. unfold Reconcile. rewrite reviewPending_spec.
    unfold bind, summarizePrevious, HasCompletedWork.
    cbn [CompletedWork setPendingWork setCompletedWork].
    destruct (CompletedWork prev
              ++ rev (markedItems (PendingWork prev) verdicts))%list
      as [|c cs]; [contradiction|].
    cbn [List.length Nat.ltb Nat.leb]. unfold bind, TestConnection, call.
    destruct (healthy be (log ++ [GetHealth])%list) eqn:Hh; cbn [negb].
    + match goal with
      | |- context [SummarizeWorkItems be ?its ?l] =>
          destruct (appends_SummarizeWorkItems be its l) as (rest & Q);
          destruct (SummarizeWorkItems be its l) as [r lg]
      end.
      cbn [snd] in Q. subst lg. exists rest.
      split; [|discriminate].
      destruct r; cbn [snd ret]; now rewrite <- app_assoc.
    + exists []. split; [reflexivity|]. intros _. split; [reflexivity|].
      eexists _, _. cbn [fst snd ret]. split; [reflexivity|]. now split.
Qed.

Lemma Reconcile_requests_witness :
  snd (Reconcile unhealthy (Some (setCompletedWork sampleNote [])) todayNote
         [false; false; false; true] []) = []
  /\ (exists rest,
        snd (Reconcile unhealthy (Some (setCompletedWork sampleNote []))
               todayNote [true] []) = GetHealth :: rest
        /\ rest = [])
  /\ exists rest,
      snd (Reconcile unhealthy (Some sampleNote) todayNote
             [false; false; false] []) = GetHealth :: rest
      /\ rest = [].
Proof.
  split; [|split].
  - apply (proj1 (proj2 (Reconcile_requests unhealthy todayNote
                           [false; false; false; true] []))).
    reflexivity.
  - destruct (proj2 (proj2 (Reconcile_requests unhealthy todayNote
                              [true] []))
                (setCompletedWork sampleNote []))
      as (rest & E & H).
    + discriminate.
    + exists rest. split; [exact E|]. apply H. reflexivity.
  - destruct (proj2 (proj2 (Reconcile_requests unhealthy todayNote
                              [false; false; false] [])) sampleNote)
      as (rest & E & H).
    + discriminate.
    + exists rest. split; [exact E|]. apply H. reflexivity.
Defined.

(* ================================================================= *)
(** * Properties of the commands [done], [review] and [delete] *)

Lemma selectFrom_none i items v :
  markedItems items v = [] -> selectFrom i items v = [].
Proof.
  revert i v; induction items as [|it items IH]; intros i v; simpl;
    [reflexivity|].
  destruct (hd false v); [discriminate|apply IH].
Qed.

Lemma selectFrom_some i items v :
  markedItems items v <> [] -> selectFrom i items v <> [].
Proof.
  revert i v; induction items as [|it items IH]; intros i v; simpl;
    [tauto|].
  destruct (hd false v); [discriminate|apply IH].
Qed.

Lemma keptItems_none items v :
  markedItems items v = [] -> keptItems items v = items.
Proof.
  revert v; induction items as [|it items IH]; intros v; simpl;
    [reflexivity|].
  destruct (hd false v); [discriminate|]. intros H. now rewrite IH.
Qed.

Lemma setWork_same n :
  setPendingWork n (PendingWork n) = n
  /\ setCompletedWork n (CompletedWork n) = n.
Proof. now destruct n. Qed.

(** Marking the chosen indices from the last to the first. *)
Lemma mark_selected items :
  forall pre v n,
    PendingWork n = (pre ++ items)%list ->
    fold_left MarkItemCompleted
      (rev (selectFrom (Z.of_nat (List.length pre)) items v)) n
    = setPendingWork
        (setCompletedWork n (CompletedWork n ++ rev (markedItems items v)))
        (pre ++ keptItems items v).
Proof.
  induction items as [|it items IH]; intros pre v n Hp.
  - simpl. rewrite !app_nil_r in *. rewrite <- Hp.
    now destruct n.
  - cbn [selectFrom markedItems keptItems].
    assert (Hp' : PendingWork n = ((pre ++ [it]) ++ items)%list)
      by now rewrite <- app_assoc.
    specialize (IH (pre ++ [it])%list (tl v) n Hp').
    rewrite length_app in IH. cbn [List.length] in IH.
    replace (Z.of_nat (List.length pre + 1))
      with (Z.of_nat (List.length pre) + 1)%Z in IH by lia.
    destruct (hd false v).
    + cbn [rev]. rewrite fold_left_app, IH. cbn [fold_left].
      unfold MarkItemCompleted.
      cbn [PendingWork CompletedWork setPendingWork setCompletedWork].
      rewrite <- app_assoc. cbn [app].
      assert (B : inBounds (Z.of_nat (List.length pre))
                    (pre ++ it :: keptItems items (tl v)) = true).
      { apply inBounds_true. rewrite length_app. simpl. lia. }
      rewrite B, Nat2Z.id, nth_error_app2, Nat.sub_diag by lia.
      cbn [nth_error]. rewrite removeAt_middle, <- app_assoc.
      reflexivity.
    + rewrite IH, <- app_assoc. reflexivity.
Qed.

(** The same for the loop of [runReview], which never leaves the range. *)
Lemma review_selected items :
  forall pre v n,
    PendingWork n = (pre ++ items)%list ->
    fold_left reviewItem
      (rev (selectFrom (Z.of_nat (List.length pre)) items v)) (Some n)
    = Some (setPendingWork
              (setCompletedWork n
                 (CompletedWork n ++ rev (markedItems items v)))
              (pre ++ keptItems items v)).
Proof.
  induction items as [|it items IH]; intros pre v n Hp.
  - simpl. rewrite !app_nil_r in *. rewrite <- Hp.
    now destruct n.
  - cbn [selectFrom markedItems keptItems].
    assert (Hp' : PendingWork n = ((pre ++ [it]) ++ items)%list)
      by now rewrite <- app_assoc.
    specialize (IH (pre ++ [it])%list (tl v) n Hp').
    rewrite length_app in IH. cbn [List.length] in IH.
    replace (Z.of_nat (List.length pre + 1))
      with (Z.of_nat (List.length pre) + 1)%Z in IH by lia.
    destruct (hd false v).
    + cbn [rev]. rewrite fold_left_app, IH. cbn [fold_left].
      unfold reviewItem.
      cbn [PendingWork CompletedWork setPendingWork setCompletedWork].
      rewrite <- app_assoc. cbn [app].
      assert (B : inBounds (Z.of_nat (List.length pre))
                    (pre ++ it :: keptItems items (tl v)) = true).
      { apply inBounds_true. rewrite length_app. simpl. lia. }
      rewrite B, Nat2Z.id, nth_error_app2, Nat.sub_diag by lia.
      cbn [nth_error]. rewrite removeAt_middle, <- app_assoc.
      reflexivity.
    + rewrite IH, <- app_assoc. reflexivity.
Qed.

Lemma mark_all n v :
  fold_left MarkItemCompleted (rev (selectFrom 0 (PendingWork n) v)) n
  = setPendingWork
      (setCompletedWork n
         (CompletedWork n ++ rev (markedItems (PendingWork n) v)))
      (keptItems (PendingWork n) v).
Proof. exact (mark_selected (PendingWork n) [] v n eq_refl). Qed.

Lemma review_all n v :
  fold_left reviewItem (rev (selectFrom 0 (PendingWork n) v)) (Some n)
  = Some (setPendingWork
            (setCompletedWork n
               (CompletedWork n ++ rev (markedItems (PendingWork n) v)))
            (keptItems (PendingWork n) v)).
Proof. exact (review_selected (PendingWork n) [] v n eq_refl). Qed.

Lemma length_zero_nil {A} (l : list A) :
  (List.length l =? 0)%nat = match l with [] => true | _ => false end.
Proof. now destruct l. Qed.

Lemma no_pending_none_marked n v :
  HasPendingWork n = false -> markedItems (PendingWork n) v = [].
Proof.
  unfold HasPendingWork. now destruct (PendingWork n).
Qed.

(** X19. [runDone] writes nothing when no pending item is answered yes.
    Otherwise it writes the note in which exactly the items answered yes
    have left the pending work, the others keeping their order, and have
    joined the completed work as completed items, the last of them
    first; nothing else of the note changes. *)
Theorem runDone_moves_selected (n : Note) (verdicts : list bool) :
  runDone (Some n) verdicts = selectedMoved n verdicts.
Proof.
  unfold runDone, selectedMoved.
  destruct (HasPendingWork n) eqn:Hp; cbn [negb].
  2:{ now rewrite no_pending_none_marked. }
  unfold SelectPendingItems. rewrite length_zero_nil.
  destruct (markedItems (PendingWork n) verdicts) as [|m ms] eqn:Em.
  - now rewrite selectFrom_none.
  - assert (Hs : selectFrom 0 (PendingWork n) verdicts <> []).
    { apply selectFrom_some. rewrite Em. discriminate. }
    destruct (selectFrom 0 (PendingWork n) verdicts) as [|i0 rest0] eqn:Es;
      [contradiction|].
    rewrite <- Es, <- Em.
    now rewrite mark_all.
Qed.

(** X20. The loop of [runReview], which sorts the indices and cuts the
    items out without a test of the index, never reads out of range, and
    [runReview] ends as [runDone] does on the same note and answers. *)
Theorem runReview_as_runDone (previousNote : option Note)
  (verdicts : list bool) :
  runReview previousNote verdicts = runDone previousNote verdicts
  /\ match previousNote with
     | Some n => runReview previousNote verdicts = selectedMoved n verdicts
     | None => runReview previousNote verdicts = NotWritten
     end.
Proof.
  assert (E : forall n, runReview (Some n) verdicts
                        = selectedMoved n verdicts).
  { intros n. unfold runReview, selectedMoved.
    destruct (HasPendingWork n) eqn:Hp; cbn [negb].
    2:{ now rewrite no_pending_none_marked. }
    rewrite sortDescending_select.
    unfold SelectPendingItems. rewrite length_zero_nil.
    destruct (markedItems (PendingWork n) verdicts) as [|m ms] eqn:Em.
    - now rewrite selectFrom_none.
    - assert (Hs : selectFrom 0 (PendingWork n) verdicts <> []).
      { apply selectFrom_some. rewrite Em. discriminate. }
      destruct (selectFrom 0 (PendingWork n) verdicts) as [|i0 rest0] eqn:Es;
        [contradiction|].
      rewrite <- Es, <- Em.
      now rewrite review_all. }
  destruct previousNote as [n|]; [|now split].
  split; [|apply E].
  rewrite E. unfold runDone.
  destruct (HasPendingWork n) eqn:Hp; cbn [negb].
  2:{ unfold selectedMoved. now rewrite no_pending_none_marked. }
  unfold SelectPendingItems. rewrite length_zero_nil. unfold selectedMoved.
  destruct (markedItems (PendingWork n) verdicts) as [|m ms] eqn:Em.
  - now rewrite selectFrom_none.
  - assert (Hs : selectFrom 0 (PendingWork n) verdicts <> []).
    { apply selectFrom_some. rewrite Em. discriminate. }
    destruct (selectFrom 0 (PendingWork n) verdicts) as [|i0 rest0] eqn:Es;
      [contradiction|].
    rewrite <- Es, <- Em.
    now rewrite mark_all.
Qed.

(** Removing the chosen indices from the last to the first. *)
Lemma remove_selected (items : list WorkItem) :
  forall pre v,
    fold_left (fun l i => if inBounds i l then removeAt i l else l)
      (rev (selectFrom (Z.of_nat (List.length pre)) items v))
      (pre ++ items)%list
    = (pre ++ keptItems items v)%list.
Proof.
  induction items as [|it items IH]; intros pre v.
  - reflexivity.
  - cbn [selectFrom keptItems].
    specialize (IH (pre ++ [it])%list (tl v)).
    rewrite length_app in IH. cbn [List.length] in IH.
    replace (Z.of_nat (List.length pre + 1))
      with (Z.of_nat (List.length pre) + 1)%Z in IH by lia.
    rewrite <- !app_assoc in IH. cbn [app] in IH.
    destruct (hd false v).
    + cbn [rev]. rewrite fold_left_app, IH. cbn [fold_left].
      assert (B : inBounds (Z.of_nat (List.length pre))
                    (pre ++ it :: keptItems items (tl v)) = true).
      { apply inBounds_true. rewrite length_app. simpl. lia. }
      now rewrite B, removeAt_middle.
    + exact IH.
Qed.

Lemma remove_all (items : list WorkItem) v :
  fold_left (fun l i => if inBounds i l then removeAt i l else l)
    (rev (selectFrom 0 items v)) items
  = keptItems items v.
Proof. exact (remove_selected items [] v). Qed.

Lemma fold_RemovePendingItem idx : forall n,
  fold_left RemovePendingItem idx n
  = setPendingWork n
      (fold_left (fun l i => if inBounds i l then removeAt i l else l)
                 idx (PendingWork n)).
Proof.
  induction idx as [|i idx IH]; intros n; cbn [fold_left].
  - now destruct n.
  - rewrite IH. unfold RemovePendingItem.
    now destruct (inBounds i (PendingWork n)).
Qed.

Lemma fold_RemoveCompletedItem idx : forall n,
  fold_left RemoveCompletedItem idx n
  = setCompletedWork n
      (fold_left (fun l i => if inBounds i l then removeAt i l else l)
                 idx (CompletedWork n)).
Proof.
  induction idx as [|i idx IH]; intros n; cbn [fold_left].
  - now destruct n.
  - rewrite IH. unfold RemoveCompletedItem.
    now destruct (inBounds i (CompletedWork n)).
Qed.

Lemma selectFrom_length i items v :
  List.length (selectFrom i items v) = List.length (markedItems items v).
Proof.
  revert i v; induction items as [|it items IH]; intros i v; simpl;
    [reflexivity|].
  destruct (hd false v); simpl; now rewrite IH.
Qed.

Lemma sorted_selection items v :
  sortDescending (SelectTasksToDelete items v) = rev (selectFrom 0 items v).
Proof. exact (sortDescending_select items v). Qed.

(** X21. [deleteSpecificTasks] writes nothing when no task is answered
    yes.  Otherwise it writes the note in which exactly the tasks
    answered yes are gone from the pending and from the completed work,
    the others keeping their order; nothing else of the note changes. *)
Theorem deleteSpecificTasks_keeps_unselected (n : Note)
  (pendingVerdicts completedVerdicts : list bool) :
  deleteSpecificTasks n pendingVerdicts completedVerdicts
  = unselectedKept n pendingVerdicts completedVerdicts.
Proof.
  unfold deleteSpecificTasks, unselectedKept.
  assert (P : (if HasPendingWork n
               then
                 (fold_left RemovePendingItem
                    (sortDescending
                       (SelectTasksToDelete (PendingWork n) pendingVerdicts))
                    n,
                  List.length
                    (sortDescending
                       (SelectTasksToDelete (PendingWork n) pendingVerdicts)))
               else (n, 0%nat))
              = (setPendingWork n (keptItems (PendingWork n) pendingVerdicts),
                 List.length (markedItems (PendingWork n) pendingVerdicts))).
  { unfold HasPendingWork.
    destruct (PendingWork n) as [|it items] eqn:E.
    - simpl. rewrite <- E. now destruct n.
    - change (0 <? List.length (it :: items))%nat with true. cbv iota.
      rewrite sorted_selection, length_rev, selectFrom_length.
      rewrite fold_RemovePendingItem, E.
      now rewrite remove_all. }
  rewrite P. clear P.
  set (n1 := setPendingWork n (keptItems (PendingWork n) pendingVerdicts)).
  assert (C : (if HasCompletedWork n1
               then
                 (fold_left RemoveCompletedItem
                    (sortDescending
                       (SelectTasksToDelete (CompletedWork n1)
                          completedVerdicts))
                    n1,
                  List.length
                    (sortDescending
                       (SelectTasksToDelete (CompletedWork n1)
                          completedVerdicts)))
               else (n1, 0%nat))
              = (setCompletedWork n1
                   (keptItems (CompletedWork n) completedVerdicts),
                 List.length
                   (markedItems (CompletedWork n) completedVerdicts))).
  { unfold HasCompletedWork.
    change (CompletedWork n1) with (CompletedWork n).
    destruct (CompletedWork n) as [|it items] eqn:E.
    - simpl. f_equal. unfold n1. destruct n; simpl in *. now subst.
    - change (0 <? List.length (it :: items))%nat with true. cbv iota.
      rewrite sorted_selection, length_rev, selectFrom_length.
      rewrite fold_RemoveCompletedItem.
      change (CompletedWork n1) with (CompletedWork n). rewrite E.
      now rewrite remove_all. }
  rewrite C. clear C.
  rewrite <- length_app, length_zero_nil.
  unfold HasPendingWork, HasCompletedWork.
  destruct (PendingWork n) as [|p ps] eqn:Ep;
    destruct (CompletedWork n) as [|c cs] eqn:Ec;
    try reflexivity;
    match goal with
    | |- context [(?a ++ ?b)%list] => destruct (a ++ b)%list; reflexivity
    end.
Qed.

(* ================================================================= *)
(** * The previous note and today's note *)

Lemma parseLines_FilePath toks : forall st,
  FilePath (note (fold_left parseLine toks st)) = FilePath (note st).
Proof.
  induction toks as [|l toks IH]; intros st; simpl; [reflexivity|].
  rewrite IH. apply parseLine_separate.
Qed.

Lemma ParseFile_FilePath filePath f n e :
  ParseFile filePath f = (Some n, e) -> FilePath n = filePath.
Proof.
  unfold ParseFile.
  destruct f as [|data|data]; [discriminate| |];
    destruct (scanTokens (rawLines data)) as [toks e'];
    intros H; injection H as <- _; unfold parseLines;
    now rewrite parseLines_FilePath.
Qed.

Lemma generated_name_date d w m :
  dateRegexSubmatch (GenerateFilename d w) = Some m -> m = FormatISO d.
Proof.
  unfold GenerateFilename, FormatISO, fmt4, fmt2. cbn [append].
  unfold dateRegexSubmatch.
  match goal with
  | |- (if ?c then _ else _) = _ -> _ => destruct c
  end; [|discriminate].
  intros H. now injection H as <-.
Qed.

Lemma FindMostRecentNote_chosen fs p beforeDate n e :
  FindMostRecentNote fs p beforeDate = (Some n, e) ->
  exists f d,
    considered fs p beforeDate f d
    /\ (forall f' d', considered fs p beforeDate f' d' ->
                      After d' d = false)
    /\ FilePath n = f.
Proof.
  intros H.
  destruct (glob fs (notesDir p) (notePattern p)) as [files|] eqn:G.
  2:{ unfold FindMostRecentNote in H. rewrite G in H. discriminate. }
  rewrite (FindMostRecentNote_by_valid _ _ _ _ G) in H.
  set (less := fun a b : fileDate => After (date a) (date b)) in *.
  destruct (sortSlice less (validFilesOf beforeDate files))
    as [|first rest] eqn:Es; [discriminate|].
  assert (Asym : forall a b, less a b = true -> less b a = false).
  { intros a b. unfold less, After. apply Before_asym. }
  assert (Neg : forall a b c,
             less a b = false -> less b c = false -> less a c = false).
  { intros a b c. unfold less, After. intros X Y.
    exact (Before_negtrans _ _ _ Y X). }
  destruct (sortSlice_head less Asym Neg _ first rest Es) as [If Hmax].
  apply (candidate_considered fs p beforeDate files _ G) in If.
  exists (path first), (date first). split; [exact If|]. split.
  - intros f' d' Hc'.
    apply (Hmax (mkFileDate f' d')).
    now apply (candidate_considered fs p beforeDate files _ G).
  - exact (ParseFile_FilePath _ _ _ _ H).
Qed.

Lemma Before_dayBefore t : Before (dayBefore t) t = true.
Proof.
  apply Before_spec. unfold dayBefore.
  destruct (Z.ltb_spec 1 (day t)); [simpl; lia|].
  destruct (Z.ltb_spec 1 (month t)); simpl; lia.
Qed.

(** No calendar date lies between a day and the day before it. *)
Lemma dayBefore_next d t :
  validDate d = true ->
  Before d t = true -> Before d (dayBefore t) = false ->
  d = dayBefore t.
Proof.
  intros Hv Hb Hn. apply validDate_bounds in Hv.
  destruct Hv as (_ & Hm & Hd).
  apply Before_spec in Hb. apply Before_false in Hn.
  revert Hn. unfold dayBefore. destruct d as [yd md dd]. simpl in *.
  destruct (Z.ltb_spec 1 (day t)); simpl; intros Hn.
  - f_equal; lia.
  - destruct (Z.ltb_spec 1 (month t)); simpl in Hn.
    + assert (Ey : yd = year t) by lia.
      assert (Em : md = (month t - 1)%Z) by lia.
      subst yd md. f_equal. lia.
    + pose proof (daysIn_le_31 md yd).
      assert (Ey : yd = (year t - 1)%Z) by lia.
      assert (Em : md = 12%Z) by lia.
      subst yd md. f_equal. lia.
Qed.

(** X22. The previous note and today's note.  The note that
    [FindMostRecentNote] returns for the day of a command carries the
    path of a file it considers.  When the local zone is UTC or east of
    it, the base name of that file is never the name of today's file.
    When the zone is west of UTC, the name of today's file shows the day
    before (the workplace name being without line feed): if
    [filepath.Glob] returns today's file, the note returned is of a file
    with the very date of today's file, a day's own note being taken for
    the previous one. *)
Theorem previous_note_and_todays_note fs p west today n e :
  validDate (shownDate west today) = true ->
  FindMostRecentNote fs p today = (Some n, e) ->
  exists f d,
    considered fs p today f d
    /\ FilePath n = f
    /\ (west = false -> Base f <> todaysFile west p today)
    /\ (west = true ->
        hasByte LF (workplaceName p) = false ->
        forall files f0,
          glob fs (notesDir p) (notePattern p) = Matches files ->
          In f0 files ->
          Base f0 = todaysFile west p today ->
          d = shownDate west today).
Proof.
  intros Hv H.
  destruct (FindMostRecentNote_chosen _ _ _ _ _ H) as (f & d & Hc & Hmax & Hp).
  exists f, d. split; [exact Hc|]. split; [exact Hp|]. split.
  - intros -> Hb. unfold todaysFile, shownDate in *.
    destruct Hc as (_ & m & Em & Ed & Eb).
    rewrite Hb in Em. apply generated_name_date in Em. subst m.
    rewrite (ParseISO_FormatISO today Hv) in Ed. injection Ed as Ed.
    rewrite <- Ed in Eb.
    pose proof (Before_asym _ _ Eb) as Eb'. congruence.
  - intros -> Hw files f0 G Hin Hb. unfold todaysFile, shownDate in *.
    pose proof (generated_name_considered fs p _ today files f0
                  Hv Hw G Hin Hb (Before_dayBefore today)) as C0.
    pose proof (Hmax _ _ C0) as M. unfold After in M.
    destruct Hc as (_ & m & _ & Ed & Eb).
    apply ParseISO_sound in Ed. destruct Ed as [Vd _].
    now apply dayBefore_next.
Qed.

Lemma previous_note_and_todays_note_witness :
  (exists f d,
      considered acmeFiles acme (jan 18) f d
      /\ FilePath (noteOf "17" 17) = f
      /\ Base f <> todaysFile false acme (jan 18))
  /\ (exists f d,
        considered acmeFiles acme (jan 19) f d
        /\ FilePath (noteOf "18" 18) = f
        /\ d = shownDate true (jan 19)).
Proof.
  split.
  - destruct (previous_note_and_todays_note acmeFiles acme false (jan 18)
                (noteOf "17" 17) None)
      as (f & d & Hc & Hp & He & _).
    + reflexivity.
    + vm_compute. reflexivity.
    + exists f, d. split; [exact Hc|]. split; [exact Hp|].
      apply He. reflexivity.
  - destruct (previous_note_and_todays_note acmeFiles acme true (jan 19)
                (noteOf "18" 18) None)
      as (f & d & Hc & Hp & _ & Hw).
    + reflexivity.
    + vm_compute. reflexivity.
    + exists f, d. split; [exact Hc|]. split; [exact Hp|].
      apply (Hw eq_refl eq_refl
               ["notes/0000-00-00-Acme.md"; "notes/2025-01-15-Acme.md";
                "notes/2025-01-17-Acme.md"; "notes/2025-01-18-Acme.md"]
               "notes/2025-01-18-Acme.md").
      * vm_compute. reflexivity.
      * simpl. tauto.
      * vm_compute. reflexivity.
Defined.

(* ================================================================= *)
(** * Properties of the configuration *)

Lemma Setenv_keeps env key value k v :
  LookupEnv env key = None ->
  LookupEnv env k = Some v ->
  LookupEnv (Setenv env key value) k = Some v.
Proof.
  intros Hn Hk. unfold Setenv.
  destruct (_ || _); [exact Hk|]. cbn [LookupEnv].
  destruct (String.eqb_spec key k) as [->|]; [congruence|exact Hk].
Qed.

Lemma configLine_keeps env text k v :
  LookupEnv env k = Some v -> LookupEnv (configLine env text) k = Some v.
Proof.
  intros Hk. unfold configLine.
  destruct (_ || _); [exact Hk|].
  destruct (SplitN2 (TrimSpace text) "=") as [[a b]|]; [|exact Hk].
  destruct (LookupEnv env (TrimSpace a)) eqn:E; [exact Hk|].
  now apply Setenv_keeps.
Qed.

Lemma configLines_keep lines : forall env k v,
  LookupEnv env k = Some v ->
  LookupEnv (fold_left configLine lines env) k = Some v.
Proof.
  induction lines as [|l lines IH]; intros env k v H; simpl; [exact H|].
  apply IH. now apply configLine_keeps.
Qed.

(** A line that changes nothing now changes nothing later. *)
Lemma configLine_settled_in env env' text :
  (forall k v, LookupEnv env k = Some v -> LookupEnv env' k = Some v) ->
  configLine env text = env ->
  configLine env' text = env'.
Proof.
  intros K. unfold configLine.
  destruct (_ || _); [reflexivity|].
  destruct (SplitN2 (TrimSpace text) "=") as [[a b]|]; [|reflexivity].
  destruct (LookupEnv env (TrimSpace a)) as [v|] eqn:E.
  - intros _. now rewrite (K _ _ E).
  - unfold Setenv. destruct (_ || _) eqn:Inv.
    + intros _. now destruct (LookupEnv env' (TrimSpace a)).
    + intros H. exfalso.
      assert (L : List.length ((TrimSpace a, TrimSpace b) :: env)
                  = List.length env) by now rewrite H.
      simpl in L. lia.
Qed.

Lemma configLine_settled env text text' :
  configLine env text = env ->
  configLine (configLine env text') text = configLine env text'.
Proof.
  apply configLine_settled_in. intros k v. apply configLine_keeps.
Qed.

Lemma configLine_twice env text :
  configLine (configLine env text) text = configLine env text.
Proof.
  remember (configLine env text) as env' eqn:E'.
  revert E'. unfold configLine.
  destruct (_ || _) eqn:Skip; [now intros ->|].
  destruct (SplitN2 (TrimSpace text) "=") as [[a b]|] eqn:Es;
    [|now intros ->].
  destruct (LookupEnv env (TrimSpace a)) as [v|] eqn:E.
  { intros E'. rewrite E'. now rewrite E. }
  unfold Setenv.
  destruct (String.eqb (TrimSpace a) "" || _ || _ || _) eqn:Inv;
    intros E'; rewrite E'.
  - now rewrite E.
  - cbn [LookupEnv]. now rewrite String.eqb_refl.
Qed.

Lemma configLines_settled lines : forall env text,
  configLine env text = env ->
  configLine (fold_left configLine lines env) text
  = fold_left configLine lines env.
Proof.
  induction lines as [|l lines IH]; intros env text H; simpl; [exact H|].
  apply IH. now apply configLine_settled.
Qed.

Lemma configLines_all_settled lines : forall env text,
  In text lines ->
  configLine (fold_left configLine lines env) text
  = fold_left configLine lines env.
Proof.
  induction lines as [|l lines IH]; intros env text Hin; [contradiction|].
  destruct Hin as [<-|Hin]; simpl.
  - apply configLines_settled, configLine_twice.
  - now apply IH.
Qed.

Lemma configLines_fixed lines : forall env,
  (forall text, In text lines -> configLine env text = env) ->
  fold_left configLine lines env = env.
Proof.
  induction lines as [|l lines IH]; intros env H; simpl; [reflexivity|].
  rewrite (H l) by now left. apply IH. intros t Ht. apply H. now right.
Qed.

(** X23. [loadConfigFile] never changes a variable that is set: the
    environment wins over the file, and among the lines of the file for
    one key the first one that sets it.  Loading the same file a second
    time changes nothing. *)
Theorem loadConfigFile_keeps_environment (f : File) (env : Env) :
  (forall key value,
      LookupEnv env key = Some value ->
      LookupEnv (loadConfigFile f env) key = Some value)
  /\ loadConfigFile f (loadConfigFile f env) = loadConfigFile f env.
Proof.
  split.
  - intros key value H.
    destruct f as [|data|data]; cbn [loadConfigFile]; trivial;
      now apply configLines_keep.
  - destruct f as [|data|data]; cbn [loadConfigFile]; trivial;
      apply configLines_fixed; intros t Ht;
      now apply configLines_all_settled.
Qed.

Lemma loadConfigFile_keeps_environment_witness :
  LookupEnv (loadConfigFile (Readable sampleConfig)
               [("WORKPLACE_NAME", "Shell")]) "WORKPLACE_NAME"
  = Some "Shell".
Proof.
  apply (proj1 (loadConfigFile_keeps_environment (Readable sampleConfig)
                  [("WORKPLACE_NAME", "Shell")])).
  reflexivity.
Defined.

Lemma SplitN2_no_sep s sep a b :
  SplitN2 s sep = Some (a, b) -> hasByte sep a = false /\ s = a ++ String sep b.
Proof.
  revert a b; induction s as [|c s IH]; intros a b; simpl; [discriminate|].
  destruct (Ascii.eqb_spec c sep) as [->|Hne].
  - intros H. injection H as <- <-. now split.
  - destruct (SplitN2 s sep) as [[a' b']|]; [|discriminate].
    intros H. injection H as <- <-.
    destruct (IH a' b' eq_refl) as [Ha ->]. simpl.
    split; [|reflexivity].
    rewrite Ha, orb_false_r. now apply Ascii.eqb_neq.
Qed.

(** X24. A variable that [loadConfigFile] sets comes from a line of the
    file: the key is not empty, has no equals sign and no white space at
    its ends, and the value has no white space at its ends. *)
Theorem loadConfigFile_sets_trimmed (f : File) (env : Env)
  (key value : string) :
  LookupEnv env key = None ->
  LookupEnv (loadConfigFile f env) key = Some value ->
  key <> "" /\ hasByte "=" key = false
  /\ TrimSpace key = key /\ TrimSpace value = value.
Proof.
  assert (G : forall lines env,
             LookupEnv env key = None ->
             LookupEnv (fold_left configLine lines env) key = Some value ->
             key <> "" /\ hasByte "=" key = false
             /\ TrimSpace key = key /\ TrimSpace value = value).
  { clear env. induction lines as [|l lines IH]; intros env Hn Hs; simpl in *.
    - congruence.
    - destruct (LookupEnv (configLine env l) key) as [v|] eqn:E.
      + rewrite (configLines_keep lines _ _ _ E) in Hs. injection Hs as ->.
        revert E. unfold configLine.
        destruct (_ || _); [congruence|].
        destruct (SplitN2 (TrimSpace l) "=") as [[a b]|]; [|congruence].
        destruct (LookupEnv env (TrimSpace a)); [congruence|].
        unfold Setenv. destruct (_ || _) eqn:Inv; [congruence|].
        cbn [LookupEnv].
        destruct (String.eqb_spec (TrimSpace a) key) as [<-|]; [|congruence].
        intros H. injection H as <-.
        rewrite !orb_false_iff in Inv. destruct Inv as [[[K1 K2] _] _].
        repeat split; trivial; try apply TrimSpace_idem.
        now apply String.eqb_neq.
      + exact (IH _ E Hs). }
  intros Hn Hs. destruct f as [|data|data]; cbn [loadConfigFile] in Hs.
  - congruence.
  - exact (G _ _ Hn Hs).
  - exact (G _ _ Hn Hs).
Qed.

Lemma loadConfigFile_sets_trimmed_witness :
  "WORKPLACE_NAME" <> "" /\ hasByte "=" "WORKPLACE_NAME" = false
  /\ TrimSpace "WORKPLACE_NAME" = "WORKPLACE_NAME"
  /\ TrimSpace "Acme" = "Acme".
Proof.
  apply (loadConfigFile_sets_trimmed (Readable sampleConfig) []).
  - reflexivity.
  - vm_compute. reflexivity.
Defined.

Lemma Split_nonempty s sep : Split s sep <> [].
Proof.
  destruct s as [|c s]; simpl; [discriminate|].
  destruct (Ascii.eqb c sep); [discriminate|].
  destruct (Split s sep); discriminate.
Qed.

Lemma Split_no_sep s sep :
  Forall (fun p => hasByte sep p = false) (Split s sep).
Proof.
  induction s as [|c s IH]; simpl.
  - now constructor.
  - destruct (Ascii.eqb_spec c sep) as [->|Hne].
    + now constructor.
    + destruct (Split s sep) as [|p ps].
      * constructor; [|constructor]. simpl.
        rewrite orb_false_r. now apply Ascii.eqb_neq.
      * inversion IH as [|? ? Hp Hps]; subst. constructor; [|exact Hps].
        simpl. rewrite Hp, orb_false_r. now apply Ascii.eqb_neq.
Qed.

Lemma trimmedEntries_listable parts :
  Forall (fun p => hasByte "," p = false) parts ->
  Forall listable (trimmedEntries parts).
Proof.
  induction 1 as [|p parts Hp _ IH]; simpl; [constructor|].
  destruct (String.eqb_spec (TrimSpace p) "") as [E|E]; [exact IH|].
  constructor; [|exact IH].
  split; [exact E|]. split; [apply TrimSpace_idem|].
  now apply TrimSpace_keeps_bytes_out.
Qed.

Lemma trimmedEntries_filter parts :
  trimmedEntries parts
  = filter (fun w => negb (String.eqb w "")) (map TrimSpace parts).
Proof.
  induction parts as [|wp parts IH]; simpl; [reflexivity|].
  destruct (String.eqb (TrimSpace wp) ""); simpl; now rewrite IH.
Qed.

(** X25. The list of workplaces that [Load] builds: the parts of
    WORKPLACES between commas, without the white space at their ends and
    without the blank ones, in their order; or, when no part is left
    (WORKPLACES unset, empty or all blank), the single default name
    (WORKPLACE_NAME, or "Work").  So the list is never empty, and when
    it comes from WORKPLACES each entry is not empty, has no white space
    at its ends and no comma. *)
Theorem Load_workplaces (f : File) (env : Env) :
  let e := loadConfigFile f env in
  let entries :=
    filter (fun w => negb (String.eqb w ""))
           (map TrimSpace (Split (getEnv e "WORKPLACES" "") ",")) in
  LoadWorkplaces f env
  = match entries with
    | [] => [getEnv e "WORKPLACE_NAME" "Work"]
    | _ :: _ => entries
    end
  /\ Forall listable entries
  /\ LoadWorkplaces f env <> [].
Proof.
  cbv zeta. unfold LoadWorkplaces, workplacesOf.
  set (e := loadConfigFile f env).
  rewrite <- trimmedEntries_filter.
  pose proof (trimmedEntries_listable _
                (Split_no_sep (getEnv e "WORKPLACES" "") ",")) as L.
  split; [|split; [exact L|]].
  - destruct (String.eqb_spec (getEnv e "WORKPLACES" "") "") as [E|_].
    + rewrite E. reflexivity.
    + now destruct (trimmedEntries (Split (getEnv e "WORKPLACES" "") ",")).
  - destruct (String.eqb (getEnv e "WORKPLACES" "") ""); [discriminate|].
    now destruct (trimmedEntries (Split (getEnv e "WORKPLACES" "") ",")).
Qed.

Lemma Split_join w names :
  hasByte "," w = false ->
  Split (w ++ String "," (joinWorkplaces names)) ","
  = w :: Split (joinWorkplaces names) ",".
Proof.
  induction w as [|c w IH]; simpl; intros H; [reflexivity|].
  apply orb_false_iff in H. destruct H as [Hc Hw].
  rewrite Hc, (IH Hw). reflexivity.
Qed.

Lemma Split_single w :
  hasByte "," w = false -> Split w "," = [w].
Proof.
  induction w as [|c w IH]; simpl; intros H; [reflexivity|].
  apply orb_false_iff in H. destruct H as [Hc Hw].
  now rewrite Hc, (IH Hw).
Qed.

Lemma Split_joinWorkplaces names :
  names <> [] ->
  Forall listable names ->
  Split (joinWorkplaces names) "," = names.
Proof.
  intros Hne F. induction F as [|w names (_ & _ & Hw) F IH];
    [contradiction|].
  destruct names as [|w' names'].
  - simpl. now apply Split_single.
  - change (joinWorkplaces (w :: w' :: names'))
      with (w ++ String "," (joinWorkplaces (w' :: names'))).
    rewrite (Split_join w _ Hw), IH; [reflexivity|discriminate].
Qed.

Lemma trimmedEntries_listed names :
  Forall listable names -> trimmedEntries names = names.
Proof.
  induction 1 as [|w names (Hne & Ht & _) _ IH]; simpl; [reflexivity|].
  rewrite Ht. destruct (String.eqb_spec w "") as [E|_]; [contradiction|].
  now rewrite IH.
Qed.

(** X26. When WORKPLACES holds what [saveWorkplaces] writes for a list
    (the names joined by commas), [Load] builds the same list again,
    provided that the list is not empty and that no name is empty, has
    white space at its ends or holds a comma. *)
Theorem saved_workplaces_are_loaded (env : Env) (names : list string) :
  names <> [] ->
  Forall listable names ->
  LookupEnv env "WORKPLACES" = Some (joinWorkplaces names) ->
  workplacesOf env = names.
Proof.
  intros Hne F E. unfold workplacesOf, getEnv. rewrite E.
  assert (J : joinWorkplaces names <> "").
  { destruct F as [|w names (Hw & _) F]; [contradiction|].
    destruct names; simpl.
    - exact Hw.
    - destruct w; [contradiction|discriminate]. }
  destruct (String.eqb_spec (joinWorkplaces names) ""); [contradiction|].
  rewrite (Split_joinWorkplaces names Hne F), (trimmedEntries_listed names F).
  destruct names; [contradiction|reflexivity].
Qed.

Lemma saved_workplaces_are_loaded_witness :
  workplacesOf [("WORKPLACES", "Acme,Side Job,Home")]
  = ["Acme"; "Side Job"; "Home"].
Proof.
  apply (saved_workplaces_are_loaded [("WORKPLACES", "Acme,Side Job,Home")]
           ["Acme"; "Side Job"; "Home"]).
  - discriminate.
  - repeat constructor; discriminate.
  - reflexivity.
Defined.

(** ** The list of workplaces *)

Lemma existsb_false_Forall {A} (f : A -> bool) l :
  existsb f l = false -> Forall (fun a => f a = false) l.
Proof.
  induction l as [|x l IH]; simpl; intros H; constructor;
    apply orb_false_iff in H; tauto.
Qed.

Lemma ForallOrdPairs_snoc {A} (R : A -> A -> Prop) l x :
  ForallOrdPairs R l -> Forall (fun a => R a x) l ->
  ForallOrdPairs R (l ++ [x]).
Proof.
  induction 1 as [|a l Ha Hl IH]; intros F; simpl.
  - repeat constructor.
  - inversion F as [|? ? Hax Fl]; subst. constructor; [|now apply IH].
    apply Forall_app. split; [exact Ha|now constructor].
Qed.

Lemma renameFirst_Forall (P : string -> Prop) ws oldName newName : forall ws',
  renameFirst ws oldName newName = Some ws' ->
  Forall P ws -> P newName -> Forall P ws'.
Proof.
  induction ws as [|wp rest IH]; intros ws' H F Hn; simpl in H;
    [discriminate|].
  inversion F as [|? ? Hwp Frest]; subst.
  destruct (String.eqb wp oldName).
  - injection H as <-. now constructor.
  - destruct (renameFirst rest oldName newName) as [rest'|]; [|discriminate].
    injection H as <-. constructor; [exact Hwp|]. now apply IH.
Qed.

Lemma renameFirst_distinct (R : string -> string -> Prop) ws oldName newName :
  forall ws',
    renameFirst ws oldName newName = Some ws' ->
    ForallOrdPairs R ws ->
    Forall (fun a => R a newName /\ R newName a) ws ->
    ForallOrdPairs R ws'.
Proof.
  induction ws as [|wp rest IH]; intros ws' H D F; simpl in H;
    [discriminate|].
  inversion D as [|? ? Hwp Drest]; subst.
  inversion F as [|? ? [Hwn Hnw] Frest]; subst.
  destruct (String.eqb wp oldName).
  - injection H as <-. constructor; [|exact Drest].
    eapply Forall_impl; [|exact Frest]. simpl. tauto.
  - destruct (renameFirst rest oldName newName) as [rest'|] eqn:E;
      [|discriminate].
    injection H as <-. constructor; [|now apply (IH rest')].
    exact (renameFirst_Forall (R wp) rest oldName newName rest' E Hwp Hwn).
Qed.

(** X27. [AddWorkplace] and [RenameWorkplace] keep the workplaces
    different from each other under case folding: when no entry of the
    list is equal under [EqualFold] to a later one, the same holds of
    the list either function leaves, whatever it returns. *)
Theorem workplaces_stay_distinct (EqualFold : string -> string -> bool)
  (saveWorkplaces : list string -> option ConfigError)
  (workplaces : list string) :
  (forall a b, EqualFold a b = EqualFold b a) ->
  foldDistinct EqualFold workplaces ->
  (forall name,
      foldDistinct EqualFold
        (fst (AddWorkplace EqualFold saveWorkplaces workplaces name)))
  /\ (forall oldName newName,
      foldDistinct EqualFold
        (fst (RenameWorkplace EqualFold saveWorkplaces workplaces
                oldName newName))).
Proof.
  intros Sym D. unfold foldDistinct in *. split.
  - intros name. unfold AddWorkplace.
    destruct (existsb _ workplaces) eqn:E; cbn [fst]; [exact D|].
    apply ForallOrdPairs_snoc; [exact D|].
    exact (existsb_false_Forall _ _ E).
  - intros oldName newName. unfold RenameWorkplace.
    destruct (existsb _ workplaces) eqn:E; cbn [fst]; [exact D|].
    destruct (renameFirst workplaces oldName newName) as [ws'|] eqn:Er;
      cbn [fst]; [|exact D].
    apply (renameFirst_distinct _ _ _ _ _ Er D).
    eapply Forall_impl; [|exact (existsb_false_Forall _ _ E)].
    cbv beta. intros a Ha. split; [exact Ha|]. now rewrite Sym.
Qed.

Lemma asciiFold_sym a b : asciiFold a b = asciiFold b a.
Proof. unfold asciiFold. apply String.eqb_sym. Qed.

Lemma workplaces_stay_distinct_witness :
  foldDistinct asciiFold
    (fst (AddWorkplace asciiFold (fun _ => None) ["Acme"; "Home"] "Side"))
  /\ foldDistinct asciiFold
       (fst (RenameWorkplace asciiFold (fun _ => None) ["Acme"; "Home"]
               "Home" "House")).
Proof.
  assert (D : foldDistinct asciiFold ["Acme"; "Home"])
    by (repeat constructor).
  destruct (workplaces_stay_distinct asciiFold (fun _ => None)
              ["Acme"; "Home"] asciiFold_sym D) as [A R].
  split; [apply A|apply R].
Defined.

Lemma renameFirst_none ws oldName newName :
  ~ In oldName ws -> renameFirst ws oldName newName = None.
Proof.
  induction ws as [|wp rest IH]; simpl; intros H; [reflexivity|].
  destruct (String.eqb_spec wp oldName) as [->|_]; [tauto|].
  rewrite IH; tauto.
Qed.

Lemma renameFirst_first l1 l2 oldName newName :
  ~ In oldName l1 ->
  renameFirst (l1 ++ oldName :: l2) oldName newName
  = Some (l1 ++ newName :: l2)%list.
Proof.
  induction l1 as [|wp l1 IH]; simpl; intros H.
  - now rewrite String.eqb_refl.
  - destruct (String.eqb_spec wp oldName) as [->|_]; [tauto|].
    rewrite IH; tauto.
Qed.

(** X28. [RenameWorkplace] refuses, with the error that the workplace
    exists and with the list as it was, every new name that is equal
    under [EqualFold] to an entry of the list, whichever entry it is: so
    also a new name equal to another workplace, and the old name itself
    in another case.  With no such entry, when the old name is not in
    the list the list stays as it is and the error is that it was not
    found; otherwise the first entry equal to the old name, and only
    that one, is replaced, and what saving returns is the result. *)
Theorem RenameWorkplace_outcome (EqualFold : string -> string -> bool)
  (saveWorkplaces : list string -> option ConfigError)
  (workplaces : list string) (oldName newName : string) :
  (forall wp,
      In wp workplaces -> EqualFold wp newName = true ->
      RenameWorkplace EqualFold saveWorkplaces workplaces oldName newName
      = (workplaces, Some AlreadyExists))
  /\ ((forall wp, In wp workplaces -> EqualFold wp newName = false) ->
      ~ In oldName workplaces ->
      RenameWorkplace EqualFold saveWorkplaces workplaces oldName newName
      = (workplaces, Some NotFound))
  /\ (forall l1 l2,
        (forall wp, In wp workplaces -> EqualFold wp newName = false) ->
        workplaces = (l1 ++ oldName :: l2)%list ->
        ~ In oldName l1 ->
        RenameWorkplace EqualFold saveWorkplaces workplaces oldName newName
        = ((l1 ++ newName :: l2)%list,
           saveWorkplaces (l1 ++ newName :: l2)%list)).
Proof.
  assert (N : (forall wp, In wp workplaces -> EqualFold wp newName = false)
              -> existsb (fun wp => EqualFold wp newName) workplaces
                 = false).
  { intros H. apply not_true_is_false. intros E.
    apply existsb_exists in E. destruct E as (wp & Hin & He).
    rewrite (H wp Hin) in He. discriminate. }
  unfold RenameWorkplace. repeat apply conj.
  - intros wp Hin He.
    assert (E : existsb (fun wp => EqualFold wp newName) workplaces = true).
    { apply existsb_exists. now exists wp. }
    now rewrite E.
  - intros H Hn. rewrite (N H).
    now rewrite renameFirst_none by exact Hn.
  - intros l1 l2 H E Hn. rewrite (N H). subst workplaces.
    now rewrite renameFirst_first.
Qed.

Lemma RenameWorkplace_outcome_witness :
  RenameWorkplace asciiFold (fun _ => None) ["Acme"; "Home"] "Home" "HOME"
  = (["Acme"; "Home"], Some AlreadyExists)
  /\ RenameWorkplace asciiFold (fun _ => None) ["Acme"; "Home"] "Home" "acme"
     = (["Acme"; "Home"], Some AlreadyExists)
  /\ RenameWorkplace asciiFold (fun _ => None) ["Acme"; "Home"] "Work" "Side"
     = (["Acme"; "Home"], Some NotFound)
  /\ RenameWorkplace asciiFold (fun _ => None) ["Acme"; "Home"; "Acme"]
       "Acme" "Work"
     = (["Work"; "Home"; "Acme"], None).
Proof.
  assert (F : forall ws new,
             forallb (fun wp => negb (asciiFold wp new)) ws = true ->
             forall wp, In wp ws -> asciiFold wp new = false).
  { intros ws new H wp Hin.
    rewrite forallb_forall in H. apply negb_true_iff. now apply H. }
  repeat apply conj.
  - apply (proj1 (RenameWorkplace_outcome asciiFold (fun _ => None)
                    ["Acme"; "Home"] "Home" "HOME") "Home").
    + simpl. tauto.
    + reflexivity.
  - apply (proj1 (RenameWorkplace_outcome asciiFold (fun _ => None)
                    ["Acme"; "Home"] "Home" "acme") "Acme").
    + simpl. tauto.
    + reflexivity.
  - apply (proj1 (proj2 (RenameWorkplace_outcome asciiFold (fun _ => None)
                           ["Acme"; "Home"] "Work" "Side"))).
    + apply F. reflexivity.
    + simpl. intros [H|[H|[]]]; discriminate.
  - apply (proj2 (proj2 (RenameWorkplace_outcome asciiFold (fun _ => None)
                           ["Acme"; "Home"; "Acme"] "Acme" "Work"))
             [] ["Home"; "Acme"]).
    + apply F. reflexivity.
    + reflexivity.
    + simpl. tauto.
Defined.

(* ================================================================= *)
(** * Properties of the command [add-many] *)

Lemma addTasks_spec inputs : forall n added,
  addTasks n added inputs
  = (let tasks := filter (fun t => negb (String.eqb t ""))
                         (map TrimSpace inputs) in
     (setPendingWork n
        (PendingWork n ++ map (fun t => mkWorkItem t false) tasks),
      added ++ tasks))%list.
Proof.
  induction inputs as [|r inputs IH]; intros n added; simpl.
  - rewrite !app_nil_r. now destruct n.
  - destruct (String.eqb (TrimSpace r) ""); simpl; rewrite IH; simpl.
    + reflexivity.
    + now rewrite <- !app_assoc.
Qed.

(** X29. [runAddMany] adds the inputs without the white space at their
    ends, in the order typed, as pending items after the ones the note
    has, and leaves out the inputs that are blank: no task it adds is
    empty or has white space at its ends.  It writes nothing when no
    task was added. *)
Theorem runAddMany_adds_trimmed_tasks (n : Note) (inputs : list string) :
  let tasks := filter (fun t => negb (String.eqb t ""))
                      (map TrimSpace inputs) in
  runAddMany n inputs
  = match tasks with
    | [] => NotWritten
    | _ :: _ =>
        Written (setPendingWork n
                   (PendingWork n
                    ++ map (fun t => mkWorkItem t false) tasks))
    end
  /\ Forall (fun t => String.eqb t "" = false /\ TrimSpace t = t) tasks.
Proof.
  cbv zeta. split.
  - unfold runAddMany. rewrite addTasks_spec. cbv zeta. cbn [app].
    now destruct (filter _ (map TrimSpace inputs)).
  - apply Forall_forall. intros t Ht. apply filter_In in Ht.
    destruct Ht as [Hin Hne]. apply in_map_iff in Hin.
    destruct Hin as (r & <- & _). split.
    + now apply negb_true_iff.
    + apply TrimSpace_idem.
Qed.
